(** * Building an image classifier with differential privacy

    A shallow embedding of the tutorial notebook
    [tutorials/building_image_classifier.ipynb]: its hyper-parameter
    cells, the [accuracy] helper, the [train] and [test] functions and the
    top-level driver cells.

    Conventions.
    - Python integers are [Z]; [%] on integers is [Z.modulo] (both take
      the sign of the divisor), and a zero divisor raises.
    - The floating-point values NumPy and the framework compute (losses,
      accuracies, means) are idealised as exact rationals kept in
      lowest terms, extended with a NaN: the mean of an empty array is
      NaN.  The true division of two Python integers, whose result cell
      30 truncates to an integer, is rounded to the nearest double and
      raises [OverflowError] when the quotient is too large for one.
    - Effects (standard output, optimizer calls, in-place mutation of
      the model object) are threaded through a state-and-exception
      monad over a [World]. *)

From Stdlib Require Import ZArith QArith Qround List String Ascii Bool Lia Arith.
Import ListNotations.

Local Open Scope string_scope.
Local Open Scope list_scope.
Local Open Scope Z_scope.

(* ===================================================================== *)
(** ** Python exceptions *)

Inductive Exn : Type :=
| ZeroDivisionError
| AssertionError
| ValueError
| OverflowError
| AttributeError (what : string)
| IncompatibleModuleException (message : string).

(* ===================================================================== *)
(** ** The fragment of NumPy the notebook uses *)

Module Np.

(** A float: NaN or an exact rational in lowest terms. *)
Inductive float : Type :=
| NaN
| Fin (q : Q).

Definition of_Q (q : Q) : float := Fin (Qred q).

Definition add (a b : float) : float :=
  match a, b with
  | Fin x, Fin y => of_Q (x + y)
  | _, _ => NaN
  end.

Definition scale (k : Q) (a : float) : float :=
  match a with
  | Fin x => of_Q (k * x)
  | NaN => NaN
  end.

(** [x / n] for an element count [n]; [0.0 / 0] is NaN. *)
Definition div_count (a : float) (n : nat) : float :=
  match n, a with
  | O, _ => NaN
  | S _, Fin x => of_Q (x / inject_Z (Z.of_nat n))
  | S _, NaN => NaN
  end.

Definition sum (l : list float) : float := fold_left add l (Fin 0).

(** [np.mean] of a one-dimensional float array. *)
Definition mean (l : list float) : float := div_count (sum l) (List.length l).

Definition count_true (l : list bool) : nat := List.length (filter id l).

(** [.mean()] of a boolean array: the number of [True] entries over
    the length. *)
Definition mean_bool (l : list bool) : float :=
  div_count (Fin (inject_Z (Z.of_nat (count_true l)))) (List.length l).

Fixpoint zip_eqb (a b : list Z) : list bool :=
  match a, b with
  | x :: a', y :: b' => Z.eqb x y :: zip_eqb a' b'
  | _, _ => []
  end.

(** [a == b] on one-dimensional integer arrays: elementwise on equal
    shapes, broadcasting a one-element array, and an error on any other
    shape mismatch. *)
Definition array_eq (a b : list Z) : Exn + list bool :=
  if Nat.eqb (List.length a) (List.length b) then inr (zip_eqb a b)
  else match a, b with
       | [x], _ => inr (map (Z.eqb x) b)
       | _, [y] => inr (map (fun x => Z.eqb x y) a)
       | _, _ => inl ValueError
       end.

(** [np.argmax] of one row: the first index holding the maximum
    (0 on an empty row is never used: the network has 10 outputs). *)
Fixpoint argmax_from (best : Q) (besti i : Z) (row : list Q) : Z :=
  match row with
  | [] => besti
  | x :: row' =>
      if Qlt_le_dec best x
      then argmax_from x i (i + 1) row'
      else argmax_from best besti (i + 1) row'
  end.

Definition argmax (row : list Q) : Z :=
  match row with
  | [] => 0
  | x :: row' => argmax_from x 0 1 row'
  end.

(** Membership in the closed unit interval. *)
Definition in_unit_interval (a : float) : Prop :=
  match a with
  | Fin q => (0 <= q /\ q <= 1)%Q
  | NaN => False
  end.

End Np.

(* ===================================================================== *)
(** ** Cell 26: the accuracy helper

<<
def accuracy(preds, labels):
    return (preds == labels).mean()
>> *)

Definition accuracy (preds labels : list Z) : Exn + Np.float :=
  match Np.array_eq preds labels with
  | inl e => inl e
  | inr eqs => inr (Np.mean_bool eqs)
  end.

(** The number of positions at which two arrays agree. *)
Fixpoint agreements (preds labels : list Z) : nat :=
  match preds, labels with
  | p :: preds', l :: labels' =>
      (if Z.eqb p l then 1 else 0)%nat + agreements preds' labels'
  | _, _ => O
  end.

(* ===================================================================== *)
(** ** Python integer arithmetic used by the cells *)

(** [a % b] on integers. *)
Definition py_mod (a b : Z) : Exn + Z :=
  if b =? 0 then inl ZeroDivisionError else inr (a mod b).

(** *** Doubles

    The value of a Python float that is not NaN or infinite is a
    rational; [to_double] gives the double nearest to a rational
    (ties to the even significand, subnormals included), or [None]
    when that rational is too large for a double. *)

(** [n / d] rounded to the nearest integer, ties to even, for
    [0 <= n] and [0 < d]. *)
Definition div_half_even (n d : Z) : Z :=
  let q := n / d in
  let r := n mod d in
  match 2 * r ?= d with
  | Lt => q
  | Gt => q + 1
  | Eq => if Z.even q then q else q + 1
  end.

(** [floor (log2 (n / d))] for [0 < n] and [0 < d]. *)
Definition floor_log2 (n d : Z) : Z :=
  let l0 := Z.log2 n - Z.log2 d in
  if d * 2 ^ Z.max 0 l0 <=? n * 2 ^ Z.max 0 (- l0) then l0 else l0 - 1.

Definition to_double (x : Q) : option Q :=
  let n := Z.abs (Qnum x) in
  let d := Z.pos (Qden x) in
  if n =? 0 then Some 0%Q
  else
    (* the exponent of the last place of a 53-bit significand *)
    let e := Z.max (floor_log2 n d - 52) (-1074) in
    let m := div_half_even (n * 2 ^ Z.max 0 (- e)) (d * 2 ^ Z.max 0 e) in
    if 2 ^ 1024 <=? m * 2 ^ Z.max 0 e then None
    else Some (Qred ((Z.sgn (Qnum x) * m * 2 ^ Z.max 0 e) # Z.to_pos (2 ^ Z.max 0 (- e)))).

(** [a / b] on integers: true division, the double nearest to the
    quotient.  A zero divisor raises [ZeroDivisionError], a quotient
    too large for a double raises [OverflowError]. *)
Definition py_truediv (a b : Z) : Exn + Q :=
  if b =? 0 then inl ZeroDivisionError
  else match to_double (Qred (inject_Z a / inject_Z b)) with
       | None => inl OverflowError
       | Some x => inr x
       end.

(** [int(x)]: truncation toward zero. *)
Definition py_int (x : Q) : Z :=
  if Qlt_le_dec x 0 then Qceiling x else Qfloor x.

(* ===================================================================== *)
(** ** Cells 5 and 7: hyper-parameters *)

Definition MAX_GRAD_NORM : Q := 12 # 10.
Definition NOISE_MULTIPLIER : Q := 38 # 100.
Definition DELTA : Q := 1 # 100000.

Definition LR : Q := 1 # 1000.
Definition NUM_WORKERS : Z := 2.

Definition BATCH_SIZE : Z := 128.
Definition VIRTUAL_BATCH_SIZE : Z := 512.

(** Cell 28: [[1 + x / 10.0 for x in range(1, 100)] + list(range(12, 64))]. *)
Definition py_range (lo hi : Z) : list Z :=
  map (fun k => lo + Z.of_nat k) (seq 0 (Z.to_nat (hi - lo))).

Definition alphas : list Q :=
  map (fun x => Qred (1 + inject_Z x / 10)) (py_range 1 100)
  ++ map inject_Z (py_range 12 64).

(* ===================================================================== *)
(** ** Cell 30: the virtual batch rate

<<
assert VIRTUAL_BATCH_SIZE % BATCH_SIZE == 0
virtual_batch_rate = int(VIRTUAL_BATCH_SIZE / BATCH_SIZE)
>> *)

Definition cell_30 (virtual_batch_size batch_size : Z) : Exn + Z :=
  match py_mod virtual_batch_size batch_size with
  | inl e => inl e
  | inr r =>
      if r =? 0 then
        match py_truediv virtual_batch_size batch_size with
        | inl e => inl e
        | inr q => inr (py_int q)
        end
      else inl AssertionError
  end.

(* ===================================================================== *)
(** ** Module graphs, the model inspector and the layer rewriting *)

Module Nn.

(** Layer types.  [Unsupported] stands for any other layer type for
    which no per-sample gradient computation exists. *)
Inductive LayerKind : Type :=
| ResNet | Sequential | BasicBlock
| Conv2d | BatchNorm2d | GroupNorm
| ReLU | MaxPool2d | AdaptiveAvgPool2d | Linear
| Unsupported (type_name : string).

(** A module: its layer type and its named children, in registration
    order. *)
#[warnings="-register-all"]
Inductive Module : Type :=
| Node (kind : LayerKind) (children : list (string * Module)).

Definition kind_of (m : Module) : LayerKind :=
  match m with Node k _ => k end.

Definition children_of (m : Module) : list (string * Module) :=
  match m with Node _ cs => cs end.

Definition is_batchnorm (k : LayerKind) : bool :=
  match k with BatchNorm2d => true | _ => false end.

(** [named_modules(prefix)]: the module itself, then its descendants
    in pre-order, each under its dotted path. *)
Fixpoint named_modules (prefix : string) (m : Module) : list (string * LayerKind) :=
  match m with
  | Node k cs =>
      (prefix, k)
      :: (fix over (cs : list (string * Module)) : list (string * LayerKind) :=
            match cs with
            | [] => []
            | (name, c) :: cs' =>
                named_modules (prefix ++ "." ++ name)%string c ++ over cs'
            end) cs
  end.

(** The kinds of all modules of the graph. *)
Definition kinds (m : Module) : list LayerKind :=
  map snd (named_modules "Main" m).

Definition has_batchnorm (m : Module) : bool :=
  existsb is_batchnorm (kinds m).

(** *** torchvision's ResNet18 *)

Definition basic_block (downsample : bool) : Module :=
  Node BasicBlock
    ([ ("conv1", Node Conv2d []); ("bn1", Node BatchNorm2d []);
       ("relu", Node ReLU []);
       ("conv2", Node Conv2d []); ("bn2", Node BatchNorm2d []) ]
     ++ (if downsample
         then [ ("downsample",
                 Node Sequential [ ("0", Node Conv2d []);
                                   ("1", Node BatchNorm2d []) ]) ]
         else [])).

Definition res_layer (downsample : bool) : Module :=
  Node Sequential [ ("0", basic_block downsample);
                    ("1", basic_block false) ].

Definition resnet18 : Module :=
  Node ResNet
    [ ("conv1", Node Conv2d []); ("bn1", Node BatchNorm2d []);
      ("relu", Node ReLU []); ("maxpool", Node MaxPool2d []);
      ("layer1", res_layer false); ("layer2", res_layer true);
      ("layer3", res_layer true); ("layer4", res_layer true);
      ("avgpool", Node AdaptiveAvgPool2d []); ("fc", Node Linear []) ].

(** *** The compatibility check *)

(** Modelled from the spec: [opacus.dp_model_inspector] is not among
    the sources.  A layer type is incompatible when per-sample
    gradients cannot be computed for it: batch normalisation (which
    couples the samples of a batch) and the unsupported types. *)
Definition compatible (k : LayerKind) : bool :=
  match k with
  | BatchNorm2d | Unsupported _ => false
  | _ => true
  end.

(** Modelled from the spec: the names of the offending modules, as
    the inspector collects them under the root name [Main]. *)
Definition violators (m : Module) : list string :=
  map fst (filter (fun nk => negb (compatible (snd nk))) (named_modules "Main" m)).

(** Python's [repr] of a list of strings without quotes inside. *)
Fixpoint join (sep : string) (l : list string) : string :=
  match l with
  | [] => ""
  | [s] => s
  | s :: l' => (s ++ sep ++ join sep l')%string
  end.

Definition quote (s : string) : string := ("'" ++ s ++ "'")%string.

Definition repr_list (l : list string) : string :=
  ("[" ++ join ", " (map quote l) ++ "]")%string.

Definition newline : string := String (ascii_of_nat 10) EmptyString.

Definition inspector_message : string := "Some modules are not valid.".

(** Modelled from the spec: [DPModelInspector().validate], completed
    with the lines the recorded traceback shows,
<<
          if inspector.violators:
              message += f"\n{inspector.message}: {inspector.violators}"
      raise IncompatibleModuleException(message)
  return valid
>> *)
Definition validate (m : Module) : Exn + bool :=
  let vs := violators m in
  let valid := match vs with [] => true | _ => false end in
  if valid then inr valid
  else inl (IncompatibleModuleException
              ("Model contains incompatible modules."
               ++ newline ++ inspector_message ++ ": " ++ repr_list vs)%string).

(** *** The layer rewriting *)

(** Modelled from the spec: [opacus.utils.module_modification] is not
    among the sources.  Every batch-normalisation layer of the graph
    is replaced by a group-normalisation layer; all else is kept. *)
Fixpoint replace_batchnorm (m : Module) : Module :=
  match m with
  | Node k cs =>
      Node (if is_batchnorm k then GroupNorm else k)
           (map (fun nc => (fst nc, replace_batchnorm (snd nc))) cs)
  end.

End Nn.

(* ===================================================================== *)
(** ** Objects of the external libraries *)

Inductive Device : Type := Cuda | Cpu.

(** [opacus.PrivacyEngine]: its constructor arguments and the number of
    optimizer steps it has accounted for. *)
Record PrivacyEngine : Type := {
  pe_module : nat;
  pe_batch_size : Z;
  pe_sample_size : Z;
  pe_alphas : list Q;
  pe_noise_multiplier : Q;
  pe_max_grad_norm : Q;
  pe_steps : Z
}.

Definition pe_count_step (pe : PrivacyEngine) : PrivacyEngine :=
  {| pe_module := pe_module pe;
     pe_batch_size := pe_batch_size pe;
     pe_sample_size := pe_sample_size pe;
     pe_alphas := pe_alphas pe;
     pe_noise_multiplier := pe_noise_multiplier pe;
     pe_max_grad_norm := pe_max_grad_norm pe;
     pe_steps := pe_steps pe + 1 |}.

(** What the notebook takes from PyTorch and Opacus without looking
    inside: tensors, the numerical forward and backward passes, the
    noisy parameter update, the privacy accountant, the shuffling of the
    data loader and the presence of an accelerator. *)
Class Torch : Type := {
  Image : Type;
  Params : Type;
  Grad : Type;
  init_params : Nn.Module -> Params;
  forward : Nn.Module -> Params -> Image -> list Q;
  cross_entropy : list (list Q) -> list Z -> Np.float;
  autograd : Nn.Module -> Params -> list (Image * Z) -> Grad;
  apply_update : option PrivacyEngine -> Q -> Params -> list Grad -> Params;
  get_privacy_spent : PrivacyEngine -> Q -> Q * Q;
  cuda_is_available : bool;
  shuffled : nat -> list (Image * Z) -> list (Image * Z);
  shuffled_length : forall k l, List.length (shuffled k l) = List.length l
}.

(** An [nn.Module] object: its graph, its parameters, the gradients
    currently stored on them, its mode and its device. *)
Record ModuleObj {T : Torch} : Type := {
  m_arch : Nn.Module;
  m_params : Params;
  m_grad : option Grad;
  m_training : bool;
  m_device : Device
}.

(** A [torch.optim] optimizer over the parameters of module [o_model];
    [o_accum] holds the gradients of the virtual steps taken since the
    last real step, [o_engine] the attached privacy engine. *)
Record Optimizer {T : Torch} : Type := {
  o_model : nat;
  o_lr : Q;
  o_accum : list Grad;
  o_engine : option PrivacyEngine
}.

(** A [DataLoader] over (image, label) samples. *)
Record DataLoader {T : Torch} : Type := {
  dl_dataset : list (Image * Z);
  dl_batch_size : Z;
  dl_shuffle : bool
}.

(* ===================================================================== *)
(** ** Observable events *)

(** The lines the notebook prints, before formatting. *)
Inductive Line : Type :=
| ValidLine (valid : bool)
| SigmaLine (sigma c : Q)
| TrainLine (epoch : Z) (loss acc : Np.float) (epsilon delta : Q)
| TestLine (loss acc : Np.float).

Inductive Event : Type :=
| EvPrint (l : Line)
| EvError (e : Exn)
| EvCallTrain (epoch : Z)
| EvCallTest
| EvNewModel (m : nat)
| EvValidate (m : nat)
| EvConvert (m : nat)
| EvToDevice (m : nat) (d : Device)
| EvNewOptimizer (o : nat)
| EvNewPrivacyEngine (m : nat)
| EvAttach (o : nat)
| EvModelTrain (m : nat)
| EvModelEval (m : nat)
| EvZeroGrad (o : nat)
| EvForward (m : nat) (arch : Nn.Module)
| EvBackward (m : nat)
| EvStep (o : nat)
| EvVirtualStep (o : nat).

(* ===================================================================== *)
(** ** The world and its monad *)

Record World {T : Torch} : Type := {
  w_modules : list ModuleObj;
  w_optimizers : list Optimizer;
  w_rng : nat;
  w_trace : list Event
}.

Definition M {T : Torch} (A : Type) : Type := World -> (Exn + A) * World.

Definition ret {T : Torch} {A : Type} (a : A) : M A := fun w => (inr a, w).

Definition bind {T : Torch} {A B : Type} (c : M A) (k : A -> M B) : M B :=
  fun w =>
    match c w with
    | (inl e, w') => (inl e, w')
    | (inr a, w') => k a w'
    end.

Definition raise {T : Torch} {A : Type} (e : Exn) : M A := fun w => (inl e, w).

Definition lift {T : Torch} {A : Type} (r : Exn + A) : M A :=
  match r with
  | inl e => raise e
  | inr a => ret a
  end.

Declare Scope monad_scope.
Delimit Scope monad_scope with monad.
Notation "x <- c1 ;; c2" := (bind c1 (fun x => c2))
  (at level 61, c1 at next level, right associativity) : monad_scope.
Notation "c1 ;; c2" := (bind c1 (fun _ => c2))
  (at level 61, right associativity) : monad_scope.
Local Open Scope monad_scope.

Definition emit {T : Torch} (e : Event) : M unit :=
  fun w =>
    (inr tt,
     {| w_modules := w_modules w; w_optimizers := w_optimizers w;
        w_rng := w_rng w; w_trace := w_trace w ++ [e] |}).

Fixpoint list_update {A : Type} (l : list A) (i : nat) (f : A -> A) : list A :=
  match l, i with
  | [], _ => []
  | x :: l', O => f x :: l'
  | x :: l', S i' => x :: list_update l' i' f
  end.

(** Reading an object through a reference.  References are created by
    the allocation functions below only, so the error branch is not
    reachable from the notebook. *)
Definition get_module {T : Torch} (m : nat) : M ModuleObj :=
  fun w =>
    match nth_error (w_modules w) m with
    | Some mo => (inr mo, w)
    | None => (inl (AttributeError "module"), w)
    end.

Definition get_optimizer {T : Torch} (o : nat) : M Optimizer :=
  fun w =>
    match nth_error (w_optimizers w) o with
    | Some opt => (inr opt, w)
    | None => (inl (AttributeError "optimizer"), w)
    end.

(** In-place mutation of an object. *)
Definition set_module {T : Torch} (m : nat) (f : ModuleObj -> ModuleObj) : M unit :=
  fun w =>
    (inr tt,
     {| w_modules := list_update (w_modules w) m f;
        w_optimizers := w_optimizers w;
        w_rng := w_rng w; w_trace := w_trace w |}).

Definition set_optimizer {T : Torch} (o : nat) (f : Optimizer -> Optimizer) : M unit :=
  fun w =>
    (inr tt,
     {| w_modules := w_modules w;
        w_optimizers := list_update (w_optimizers w) o f;
        w_rng := w_rng w; w_trace := w_trace w |}).

Definition new_module {T : Torch} (mo : ModuleObj) : M nat :=
  fun w =>
    (inr (List.length (w_modules w)),
     {| w_modules := w_modules w ++ [mo];
        w_optimizers := w_optimizers w;
        w_rng := w_rng w; w_trace := w_trace w |}).

Definition new_optimizer {T : Torch} (opt : Optimizer) : M nat :=
  fun w =>
    (inr (List.length (w_optimizers w)),
     {| w_modules := w_modules w;
        w_optimizers := w_optimizers w ++ [opt];
        w_rng := w_rng w; w_trace := w_trace w |}).

(** A fresh seed for one pass over a shuffling loader. *)
Definition next_seed {T : Torch} : M nat :=
  fun w =>
    (inr (w_rng w),
     {| w_modules := w_modules w; w_optimizers := w_optimizers w;
        w_rng := S (w_rng w); w_trace := w_trace w |}).

(** A [for] loop threading the local variables [s] of its body. *)
Fixpoint foldM {T : Torch} {S A : Type} (body : S -> A -> M S) (s : S) (l : list A) : M S :=
  match l with
  | [] => ret s
  | x :: l' => s' <- body s x ;; foldM body s' l'
  end.

(** A notebook cell whose exception is displayed under the cell while
    the session goes on. *)
Definition cell {T : Torch} {A : Type} (c : M A) : M (option A) :=
  fun w =>
    match c w with
    | (inl e, w') =>
        (inr None,
         {| w_modules := w_modules w'; w_optimizers := w_optimizers w';
            w_rng := w_rng w'; w_trace := w_trace w' ++ [EvError e] |})
    | (inr a, w') => (inr (Some a), w')
    end.

Definition empty_world {T : Torch} : World :=
  {| w_modules := []; w_optimizers := []; w_rng := O; w_trace := [] |}.

(* ===================================================================== *)
(** ** Cell 12: data loaders *)

(** [DataLoader(dataset, batch_size=..., shuffle=...)] refuses a batch
    size that is not positive. *)
Definition new_loader {T : Torch}
    (dataset : list (Image * Z)) (batch_size : Z) (shuffle : bool) : M DataLoader :=
  if batch_size <=? 0 then raise ValueError
  else ret {| dl_dataset := dataset; dl_batch_size := batch_size;
              dl_shuffle := shuffle |}.

(** [len(loader)]: the number of batches, the last one possibly short. *)
Definition loader_len {T : Torch} (dl : DataLoader) : Z :=
  (Z.of_nat (List.length (dl_dataset dl)) + dl_batch_size dl - 1) / dl_batch_size dl.

Fixpoint chunks_fuel {A : Type} (fuel size : nat) (l : list A) : list (list A) :=
  match fuel, l with
  | O, _ => []
  | _, [] => []
  | S fuel', _ => firstn size l :: chunks_fuel fuel' size (skipn size l)
  end.

(** Consecutive batches of [size] samples; the fuel [length l] is
    enough for every positive [size]. *)
Definition chunks {A : Type} (size : nat) (l : list A) : list (list A) :=
  chunks_fuel (List.length l) size l.

(** One pass over a loader: the batches it yields. *)
Definition iterate {T : Torch} (dl : DataLoader) : M (list (list (Image * Z))) :=
  if dl_shuffle dl then
    seed <- next_seed ;;
    ret (chunks (Z.to_nat (dl_batch_size dl)) (shuffled seed (dl_dataset dl)))
  else
    ret (chunks (Z.to_nat (dl_batch_size dl)) (dl_dataset dl)).

Fixpoint enumerate_from {A : Type} (i : Z) (l : list A) : list (Z * A) :=
  match l with
  | [] => []
  | x :: l' => (i, x) :: enumerate_from (i + 1) l'
  end.

Definition enumerate {A : Type} (l : list A) : list (Z * A) := enumerate_from 0 l.

(* ===================================================================== *)
(** ** Operations on modules and optimizers *)

Definition mo_with_arch {T : Torch} (f : Nn.Module -> Nn.Module) (mo : ModuleObj) : ModuleObj :=
  {| m_arch := f (m_arch mo); m_params := m_params mo; m_grad := m_grad mo;
     m_training := m_training mo; m_device := m_device mo |}.

Definition mo_with_params {T : Torch} (p : Params) (mo : ModuleObj) : ModuleObj :=
  {| m_arch := m_arch mo; m_params := p; m_grad := m_grad mo;
     m_training := m_training mo; m_device := m_device mo |}.

Definition mo_with_grad {T : Torch} (g : option Grad) (mo : ModuleObj) : ModuleObj :=
  {| m_arch := m_arch mo; m_params := m_params mo; m_grad := g;
     m_training := m_training mo; m_device := m_device mo |}.

Definition mo_with_training {T : Torch} (b : bool) (mo : ModuleObj) : ModuleObj :=
  {| m_arch := m_arch mo; m_params := m_params mo; m_grad := m_grad mo;
     m_training := b; m_device := m_device mo |}.

Definition mo_with_device {T : Torch} (d : Device) (mo : ModuleObj) : ModuleObj :=
  {| m_arch := m_arch mo; m_params := m_params mo; m_grad := m_grad mo;
     m_training := m_training mo; m_device := d |}.

(** Cell 14: [models.resnet18(num_classes=10)]. *)
Definition models_resnet18 {T : Torch} : M nat :=
  m <- new_module {| m_arch := Nn.resnet18; m_params := init_params Nn.resnet18;
                     m_grad := None; m_training := true; m_device := Cpu |} ;;
  emit (EvNewModel m) ;;
  ret m.

(** [DPModelInspector().validate(model)]. *)
Definition inspector_validate {T : Torch} (model : nat) : M bool :=
  emit (EvValidate model) ;;
  mo <- get_module model ;;
  lift (Nn.validate (m_arch mo)).

(** Modelled from the spec: [module_modification.convert_batchnorm_modules]
    is not among the sources.  The model object is rewritten in place
    and returned. *)
Definition convert_batchnorm_modules {T : Torch} (model : nat) : M nat :=
  emit (EvConvert model) ;;
  set_module model (mo_with_arch Nn.replace_batchnorm) ;;
  ret model.

(** [model.to(device)] moves the module in place and returns it. *)
Definition model_to {T : Torch} (model : nat) (device : Device) : M nat :=
  emit (EvToDevice model device) ;;
  set_module model (mo_with_device device) ;;
  ret model.

(** [model.train()] and [model.eval()]. *)
Definition model_train {T : Torch} (model : nat) : M unit :=
  emit (EvModelTrain model) ;;
  set_module model (mo_with_training true).

Definition model_eval {T : Torch} (model : nat) : M unit :=
  emit (EvModelEval model) ;;
  set_module model (mo_with_training false).

(** [output = model(images)]: one row of scores per image. *)
Definition model_call {T : Torch} (model : nat) (images : list Image) : M (list (list Q)) :=
  mo <- get_module model ;;
  emit (EvForward model (m_arch mo)) ;;
  ret (map (forward (m_arch mo) (m_params mo)) images).

(** [loss.backward()]: gradients of the loss of this batch are stored
    on the parameters of the model. *)
Definition loss_backward {T : Torch} (model : nat) (batch : list (Image * Z)) : M unit :=
  mo <- get_module model ;;
  emit (EvBackward model) ;;
  set_module model (mo_with_grad (Some (autograd (m_arch mo) (m_params mo) batch))).

(** Cell 23: [optim.RMSprop(model.parameters(), lr=LR)]. *)
Definition optim_RMSprop {T : Torch} (model : nat) (lr : Q) : M nat :=
  o <- new_optimizer {| o_model := model; o_lr := lr; o_accum := [];
                        o_engine := None |} ;;
  emit (EvNewOptimizer o) ;;
  ret o.

(** Cell 28: [PrivacyEngine(model, batch_size=..., sample_size=..., ...)]. *)
Definition new_privacy_engine {T : Torch} (model : nat)
    (batch_size sample_size : Z) (alphas : list Q)
    (noise_multiplier max_grad_norm : Q) : M PrivacyEngine :=
  emit (EvNewPrivacyEngine model) ;;
  ret {| pe_module := model; pe_batch_size := batch_size;
         pe_sample_size := sample_size; pe_alphas := alphas;
         pe_noise_multiplier := noise_multiplier;
         pe_max_grad_norm := max_grad_norm; pe_steps := 0 |}.

Definition o_with_engine {T : Torch} (e : option PrivacyEngine) (opt : Optimizer) : Optimizer :=
  {| o_model := o_model opt; o_lr := o_lr opt; o_accum := o_accum opt;
     o_engine := e |}.

Definition o_with_accum {T : Torch} (a : list Grad) (opt : Optimizer) : Optimizer :=
  {| o_model := o_model opt; o_lr := o_lr opt; o_accum := a;
     o_engine := o_engine opt |}.

(** [privacy_engine.attach(optimizer)]. *)
Definition attach {T : Torch} (pe : PrivacyEngine) (optimizer : nat) : M unit :=
  emit (EvAttach optimizer) ;;
  set_optimizer optimizer (o_with_engine (Some pe)).

(** [optimizer.zero_grad()]. *)
Definition zero_grad {T : Torch} (optimizer : nat) : M unit :=
  opt <- get_optimizer optimizer ;;
  emit (EvZeroGrad optimizer) ;;
  set_module (o_model opt) (mo_with_grad None).

Definition pending {T : Torch} (opt : Optimizer) (mo : ModuleObj) : list Grad :=
  o_accum opt ++ match m_grad mo with Some g => [g] | None => [] end.

(** [optimizer.step()]: the real step.  With an engine attached the
    accumulated gradients are clipped, averaged and noised, and the
    engine counts one step; then the parameters are updated. *)
Definition step {T : Torch} (optimizer : nat) : M unit :=
  opt <- get_optimizer optimizer ;;
  mo <- get_module (o_model opt) ;;
  emit (EvStep optimizer) ;;
  set_module (o_model opt)
    (mo_with_params (apply_update (o_engine opt) (o_lr opt) (m_params mo) (pending opt mo))) ;;
  set_optimizer optimizer
    (fun opt => o_with_accum [] (o_with_engine (option_map pe_count_step (o_engine opt)) opt)).

(** [optimizer.virtual_step()]: a method the engine adds on attaching;
    it only accumulates the gradients of this batch. *)
Definition virtual_step {T : Torch} (optimizer : nat) : M unit :=
  opt <- get_optimizer optimizer ;;
  match o_engine opt with
  | None => raise (AttributeError "virtual_step")
  | Some _ =>
      mo <- get_module (o_model opt) ;;
      emit (EvVirtualStep optimizer) ;;
      set_optimizer optimizer (o_with_accum (pending opt mo)) ;;
      set_module (o_model opt) (mo_with_grad None)
  end.

(** [optimizer.privacy_engine.get_privacy_spent(delta)]. *)
Definition privacy_spent {T : Torch} (optimizer : nat) (delta : Q) : M (Q * Q) :=
  opt <- get_optimizer optimizer ;;
  match o_engine opt with
  | None => raise (AttributeError "privacy_engine")
  | Some pe => ret (get_privacy_spent pe delta)
  end.

(* ===================================================================== *)
(** ** Cell 31: one training epoch

<<
def train(model, train_loader, optimizer, epoch, device):
    model.train()
    criterion = nn.CrossEntropyLoss()
    losses = []
    top1_acc = []
    for i, (images, target) in enumerate(train_loader):
        optimizer.zero_grad()
        ...
        output = model(images)
        loss = criterion(output, target)
        preds = np.argmax(output.detach().cpu().numpy(), axis=1)
        labels = target.detach().cpu().numpy()
        acc = accuracy(preds, labels)
        losses.append(loss.item())
        top1_acc.append(acc)
        loss.backward()
        if ((i + 1) % virtual_batch_rate == 0) or ((i + 1) == len(train_loader)):
            optimizer.step()
        else:
            optimizer.virtual_step() # take a virtual step
        if i % 200 == 0:
            epsilon, best_alpha = optimizer.privacy_engine.get_privacy_spent(DELTA)
            print(...)
>>
    The global [virtual_batch_rate], read when the function runs, is the
    first argument.  The local lists [losses] and [top1_acc] are the
    state threaded through the loop. *)

Definition Locals : Type := (list Np.float * list Np.float)%type.

Definition train_batch {T : Torch} (virtual_batch_rate : Z)
    (model : nat) (train_loader : DataLoader) (optimizer : nat) (epoch : Z)
    (locals : Locals) (item : Z * list (Image * Z)) : M Locals :=
  let '(losses, top1_acc) := locals in
  let '(i, batch) := item in
  let images := map fst batch in
  let target := map snd batch in
  zero_grad optimizer ;;
  output <- model_call model images ;;
  let loss := cross_entropy output target in
  let preds := map Np.argmax output in
  let labels := target in
  acc <- lift (accuracy preds labels) ;;
  let losses := losses ++ [loss] in
  let top1_acc := top1_acc ++ [acc] in
  loss_backward model batch ;;
  r <- lift (py_mod (i + 1) virtual_batch_rate) ;;
  (if (r =? 0) || (i + 1 =? loader_len train_loader)
   then step optimizer
   else virtual_step optimizer) ;;
  (if i mod 200 =? 0 then
     spent <- privacy_spent optimizer DELTA ;;
     let epsilon := fst spent in
     emit (EvPrint (TrainLine epoch (Np.mean losses)
                              (Np.scale 100 (Np.mean top1_acc)) epsilon DELTA))
   else ret tt) ;;
  ret (losses, top1_acc).

(** The body of [train], returning the final values of its locals. *)
Definition train_loop {T : Torch} (virtual_batch_rate : Z)
    (model : nat) (train_loader : DataLoader) (optimizer : nat) (epoch : Z)
    (device : Device) : M Locals :=
  emit (EvCallTrain epoch) ;;
  model_train model ;;
  batches <- iterate train_loader ;;
  foldM (train_batch virtual_batch_rate model train_loader optimizer epoch)
        ([], []) (enumerate batches).

Definition train {T : Torch} (virtual_batch_rate : Z)
    (model : nat) (train_loader : DataLoader) (optimizer : nat) (epoch : Z)
    (device : Device) : M unit :=
  train_loop virtual_batch_rate model train_loader optimizer epoch device ;;
  ret tt.

(* ===================================================================== *)
(** ** Cell 33: evaluation

<<
def test(model, test_loader, device):
    model.eval()
    criterion = nn.CrossEntropyLoss()
    losses = []
    top1_acc = []
    with torch.no_grad():
        for images, target in test_loader:
            ...
            output = model(images)
            loss = criterion(output, target)
            preds = np.argmax(output.detach().cpu().numpy(), axis=1)
            labels = target.detach().cpu().numpy()
            acc = accuracy(preds, labels)
            losses.append(loss.item())
            top1_acc.append(acc)
    top1_avg = np.mean(top1_acc)
    print(...)
    return np.mean(top1_acc)
>> *)

Definition test_batch {T : Torch} (model : nat)
    (locals : Locals) (batch : list (Image * Z)) : M Locals :=
  let '(losses, top1_acc) := locals in
  let images := map fst batch in
  let target := map snd batch in
  output <- model_call model images ;;
  let loss := cross_entropy output target in
  let preds := map Np.argmax output in
  let labels := target in
  acc <- lift (accuracy preds labels) ;;
  ret (losses ++ [loss], top1_acc ++ [acc]).

Definition test {T : Torch} (model : nat) (test_loader : DataLoader)
    (device : Device) : M Np.float :=
  emit EvCallTest ;;
  model_eval model ;;
  batches <- iterate test_loader ;;
  locals <- foldM (test_batch model) ([], []) batches ;;
  let '(losses, top1_acc) := locals in
  let top1_avg := Np.mean top1_acc in
  emit (EvPrint (TestLine (Np.mean losses) (Np.scale 100 top1_avg))) ;;
  ret (Np.mean top1_acc).

(* ===================================================================== *)
(** ** The notebook, cell by cell *)

(** The names bound by the cells that precede training. *)
Record Globals {T : Torch} : Type := {
  g_train_dataset : list (Image * Z);
  g_train_loader : DataLoader;
  g_test_loader : DataLoader;
  g_model : nat;
  g_device : Device;
  g_optimizer : nat;
  g_privacy_engine : PrivacyEngine;
  g_virtual_batch_rate : Z
}.

(** Cells 12 to 30.  The two datasets are the notebook's input. *)
Definition setup {T : Torch} (cifar10_train cifar10_test : list (Image * Z)) : M Globals :=
  (* cell 12 *)
  let train_dataset := cifar10_train in
  train_loader <- new_loader train_dataset BATCH_SIZE true ;;
  let test_dataset := cifar10_test in
  test_loader <- new_loader test_dataset BATCH_SIZE false ;;
  (* cell 14 *)
  model <- models_resnet18 ;;
  (* cell 17: raises; the traceback is shown and the reader goes on *)
  cell (inspector_validate model) ;;
  (* cell 19 *)
  model <- convert_batchnorm_modules model ;;
  valid <- inspector_validate model ;;
  emit (EvPrint (ValidLine valid)) ;;
  (* cell 21 *)
  let device := if cuda_is_available then Cuda else Cpu in
  model <- model_to model device ;;
  (* cell 23 *)
  optimizer <- optim_RMSprop model LR ;;
  (* cell 28 *)
  emit (EvPrint (SigmaLine NOISE_MULTIPLIER MAX_GRAD_NORM)) ;;
  privacy_engine <- new_privacy_engine model VIRTUAL_BATCH_SIZE
                      (Z.of_nat (List.length train_dataset)) alphas
                      NOISE_MULTIPLIER MAX_GRAD_NORM ;;
  attach privacy_engine optimizer ;;
  (* cell 30 *)
  virtual_batch_rate <- lift (cell_30 VIRTUAL_BATCH_SIZE BATCH_SIZE) ;;
  ret {| g_train_dataset := train_dataset;
         g_train_loader := train_loader; g_test_loader := test_loader;
         g_model := model; g_device := device; g_optimizer := optimizer;
         g_privacy_engine := privacy_engine;
         g_virtual_batch_rate := virtual_batch_rate |}.

(** Cell 35: [for epoch in tqdm_notebook(range(20), ...): train(..., epoch + 1, device)]. *)
Definition training {T : Torch} (g : Globals) : M unit :=
  foldM (fun (_ : unit) (epoch : Z) =>
           train (g_virtual_batch_rate g) (g_model g) (g_train_loader g)
                 (g_optimizer g) (epoch + 1) (g_device g))
        tt (py_range 0 20).

(** Cell 37: [top1_acc = test(model, test_loader, device)]. *)
Definition evaluation {T : Torch} (g : Globals) : M Np.float :=
  test (g_model g) (g_test_loader g) (g_device g).

Definition notebook {T : Torch} (cifar10_train cifar10_test : list (Image * Z)) : M Np.float :=
  g <- setup cifar10_train cifar10_test ;;
  training g ;;
  evaluation g.

(* ===================================================================== *)
(** ** A small concrete framework

    Images are integers, a positive image is scored for class 1 and any
    other for class 0; the parameters count the updates made; the
    accountant reports the number of steps as the spent budget; a
    shuffling pass reverses the dataset. *)

#[refine]
Instance toy_torch : Torch := {|
  Image := Z;
  Params := Z;
  Grad := nat;
  init_params := fun _ => 0;
  forward := fun _ _ img => [0%Q; inject_Z img];
  cross_entropy := fun output _ => Np.Fin (inject_Z (Z.of_nat (List.length output)));
  autograd := fun _ _ batch => List.length batch;
  apply_update := fun _ _ p _ => p + 1;
  get_privacy_spent := fun pe _ => (inject_Z (pe_steps pe), 2%Q);
  cuda_is_available := false;
  shuffled := fun _ l => rev l
|}.
Proof.
  intros _ l. apply length_rev.
Defined.

(* ===================================================================== *)
(** ** Vocabulary of the statements *)

(** The events a computation added to the trace. *)
Definition new_events {T : Torch} (w w' : World) : list Event :=
  skipn (List.length (w_trace w)) (w_trace w').

Definition is_optimizer_call (e : Event) : bool :=
  match e with
  | EvStep _ | EvVirtualStep _ => true
  | _ => false
  end.

Definition optimizer_calls (tr : list Event) : list Event :=
  filter is_optimizer_call tr.

Definition is_call (e : Event) : bool :=
  match e with
  | EvCallTrain _ | EvCallTest => true
  | _ => false
  end.

Definition calls (tr : list Event) : list Event := filter is_call tr.

(** Standard output. *)
Definition lines (tr : list Event) : list Line :=
  flat_map (fun e => match e with EvPrint l => [l] | _ => [] end) tr.

(** The exceptions displayed. *)
Definition errors (tr : list Event) : list Exn :=
  flat_map (fun e => match e with EvError x => [x] | _ => [] end) tr.

(** The events of processing one training batch. *)
Definition is_batch_event (e : Event) : bool :=
  match e with
  | EvZeroGrad _ | EvForward _ _ | EvBackward _ | EvStep _ | EvVirtualStep _ => true
  | _ => false
  end.

(** The condition of [train] for a real step on batch [i] of [n]. *)
Definition real_step (rate n : Z) (i : nat) : bool :=
  ((Z.of_nat i + 1) mod rate =? 0) || (Z.of_nat i + 1 =? n).

(** The number of real steps among the first [k] batches. *)
Definition count_real (rate n : Z) (k : nat) : nat :=
  List.length (filter (real_step rate n) (seq 0 k)).

(** The model is a live module, the optimizer a live optimizer over
    that module's parameters, and a privacy engine is attached to it. *)
Definition ready {T : Torch} (w : World) (model optimizer : nat) : bool :=
  match nth_error (w_modules w) model, nth_error (w_optimizers w) optimizer with
  | Some _, Some opt =>
      Nat.eqb (o_model opt) model
      && match o_engine opt with Some _ => true | None => false end
  | _, _ => false
  end.

Definition arch_of {T : Torch} (w : World) (model : nat) : option Nn.Module :=
  option_map m_arch (nth_error (w_modules w) model).

Definition engine_of {T : Torch} (w : World) (optimizer : nat) : option PrivacyEngine :=
  match nth_error (w_optimizers w) optimizer with
  | Some opt => o_engine opt
  | None => None
  end.

(** The events of batch [i] of an epoch: the four framework calls, and
    the report line when one is due.  [losses] and [accs] are the lists
    the epoch ends with, [pe0] the engine the epoch starts with. *)
Definition batch_block {T : Torch} (rate n : Z) (model optimizer : nat)
    (arch : Nn.Module) (epoch : Z) (pe0 : PrivacyEngine)
    (losses accs : list Np.float) (i : nat) : list Event :=
  [ EvZeroGrad optimizer; EvForward model arch; EvBackward model;
    if real_step rate n i then EvStep optimizer else EvVirtualStep optimizer ]
  ++ (if Z.of_nat i mod 200 =? 0
      then [ EvPrint
               (TrainLine epoch
                  (Np.mean (firstn (S i) losses))
                  (Np.scale 100 (Np.mean (firstn (S i) accs)))
                  (fst (get_privacy_spent
                          (Nat.iter (count_real rate n (S i)) pe_count_step pe0)
                          DELTA))
                  DELTA) ]
      else []).

(** The accuracy of the model on one batch, and on a whole dataset
    taken sample by sample. *)
Definition batch_accuracy {T : Torch} (arch : Nn.Module) (params : Params)
    (batch : list (Image * Z)) : Np.float :=
  Np.mean_bool
    (Np.zip_eqb (map Np.argmax (map (forward arch params) (map fst batch)))
                (map snd batch)).

Definition sample_accuracy {T : Torch} (arch : Nn.Module) (params : Params)
    (dataset : list (Image * Z)) : Np.float :=
  batch_accuracy arch params dataset.

(** The text of the exception recorded under cell 17. *)
Definition recorded_message : string :=
  ("Model contains incompatible modules." ++ Nn.newline
   ++ "Some modules are not valid.: ['Main.bn1', 'Main.layer1.0.bn1', 'Main.layer1.0.bn2', 'Main.layer1.1.bn1', 'Main.layer1.1.bn2', 'Main.layer2.0.bn1', 'Main.layer2.0.bn2', 'Main.layer2.0.downsample.1', 'Main.layer2.1.bn1', 'Main.layer2.1.bn2', 'Main.layer3.0.bn1', 'Main.layer3.0.bn2', 'Main.layer3.0.downsample.1', 'Main.layer3.1.bn1', 'Main.layer3.1.bn2', 'Main.layer4.0.bn1', 'Main.layer4.0.bn2', 'Main.layer4.0.downsample.1', 'Main.layer4.1.bn1', 'Main.layer4.1.bn2']")%string.

(** The model object holds graph [arch]; the optimizer works on the
    parameters of that model and has engine [pe] attached. *)
Definition linked {T : Torch} (w : World) (model optimizer : nat)
    (arch : Nn.Module) (pe : PrivacyEngine) : Prop :=
  exists mo opt,
    nth_error (w_modules w) model = Some mo /\ m_arch mo = arch /\
    nth_error (w_optimizers w) optimizer = Some opt /\
    o_model opt = model /\ o_engine opt = Some pe.

(** The model object holds graph [arch] with parameters [params]. *)
Definition holds {T : Torch} (w : World) (model : nat)
    (arch : Nn.Module) (params : Params) : Prop :=
  exists mo,
    nth_error (w_modules w) model = Some mo /\
    m_arch mo = arch /\ m_params mo = params.

(** A small dataset, a loader over it in batches of two, and the world
    the cells before training leave behind on it. *)
Definition toy_dataset : list (Z * Z) := [(1, 1); (0, 1); (1, 0); (0, 0); (1, 1)].

Definition toy_loader : @DataLoader toy_torch :=
  {| dl_dataset := toy_dataset; dl_batch_size := 2; dl_shuffle := true |}.

Definition toy_world : @World toy_torch :=
  snd (setup (T := toy_torch) toy_dataset toy_dataset empty_world).

(** The batches one pass over a loader yields when the shuffling seed
    is [seed]. *)
Definition batches_at {T : Torch} (dl : DataLoader) (seed : nat) : list (list (Image * Z)) :=
  chunks (Z.to_nat (dl_batch_size dl))
         (if dl_shuffle dl then shuffled seed (dl_dataset dl) else dl_dataset dl).

(** What the cells before training leave behind. *)
Definition notebook_device {T : Torch} : Device :=
  if cuda_is_available then Cuda else Cpu.

Definition notebook_engine {T : Torch} (cifar10_train : list (Image * Z)) : PrivacyEngine :=
  {| pe_module := 0;
     pe_batch_size := VIRTUAL_BATCH_SIZE;
     pe_sample_size := Z.of_nat (List.length cifar10_train);
     pe_alphas := alphas;
     pe_noise_multiplier := NOISE_MULTIPLIER;
     pe_max_grad_norm := MAX_GRAD_NORM;
     pe_steps := 0 |}.

Definition setup_globals {T : Torch} (cifar10_train cifar10_test : list (Image * Z)) : Globals :=
  {| g_train_dataset := cifar10_train;
     g_train_loader := {| dl_dataset := cifar10_train; dl_batch_size := BATCH_SIZE;
                          dl_shuffle := true |};
     g_test_loader := {| dl_dataset := cifar10_test; dl_batch_size := BATCH_SIZE;
                         dl_shuffle := false |};
     g_model := 0;
     g_device := notebook_device;
     g_optimizer := 0;
     g_privacy_engine := notebook_engine cifar10_train;
     g_virtual_batch_rate := 4 |}.

Definition setup_trace {T : Torch} : list Event :=
  [ EvNewModel 0; EvValidate 0;
    EvError (IncompatibleModuleException recorded_message);
    EvConvert 0; EvValidate 0; EvPrint (ValidLine true);
    EvToDevice 0 notebook_device;
    EvNewOptimizer 0;
    EvPrint (SigmaLine NOISE_MULTIPLIER MAX_GRAD_NORM);
    EvNewPrivacyEngine 0; EvAttach 0 ].

Definition setup_world {T : Torch} (cifar10_train : list (Image * Z)) : World :=
  {| w_modules := [ {| m_arch := Nn.replace_batchnorm Nn.resnet18;
                       m_params := init_params Nn.resnet18;
                       m_grad := None; m_training := true;
                       m_device := notebook_device |} ];
     w_optimizers := [ {| o_model := 0; o_lr := LR; o_accum := [];
                          o_engine := Some (notebook_engine cifar10_train) |} ];
     w_rng := 0;
     w_trace := setup_trace |}.

(** The events of one call of [train] for epoch number [epoch] over [n]
    batches, for some engine state and some final [losses] and
    [top1_acc]. *)
Definition epoch_trace {T : Torch} (rate n : Z) (model optimizer : nat)
    (arch : Nn.Module) (epoch : Z) (evs : list Event) : Prop :=
  exists pe losses accs,
    List.length losses = Z.to_nat n /\ List.length accs = Z.to_nat n /\
    evs = EvCallTrain epoch :: EvModelTrain model
          :: List.concat (map (batch_block rate n model optimizer arch epoch pe losses accs)
                              (seq 0 (Z.to_nat n))).

(** The number of batches of a training epoch of the notebook, the
    graph of the model after cell 19, and the number of real steps in
    one epoch. *)
Definition train_batches {T : Torch} (cifar10_train : list (Image * Z)) : Z :=
  loader_len {| dl_dataset := cifar10_train; dl_batch_size := BATCH_SIZE;
                dl_shuffle := true |}.

Definition converted_resnet18 : Nn.Module := Nn.replace_batchnorm Nn.resnet18.

Definition steps_per_epoch {T : Torch} (cifar10_train : list (Image * Z)) : nat :=
  count_real 4 (train_batches cifar10_train) (Z.to_nat (train_batches cifar10_train)).

(** The loss of the model on one batch. *)
Definition batch_loss {T : Torch} (arch : Nn.Module) (params : Params)
    (batch : list (Image * Z)) : Np.float :=
  cross_entropy (map (forward arch params) (map fst batch)) (map snd batch).

(** A forward pass, if the event is one, ran on module [model] holding
    graph [arch]. *)
Definition forward_on (model : nat) (arch : Nn.Module) (e : Event) : Prop :=
  match e with
  | EvForward m a => m = model /\ a = arch
  | _ => True
  end.

(** What the rewriting does to one layer type. *)
Definition substituted (k : Nn.LayerKind) : Nn.LayerKind :=
  if Nn.is_batchnorm k then Nn.GroupNorm else k.

(** The report line due on batch [i] of an epoch (see [batch_block]). *)
Definition report_line {T : Torch} (rate n : Z) (epoch : Z) (pe0 : PrivacyEngine)
    (losses accs : list Np.float) (i : nat) : Line :=
  TrainLine epoch
    (Np.mean (firstn (S i) losses))
    (Np.scale 100 (Np.mean (firstn (S i) accs)))
    (fst (get_privacy_spent (Nat.iter (count_real rate n (S i)) pe_count_step pe0) DELTA))
    DELTA.

Definition reports (i : nat) : bool := Z.of_nat i mod 200 =? 0.

(** A line of the training report of epoch [epoch]. *)
Definition train_line_of (epoch : Z) (l : Line) : Prop :=
  exists loss acc epsilon, l = TrainLine epoch loss acc epsilon DELTA.

Definition is_train_line (l : Line) : bool :=
  match l with
  | TrainLine _ _ _ _ _ => true
  | _ => false
  end.

(** Vocabulary for the accuracy of a model over batches: whether the
    model classifies a sample as labelled, how many samples of a batch
    it does, that number over the size of the batch, and the sizes of
    the batches a loader makes of [count] samples. *)
Definition hit {T : Torch} (arch : Nn.Module) (params : Params) (s : Image * Z) : bool :=
  Np.argmax (forward arch params (fst s)) =? snd s.

Definition correct {T : Torch} (arch : Nn.Module) (params : Params)
    (batch : list (Image * Z)) : nat :=
  List.length (filter (hit arch params) batch).

Definition ratio {T : Torch} (arch : Nn.Module) (params : Params)
    (batch : list (Image * Z)) : Q :=
  inject_Z (Z.of_nat (correct arch params batch))
  / inject_Z (Z.of_nat (List.length batch)).

Fixpoint Qsum (l : list Q) : Q :=
  match l with
  | [] => 0
  | q :: l' => q + Qsum l'
  end.

Definition batch_sizes (size count : nat) : list nat :=
  map (@List.length unit) (chunks size (List.repeat tt count)).

(** A natural number as a rational. *)
Definition QN (k : nat) : Q := inject_Z (Z.of_nat k).

(** For the concrete framework: one sample it classifies as labelled,
    followed by samples it does not. *)
Definition spike_dataset (count : nat) : list (Z * Z) :=
  (1, 1) :: List.repeat (0, 1) (count - 1).

(** The size of the CIFAR10 test set. *)
Definition cifar10_test_size : nat := Z.to_nat 10000.

(** The number of batches whose gradients the optimizer holds from
    virtual steps, waiting for the next real step. *)
Definition accum_len {T : Torch} (w : World) (optimizer : nat) : nat :=
  match nth_error (w_optimizers w) optimizer with
  | Some opt => List.length (o_accum opt)
  | None => O
  end.

(** The epoch number a training line reports (0 for the other lines). *)
Definition line_epoch (l : Line) : Z :=
  match l with
  | TrainLine epoch _ _ _ _ => epoch
  | _ => 0
  end.

(** The size of the CIFAR10 training set. *)
Definition cifar10_train_size : nat := Z.to_nat 50000.

(** The model and the optimizer are live and belong together, but no
    privacy engine has been attached to the optimizer. *)
Definition unattached {T : Torch} (w : World) (model optimizer : nat) : bool :=
  match nth_error (w_modules w) model, nth_error (w_optimizers w) optimizer with
  | Some _, Some opt =>
      Nat.eqb (o_model opt) model
      && match o_engine opt with Some _ => false | None => true end
  | _, _ => false
  end.

Definition bare {T : Torch} (w : World) (model optimizer : nat) (arch : Nn.Module) : Prop :=
  exists mo opt,
    nth_error (w_modules w) model = Some mo /\ m_arch mo = arch /\
    nth_error (w_optimizers w) optimizer = Some opt /\
    o_model opt = model /\ o_engine opt = None.

(** [linked], naming the parameters the model holds as well. *)
Definition linked_at {T : Torch} (w : World) (model optimizer : nat)
    (arch : Nn.Module) (pe : PrivacyEngine) (params : Params) : Prop :=
  exists mo opt,
    nth_error (w_modules w) model = Some mo /\ m_arch mo = arch /\
    m_params mo = params /\
    nth_error (w_optimizers w) optimizer = Some opt /\
    o_model opt = model /\ o_engine opt = Some pe.

(** What [train] does before its loop: [model.train()] and the start of
    a pass over the loader. *)
Definition train_enter {T : Torch} (model : nat) (train_loader : DataLoader)
    (epoch : Z) : M (list (list (Image * Z))) :=
  emit (EvCallTrain epoch) ;;
  model_train model ;;
  iterate train_loader.

(** The calls of [train] the driver makes, one after the other: the
    call for [epoch + 1] starts in the world the previous call left,
    with the optimizer ready, returns, and adds [evs] to the trace;
    [w_end] is the world after the last call. *)
Fixpoint epochs_from {T : Torch} (rate : Z) (model : nat) (train_loader : DataLoader)
    (optimizer : nat) (device : Device) (arch : Nn.Module)
    (epochs : list Z) (w : World) (segments : list (list Event)) (w_end : World) : Prop :=
  match epochs, segments with
  | [], [] => w_end = w
  | epoch :: epochs', evs :: segments' =>
      exists w1 pe losses accs,
        ready w model optimizer = true /\
        arch_of w model = Some arch /\
        engine_of w optimizer = Some pe /\
        train_loop rate model train_loader optimizer (epoch + 1) device w
        = (inr (losses, accs), w1) /\
        train rate model train_loader optimizer (epoch + 1) device w = (inr tt, w1) /\
        evs = EvCallTrain (epoch + 1) :: EvModelTrain model
              :: List.concat
                   (map (batch_block rate (loader_len train_loader) model optimizer arch
                                     (epoch + 1) pe losses accs)
                        (seq 0 (Z.to_nat (loader_len train_loader)))) /\
        w_trace w1 = w_trace w ++ evs /\
        epochs_from rate model train_loader optimizer device arch epochs' w1 segments' w_end
  | _, _ => False
  end.

(* ===================================================================== *)
(** * Properties *)

(** ** Lists *)

Lemma list_update_length {A : Type} (l : list A) (i : nat) (f : A -> A) :
  List.length (list_update l i f) = List.length l.
Proof.
  revert i; induction l as [|x l IH]; intros [|i]; simpl; auto.
Qed.

Lemma nth_error_list_update_eq {A : Type} (l : list A) (i : nat) (f : A -> A) :
  nth_error (list_update l i f) i = option_map f (nth_error l i).
Proof.
  revert i; induction l as [|x l IH]; intros [|i]; simpl; auto.
Qed.

Lemma nth_error_list_update_neq {A : Type} (l : list A) (i j : nat) (f : A -> A) :
  i <> j -> nth_error (list_update l i f) j = nth_error l j.
Proof.
  revert i j; induction l as [|x l IH]; intros [|i] [|j] H; simpl; auto.
  - congruence.
Qed.

Lemma enumerate_from_app {A : Type} (l1 l2 : list A) (i : Z) :
  enumerate_from i (l1 ++ l2)
  = enumerate_from i l1 ++ enumerate_from (i + Z.of_nat (List.length l1)) l2.
Proof.
  revert i; induction l1 as [|x l1 IH]; intros i; simpl.
  - now rewrite Z.add_0_r.
  - rewrite IH. do 3 f_equal. lia.
Qed.

(** ** Batching *)

Lemma chunks_fuel_length {A : Type} (size : nat) :
  (0 < size)%nat ->
  forall (fuel : nat) (l : list A),
    (List.length l <= fuel)%nat ->
    List.length (chunks_fuel fuel size l)
    = ((List.length l + size - 1) / size)%nat.
Proof.
  intros Hs. induction fuel as [|fuel IH]; intros l Hl.
  - destruct l; simpl in *; [|lia].
    symmetry. apply Nat.div_small. lia.
  - destruct l as [|x l].
    + simpl. symmetry. apply Nat.div_small. lia.
    + cbn [chunks_fuel List.length]. rewrite IH.
      2:{ rewrite length_skipn. cbn [List.length] in *. lia. }
      rewrite length_skipn. cbn [List.length].
      destruct (Nat.le_gt_cases size (S (List.length l))) as [Hle|Hgt].
      * replace (S (List.length l) + size - 1)%nat
          with ((S (List.length l) - size + size - 1) + 1 * size)%nat by lia.
        rewrite Nat.div_add by lia. lia.
      * replace (S (List.length l) - size)%nat with O by lia.
        rewrite (Nat.div_small (0 + size - 1)) by lia.
        apply Nat.div_unique with (r := List.length l); lia.
Qed.

Lemma chunks_length {T : Torch} (dl : DataLoader) (ds : list (Image * Z)) :
  0 < dl_batch_size dl ->
  List.length ds = List.length (dl_dataset dl) ->
  Z.of_nat (List.length (chunks (Z.to_nat (dl_batch_size dl)) ds)) = loader_len dl.
Proof.
  intros Hb Hlen. unfold chunks, loader_len.
  rewrite chunks_fuel_length by lia. rewrite Hlen.
  set (n := List.length (dl_dataset dl)).
  rewrite Nat2Z.inj_div. f_equal; lia.
Qed.

(** ** The monad *)

Lemma bind_inr {T : Torch} {A B : Type} (c : M A) (k : A -> M B) w a w1 :
  c w = (inr a, w1) -> bind c k w = k a w1.
Proof. intros E. unfold bind. now rewrite E. Qed.

Lemma bind_ret {T : Torch} {A B : Type} (a : A) (k : A -> M B) w :
  bind (ret a) k w = k a w.
Proof. reflexivity. Qed.

Lemma bind_inl {T : Torch} {A B : Type} (c : M A) (k : A -> M B) w e w1 :
  c w = (inl e, w1) -> bind c k w = (inl e, w1).
Proof. intros E. unfold bind. now rewrite E. Qed.

Lemma foldM_app {T : Torch} {S A : Type} (body : S -> A -> M S) (l1 l2 : list A) :
  forall s w, foldM body s (l1 ++ l2) w
              = bind (foldM body s l1) (fun s' => foldM body s' l2) w.
Proof.
  induction l1 as [|x l1 IH]; intros s w; simpl.
  - reflexivity.
  - unfold bind. destruct (body s x w) as [[e|s1] w1]; auto.
Qed.

Lemma ready_linked {T : Torch} (w : World) (model optimizer : nat) :
  ready w model optimizer = true ->
  exists arch pe, linked w model optimizer arch pe.
Proof.
  unfold ready, linked.
  destruct (nth_error (w_modules w) model) as [mo|] eqn:Em; [|discriminate].
  destruct (nth_error (w_optimizers w) optimizer) as [opt|] eqn:Eo; [|discriminate].
  destruct (o_engine opt) as [pe|] eqn:Ee; rewrite ?andb_false_r; [|discriminate].
  rewrite andb_true_r, Nat.eqb_eq. intros Hm.
  exists (m_arch mo), pe, mo, opt. auto.
Qed.

Lemma linked_ready {T : Torch} (w : World) (model optimizer : nat) arch pe :
  linked w model optimizer arch pe -> ready w model optimizer = true.
Proof.
  intros (mo & opt & Hm & _ & Ho & Hom & He). unfold ready.
  rewrite Hm, Ho, He, Hom, Nat.eqb_refl. reflexivity.
Qed.

(** ** The framework calls, one by one

    Each call succeeds in a linked world, keeps it linked, and adds its
    own event to the trace. *)

Section Calls.
Context {T : Torch}.
Variables (model optimizer : nat) (arch : Nn.Module).

Lemma emit_run (e : Event) (w : World) :
  exists w', emit e w = (inr tt, w') /\
             w_modules w' = w_modules w /\ w_optimizers w' = w_optimizers w /\
             w_rng w' = w_rng w /\
             w_trace w' = w_trace w ++ [e].
Proof. eexists; split; [reflexivity|]. simpl. auto. Qed.

Lemma emit_linked (e : Event) (w : World) pe :
  linked w model optimizer arch pe ->
  exists w', emit e w = (inr tt, w') /\ linked w' model optimizer arch pe /\
             w_trace w' = w_trace w ++ [e].
Proof. intros L. eexists; split; [reflexivity|]. split; [exact L|reflexivity]. Qed.

Lemma zero_grad_run (w : World) pe :
  linked w model optimizer arch pe ->
  exists w', zero_grad optimizer w = (inr tt, w') /\
             linked w' model optimizer arch pe /\
             w_trace w' = w_trace w ++ [EvZeroGrad optimizer].
Proof.
  intros (mo & opt & Hm & Ha & Ho & Hom & He).
  unfold zero_grad, bind, get_optimizer. rewrite Ho. cbn.
  eexists; split; [reflexivity|]. split; [|reflexivity].
  exists (mo_with_grad None mo), opt. cbn.
  rewrite Hom, nth_error_list_update_eq, Hm. auto.
Qed.

Lemma model_call_run (w : World) pe (images : list Image) :
  linked w model optimizer arch pe ->
  exists w' out, model_call model images w = (inr out, w') /\
             List.length out = List.length images /\
             linked w' model optimizer arch pe /\
             w_trace w' = w_trace w ++ [EvForward model arch].
Proof.
  intros (mo & opt & Hm & Ha & Ho & Hom & He).
  unfold model_call, bind, get_module. rewrite Hm. cbn.
  do 2 eexists; split; [reflexivity|]. split; [apply length_map|].
  split; [|now rewrite Ha].
  exists mo, opt. cbn. auto.
Qed.

Lemma loss_backward_run (w : World) pe (batch : list (Image * Z)) :
  linked w model optimizer arch pe ->
  exists w', loss_backward model batch w = (inr tt, w') /\
             linked w' model optimizer arch pe /\
             w_trace w' = w_trace w ++ [EvBackward model].
Proof.
  intros (mo & opt & Hm & Ha & Ho & Hom & He).
  unfold loss_backward, bind, get_module. rewrite Hm. cbn.
  eexists; split; [reflexivity|]. split; [|reflexivity].
  eexists _, opt. cbn. rewrite nth_error_list_update_eq, Hm. cbn. auto.
Qed.

Lemma step_run (w : World) pe :
  linked w model optimizer arch pe ->
  exists w', step optimizer w = (inr tt, w') /\
             linked w' model optimizer arch (pe_count_step pe) /\
             w_trace w' = w_trace w ++ [EvStep optimizer].
Proof.
  intros (mo & opt & Hm & Ha & Ho & Hom & He).
  unfold step, bind, get_optimizer, get_module. rewrite Ho. cbn.
  rewrite Hom, Hm. cbn.
  eexists; split; [reflexivity|]. split; [|reflexivity].
  eexists _, _. cbn.
  rewrite !nth_error_list_update_eq, Hm, Ho. cbn.
  rewrite He. cbn. auto.
Qed.

Lemma virtual_step_run (w : World) pe :
  linked w model optimizer arch pe ->
  exists w', virtual_step optimizer w = (inr tt, w') /\
             linked w' model optimizer arch pe /\
             w_trace w' = w_trace w ++ [EvVirtualStep optimizer].
Proof.
  intros (mo & opt & Hm & Ha & Ho & Hom & He).
  unfold virtual_step, bind, get_optimizer, get_module. rewrite Ho. cbn.
  rewrite He. rewrite Hom, Hm. cbn.
  eexists; split; [reflexivity|]. split; [|reflexivity].
  exists (mo_with_grad None mo), (o_with_accum (pending opt mo) opt). cbn.
  rewrite Hom, !nth_error_list_update_eq, Hm, Ho. cbn. auto.
Qed.

Lemma privacy_spent_run (w : World) pe (delta : Q) :
  linked w model optimizer arch pe ->
  privacy_spent optimizer delta w = (inr (get_privacy_spent pe delta), w).
Proof.
  intros (mo & opt & Hm & Ha & Ho & Hom & He).
  unfold privacy_spent, bind, get_optimizer. rewrite Ho, He. reflexivity.
Qed.

Lemma model_train_run (w : World) pe :
  linked w model optimizer arch pe ->
  exists w', model_train model w = (inr tt, w') /\
             linked w' model optimizer arch pe /\
             w_rng w' = w_rng w /\
             w_trace w' = w_trace w ++ [EvModelTrain model].
Proof.
  intros (mo & opt & Hm & Ha & Ho & Hom & He).
  unfold model_train, bind. cbn.
  eexists; split; [reflexivity|]. split; [|split; reflexivity].
  eexists _, opt. cbn. rewrite nth_error_list_update_eq, Hm. cbn. auto.
Qed.

End Calls.

(** ** The accuracy helper on arrays of one length *)

Lemma accuracy_same_length (preds labels : list Z) :
  List.length preds = List.length labels ->
  accuracy preds labels = inr (Np.mean_bool (Np.zip_eqb preds labels)).
Proof.
  intros H. unfold accuracy, Np.array_eq.
  rewrite H, Nat.eqb_refl. reflexivity.
Qed.

Lemma count_real_S (rate n : Z) (k : nat) :
  count_real rate n (S k)
  = (count_real rate n k + if real_step rate n k then 1 else 0)%nat.
Proof.
  unfold count_real. rewrite seq_S, filter_app, length_app. simpl.
  destruct (real_step rate n k); reflexivity.
Qed.

(** ** One epoch of training *)

Section Train.
Context {T : Torch}.
Variables (rate : Z) (model : nat) (train_loader : DataLoader)
          (optimizer : nat) (epoch : Z) (arch : Nn.Module).
Hypothesis rate_nonzero : rate <> 0.

Let n : Z := loader_len train_loader.

Lemma train_batch_run (w : World) (pe : PrivacyEngine)
      (losses accs : list Np.float) (i : nat) (batch : list (Image * Z)) :
  linked w model optimizer arch pe ->
  exists w' loss acc,
    train_batch rate model train_loader optimizer epoch
                (losses, accs) (Z.of_nat i, batch) w
    = (inr (losses ++ [loss], accs ++ [acc]), w') /\
    let pe' := if real_step rate n i then pe_count_step pe else pe in
    linked w' model optimizer arch pe' /\
    w_trace w'
    = w_trace w
      ++ [ EvZeroGrad optimizer; EvForward model arch; EvBackward model;
           if real_step rate n i then EvStep optimizer else EvVirtualStep optimizer ]
      ++ (if Z.of_nat i mod 200 =? 0
          then [ EvPrint (TrainLine epoch (Np.mean (losses ++ [loss]))
                            (Np.scale 100 (Np.mean (accs ++ [acc])))
                            (fst (get_privacy_spent pe' DELTA)) DELTA) ]
          else []).
Proof.
  intros L0. unfold train_batch.
  destruct (zero_grad_run model optimizer arch w pe L0) as (w1 & E1 & L1 & T1).
  rewrite (bind_inr _ _ _ _ _ E1).
  destruct (model_call_run model optimizer arch w1 pe (map fst batch) L1)
    as (w2 & out & E2 & Hout & L2 & T2).
  rewrite (bind_inr _ _ _ _ _ E2).
  rewrite accuracy_same_length by (now rewrite !length_map in * ).
  cbn [lift]. rewrite bind_ret.
  destruct (loss_backward_run model optimizer arch w2 pe batch L2) as (w3 & E3 & L3 & T3).
  rewrite (bind_inr _ _ _ _ _ E3).
  unfold py_mod. destruct (rate =? 0) eqn:Er; [apply Z.eqb_eq in Er; contradiction|].
  cbn [lift]. rewrite bind_ret.
  fold n. change (((Z.of_nat i + 1) mod rate =? 0) || (Z.of_nat i + 1 =? n))
    with (real_step rate n i).
  set (pe' := if real_step rate n i then pe_count_step pe else pe).
  assert (exists w4,
             (if real_step rate n i then step optimizer else virtual_step optimizer) w3
             = (inr tt, w4) /\
             linked w4 model optimizer arch pe' /\
             w_trace w4 = w_trace w3
                          ++ [if real_step rate n i then EvStep optimizer
                              else EvVirtualStep optimizer]) as (w4 & E4 & L4 & T4).
  { subst pe'. destruct (real_step rate n i).
    - apply step_run; assumption.
    - apply virtual_step_run; assumption. }
  rewrite (bind_inr _ _ _ _ _ E4).
  destruct (Z.of_nat i mod 200 =? 0).
  - rewrite (bind_inr _ _ _ _ _
               (bind_inr _ _ _ _ _ (privacy_spent_run model optimizer arch w4 pe' DELTA L4))).
    eexists _, _, _. split; [reflexivity|]. split; [exact L4|].
    cbn [w_trace]. rewrite T4, T3, T2, T1. rewrite <- !app_assoc. reflexivity.
  - rewrite bind_ret.
    eexists _, _, _. split; [reflexivity|]. split; [exact L4|].
    rewrite T4, T3, T2, T1. rewrite <- !app_assoc. reflexivity.
Qed.

Lemma train_batches_run (pe0 : PrivacyEngine) (batches : list (list (Image * Z))) :
  forall (k : nat) (losses accs : list Np.float) (w : World),
    List.length losses = k -> List.length accs = k ->
    linked w model optimizer arch (Nat.iter (count_real rate n k) pe_count_step pe0) ->
    exists losses' accs' w',
      foldM (train_batch rate model train_loader optimizer epoch)
            (losses, accs) (enumerate_from (Z.of_nat k) batches) w
      = (inr (losses', accs'), w') /\
      firstn k losses' = losses /\ firstn k accs' = accs /\
      List.length losses' = (k + List.length batches)%nat /\
      List.length accs' = (k + List.length batches)%nat /\
      linked w' model optimizer arch
             (Nat.iter (count_real rate n (k + List.length batches)) pe_count_step pe0) /\
      w_trace w'
      = w_trace w
        ++ List.concat (map (batch_block rate n model optimizer arch epoch pe0 losses' accs')
                       (seq k (List.length batches))).
Proof.
  induction batches as [|batch batches IH]; intros k losses accs w Hl Ha L.
  - exists losses, accs, w. cbn. rewrite Nat.add_0_r, app_nil_r.
    repeat split; auto.
    + rewrite <- Hl. apply firstn_all.
    + rewrite <- Ha. apply firstn_all.
  - cbn [enumerate_from foldM].
    destruct (train_batch_run w _ losses accs k batch L)
      as (w1 & loss & acc & E1 & L1 & T1).
    rewrite (bind_inr _ _ _ _ _ E1).
    replace (Z.of_nat k + 1) with (Z.of_nat (S k)) by lia.
    destruct (IH (S k) (losses ++ [loss]) (accs ++ [acc]) w1)
      as (losses' & accs' & w' & E & Fl & Fa & Ll & La & L' & T').
    + rewrite length_app; simpl; lia.
    + rewrite length_app; simpl; lia.
    + rewrite count_real_S. cbv zeta in L1.
      destruct (real_step rate n k).
      * rewrite Nat.add_1_r. exact L1.
      * rewrite Nat.add_0_r. exact L1.
    + exists losses', accs', w'. split; [exact E|].
      assert (Hfl : firstn k losses' = losses).
      { replace k with (Nat.min k (S k)) at 1 by lia.
        rewrite <- firstn_firstn, Fl, firstn_app, Hl, Nat.sub_diag.
        simpl. rewrite app_nil_r, <- Hl. apply firstn_all. }
      assert (Hfa : firstn k accs' = accs).
      { replace k with (Nat.min k (S k)) at 1 by lia.
        rewrite <- firstn_firstn, Fa, firstn_app, Ha, Nat.sub_diag.
        simpl. rewrite app_nil_r, <- Ha. apply firstn_all. }
      cbn [List.length]. rewrite <- !plus_n_Sm.
      repeat split; auto.
      rewrite T', T1. cbn [seq map List.concat]. rewrite <- app_assoc. f_equal.
      f_equal. unfold batch_block. cbv zeta. rewrite Fl, Fa.
      rewrite count_real_S.
      destruct (real_step rate n k); rewrite ?Nat.add_1_r, ?Nat.add_0_r; reflexivity.
Qed.

Lemma iterate_run (dl : DataLoader) (w : World) :
  0 < dl_batch_size dl ->
  exists batches w',
    iterate dl w = (inr batches, w') /\
    Z.of_nat (List.length batches) = loader_len dl /\
    w_modules w' = w_modules w /\ w_optimizers w' = w_optimizers w /\
    w_trace w' = w_trace w.
Proof.
  intros Hb. unfold iterate. destruct (dl_shuffle dl).
  - eexists _, _. split; [reflexivity|]. cbn.
    split; [|auto]. apply chunks_length; [assumption|apply shuffled_length].
  - eexists _, _. split; [reflexivity|]. cbn.
    split; [|auto]. apply chunks_length; auto.
Qed.

Lemma train_loop_run (device : Device) (w : World) (pe : PrivacyEngine) :
  0 < dl_batch_size train_loader ->
  linked w model optimizer arch pe ->
  exists losses accs w',
    train_loop rate model train_loader optimizer epoch device w
    = (inr (losses, accs), w') /\
    List.length losses = Z.to_nat n /\
    List.length accs = Z.to_nat n /\
    linked w' model optimizer arch
           (Nat.iter (count_real rate n (Z.to_nat n)) pe_count_step pe) /\
    w_trace w'
    = w_trace w
      ++ EvCallTrain epoch :: EvModelTrain model
         :: List.concat (map (batch_block rate n model optimizer arch epoch pe losses accs)
                             (seq 0 (Z.to_nat n))).
Proof.
  intros Hb L. unfold train_loop.
  destruct (emit_linked model optimizer arch (EvCallTrain epoch) w pe L)
    as (w1 & E1 & L1 & T1).
  rewrite (bind_inr _ _ _ _ _ E1).
  destruct (model_train_run model optimizer arch w1 pe L1) as (w2 & E2 & L2 & _ & T2).
  rewrite (bind_inr _ _ _ _ _ E2).
  destruct (iterate_run train_loader w2 Hb) as (batches & w3 & E3 & Hn & Hm & Ho & T3).
  rewrite (bind_inr _ _ _ _ _ E3).
  assert (L3 : linked w3 model optimizer arch pe).
  { unfold linked in *. rewrite Hm, Ho. exact L2. }
  destruct (train_batches_run pe batches O [] [] w3 eq_refl eq_refl L3)
    as (losses & accs & w' & E & _ & _ & Ll & La & L' & T').
  fold n in Hn. assert (Hlen : List.length batches = Z.to_nat n) by lia.
  unfold enumerate. change 0 with (Z.of_nat 0). rewrite E.
  exists losses, accs, w'. split; [reflexivity|].
  rewrite <- Hlen. simpl in Ll, La, L'. repeat split; auto.
  rewrite T', T3, T2, T1, <- !app_assoc. reflexivity.
Qed.

Lemma train_run (device : Device) (w : World) (pe : PrivacyEngine) :
  0 < dl_batch_size train_loader ->
  linked w model optimizer arch pe ->
  exists losses accs w',
    train rate model train_loader optimizer epoch device w = (inr tt, w') /\
    train_loop rate model train_loader optimizer epoch device w
    = (inr (losses, accs), w') /\
    List.length losses = Z.to_nat n /\
    List.length accs = Z.to_nat n /\
    linked w' model optimizer arch
           (Nat.iter (count_real rate n (Z.to_nat n)) pe_count_step pe) /\
    w_trace w'
    = w_trace w
      ++ EvCallTrain epoch :: EvModelTrain model
         :: List.concat (map (batch_block rate n model optimizer arch epoch pe losses accs)
                             (seq 0 (Z.to_nat n))).
Proof.
  intros Hb L.
  destruct (train_loop_run device w pe Hb L) as (losses & accs & w' & E & Hl & Ha & L' & T').
  exists losses, accs, w'. unfold train. rewrite (bind_inr _ _ _ _ _ E).
  repeat split; auto.
Qed.

End Train.

(** ** Reading a trace *)

Lemma new_events_app {T : Torch} (w w' : World) (evs : list Event) :
  w_trace w' = w_trace w ++ evs -> new_events w w' = evs.
Proof.
  intros H. unfold new_events. rewrite H, skipn_app, skipn_all, Nat.sub_diag.
  reflexivity.
Qed.

Lemma filter_concat_map {A B : Type} (p : B -> bool) (f : A -> list B) (l : list A) :
  filter p (List.concat (map f l)) = List.concat (map (fun a => filter p (f a)) l).
Proof.
  induction l as [|a l IH]; simpl; [reflexivity|].
  now rewrite filter_app, IH.
Qed.

Lemma concat_map_singleton {A B : Type} (f : A -> B) (l : list A) :
  List.concat (map (fun a => [f a]) l) = map f l.
Proof. induction l as [|a l IH]; simpl; congruence. Qed.

Lemma optimizer_calls_blocks {T : Torch} rate n model optimizer arch epoch pe0
      losses accs (l : list nat) :
  optimizer_calls
    (List.concat (map (batch_block rate n model optimizer arch epoch pe0 losses accs) l))
  = map (fun i => if real_step rate n i then EvStep optimizer
                  else EvVirtualStep optimizer) l.
Proof.
  unfold optimizer_calls. rewrite filter_concat_map.
  induction l as [|i l IH]; [reflexivity|].
  cbn [map List.concat]. rewrite IH. unfold batch_block.
  rewrite filter_app. destruct (Z.of_nat i mod 200 =? 0), (real_step rate n i);
    reflexivity.
Qed.

Lemma real_step_spec (rate n : Z) (i : nat) :
  rate <> 0 ->
  real_step rate n i = true <-> ((rate | Z.of_nat i + 1) \/ Z.of_nat i + 1 = n).
Proof.
  intros Hr. unfold real_step.
  rewrite orb_true_iff, !Z.eqb_eq, Z.mod_divide by assumption. reflexivity.
Qed.

(** ** Real and virtual steps *)

(** C1.  In [train], over an epoch of [n] batches, exactly one optimizer
    call is made per batch, in batch order; the call on the batch of
    0-based index [i] is the real step [optimizer.step()] if and only if
    [i + 1] is a multiple of [virtual_batch_rate] or [i + 1 = n], and it
    is [optimizer.virtual_step()] otherwise.  In particular the call on
    the last batch of the epoch is a real step. *)
Theorem train_real_step_iff {T : Torch} (virtual_batch_rate : Z)
    (model : nat) (train_loader : DataLoader) (optimizer : nat) (epoch : Z)
    (device : Device) (w : World) :
  virtual_batch_rate <> 0 ->
  0 < dl_batch_size train_loader ->
  ready w model optimizer = true ->
  exists w',
    train virtual_batch_rate model train_loader optimizer epoch device w = (inr tt, w') /\
    let n := loader_len train_loader in
    let steps := optimizer_calls (new_events w w') in
    List.length steps = Z.to_nat n /\
    (forall i, 0 <= i < n ->
       (nth_error steps (Z.to_nat i) = Some (EvStep optimizer)
        <-> ((virtual_batch_rate | i + 1) \/ i + 1 = n)) /\
       (nth_error steps (Z.to_nat i) = Some (EvVirtualStep optimizer)
        <-> ~ ((virtual_batch_rate | i + 1) \/ i + 1 = n))) /\
    (0 < n -> nth_error steps (Z.to_nat (n - 1)) = Some (EvStep optimizer)).
Proof.
  intros Hr Hb Hready.
  destruct (ready_linked w model optimizer Hready) as (arch & pe & L).
  destruct (train_run virtual_batch_rate model train_loader optimizer epoch arch Hr
                      device w pe Hb L) as (losses & accs & w' & E & _ & _ & _ & _ & Tr).
  exists w'. split; [exact E|]. cbv zeta.
  set (n := loader_len train_loader) in *.
  rewrite (new_events_app w w' _ Tr).
  change (EvCallTrain epoch :: EvModelTrain model :: ?l)
    with ([EvCallTrain epoch; EvModelTrain model] ++ l).
  unfold optimizer_calls. rewrite filter_app. cbn [filter is_optimizer_call app].
  fold (optimizer_calls
          (List.concat (map (batch_block virtual_batch_rate n model optimizer arch
                                         epoch pe losses accs) (seq 0 (Z.to_nat n))))).
  rewrite optimizer_calls_blocks.
  assert (Hnth : forall i, 0 <= i < n ->
            nth_error
              (map (fun i => if real_step virtual_batch_rate n i then EvStep optimizer
                             else EvVirtualStep optimizer) (seq 0 (Z.to_nat n)))
              (Z.to_nat i)
            = Some (if real_step virtual_batch_rate n (Z.to_nat i)
                    then EvStep optimizer else EvVirtualStep optimizer)).
  { intros i Hi. rewrite nth_error_map, nth_error_seq.
    destruct (Nat.ltb_spec (Z.to_nat i) (Z.to_nat n)); [reflexivity|lia]. }
  split; [now rewrite length_map, length_seq|]. split.
  - intros i Hi. rewrite (Hnth i Hi).
    pose proof (real_step_spec virtual_batch_rate n (Z.to_nat i) Hr) as Hs.
    rewrite Z2Nat.id in Hs by lia.
    destruct (real_step virtual_batch_rate n (Z.to_nat i)).
    + split; split; intros H; try reflexivity; try discriminate.
      * apply Hs; reflexivity.
      * exfalso. apply H, Hs. reflexivity.
    + split; split; intros H; try reflexivity; try discriminate.
      * apply Hs in H. discriminate.
      * intros H'. apply Hs in H'. discriminate.
  - intros Hn. rewrite (Hnth (n - 1)) by lia.
    pose proof (real_step_spec virtual_batch_rate n (Z.to_nat (n - 1)) Hr) as Hs.
    rewrite Z2Nat.id in Hs by lia.
    destruct (real_step virtual_batch_rate n (Z.to_nat (n - 1))); [reflexivity|].
    assert (false = true) by (apply Hs; right; lia). discriminate.
Qed.

(** A run of one epoch over five samples in batches of two, two batches
    to the step. *)
Lemma train_real_step_iff_witness :
  exists w',
    train (T := toy_torch) 2 0%nat toy_loader 0%nat 1 Cpu toy_world = (inr tt, w') /\
    let n := loader_len toy_loader in
    let steps := optimizer_calls (new_events toy_world w') in
    List.length steps = Z.to_nat n /\
    (forall i, 0 <= i < n ->
       (nth_error steps (Z.to_nat i) = Some (EvStep 0%nat)
        <-> ((2 | i + 1) \/ i + 1 = n)) /\
       (nth_error steps (Z.to_nat i) = Some (EvVirtualStep 0%nat)
        <-> ~ ((2 | i + 1) \/ i + 1 = n))) /\
    (0 < n -> nth_error steps (Z.to_nat (n - 1)) = Some (EvStep 0%nat)).
Proof.
  apply (train_real_step_iff (T := toy_torch) 2 0%nat toy_loader 0%nat 1 Cpu toy_world).
  - discriminate.
  - reflexivity.
  - vm_compute. reflexivity.
Defined.

(** ** The cells before training *)

Lemma setup_run {T : Torch} (cifar10_train cifar10_test : list (Image * Z)) :
  setup cifar10_train cifar10_test empty_world
  = (inr (setup_globals cifar10_train cifar10_test), setup_world cifar10_train).
Proof. vm_compute. reflexivity. Qed.

Lemma setup_world_linked {T : Torch} (cifar10_train : list (Image * Z)) :
  linked (setup_world cifar10_train) 0 0
         (Nn.replace_batchnorm Nn.resnet18) (notebook_engine cifar10_train).
Proof. eexists _, _. cbn. repeat split. Qed.

(** ** The epochs *)

Section Epochs.
Context {T : Torch}.
Variables (rate : Z) (model : nat) (train_loader : DataLoader)
          (optimizer : nat) (device : Device) (arch : Nn.Module).
Hypothesis rate_nonzero : rate <> 0.
Hypothesis batch_size_positive : 0 < dl_batch_size train_loader.

Let n : Z := loader_len train_loader.
Let per_epoch : nat := count_real rate n (Z.to_nat n).

Lemma epochs_run (epochs : list Z) :
  forall (w : World) (pe : PrivacyEngine),
    linked w model optimizer arch pe ->
    exists w' segments,
      foldM (fun (_ : unit) (epoch : Z) =>
               train rate model train_loader optimizer (epoch + 1) device)
            tt epochs w
      = (inr tt, w') /\
      linked w' model optimizer arch
             (Nat.iter (List.length epochs * per_epoch) pe_count_step pe) /\
      Forall2 (fun epoch evs => epoch_trace rate n model optimizer arch (epoch + 1) evs)
              epochs segments /\
      w_trace w' = w_trace w ++ List.concat segments.
Proof.
  induction epochs as [|e epochs IH]; intros w pe L.
  - exists w, []. cbn. rewrite app_nil_r. auto.
  - cbn [foldM].
    destruct (train_run rate model train_loader optimizer (e + 1) arch rate_nonzero
                        device w pe batch_size_positive L)
      as (losses & accs & w1 & E1 & _ & Hl & Ha & L1 & T1).
    rewrite (bind_inr _ _ _ _ _ E1).
    destruct (IH w1 _ L1) as (w' & segments & E & L' & F & T').
    exists w',
      ((EvCallTrain (e + 1) :: EvModelTrain model
          :: List.concat (map (batch_block rate n model optimizer arch (e + 1) pe losses accs)
                              (seq 0 (Z.to_nat n)))) :: segments).
    split; [exact E|]. split; [|split].
    + cbn [List.length]. fold n in L'. fold per_epoch in L'.
      rewrite <- Nat.iter_add in L'.
      replace (S (List.length epochs) * per_epoch)%nat
        with (List.length epochs * per_epoch + per_epoch)%nat by lia.
      exact L'.
    + constructor; [|exact F]. exists pe, losses, accs. fold n. auto.
    + rewrite T', T1. cbn [List.concat]. rewrite <- app_assoc. reflexivity.
Qed.

End Epochs.

(** ** Evaluation *)

Section Test.
Context {T : Torch}.
Variables (model : nat) (arch : Nn.Module) (params : Params).

Lemma linked_holds (w : World) optimizer pe :
  linked w model optimizer arch pe -> exists p, holds w model arch p.
Proof.
  intros (mo & opt & Hm & Ha & _). exists (m_params mo), mo. auto.
Qed.

Lemma iterate_batches_at (dl : DataLoader) (w : World) :
  exists w', iterate dl w = (inr (batches_at dl (w_rng w)), w') /\
             w_modules w' = w_modules w /\ w_optimizers w' = w_optimizers w /\
             w_trace w' = w_trace w.
Proof.
  unfold iterate, batches_at. destruct (dl_shuffle dl);
    eexists; (split; [reflexivity|]); cbn; auto.
Qed.

Lemma test_batch_run (w : World) (losses accs : list Np.float)
      (batch : list (Image * Z)) :
  holds w model arch params ->
  exists w',
    test_batch model (losses, accs) batch w
    = (inr (losses ++ [batch_loss arch params batch],
            accs ++ [batch_accuracy arch params batch]), w') /\
    holds w' model arch params /\
    w_trace w' = w_trace w ++ [EvForward model arch].
Proof.
  intros (mo & Hm & Ha & Hp). rewrite <- Ha, <- Hp.
  unfold test_batch, model_call, bind at 1 2, get_module. rewrite Hm. cbn.
  rewrite accuracy_same_length by (now rewrite !length_map).
  cbn [lift]. rewrite bind_ret. unfold ret.
  eexists. split; [|split].
  - reflexivity.
  - exists mo. cbn. auto.
  - reflexivity.
Qed.

Lemma test_batches_run (batches : list (list (Image * Z))) :
  forall (w : World) (losses accs : list Np.float),
    holds w model arch params ->
    exists w',
      foldM (test_batch model) (losses, accs) batches w
      = (inr (losses ++ map (batch_loss arch params) batches,
              accs ++ map (batch_accuracy arch params) batches), w') /\
      holds w' model arch params /\
      w_trace w' = w_trace w ++ List.repeat (EvForward model arch) (List.length batches).
Proof.
  induction batches as [|batch batches IH]; intros w losses accs H.
  - exists w. cbn. rewrite !app_nil_r. auto.
  - cbn [foldM].
    destruct (test_batch_run w losses accs batch H) as (w1 & E1 & H1 & T1).
    rewrite (bind_inr _ _ _ _ _ E1).
    destruct (IH w1 (losses ++ [batch_loss arch params batch])
                 (accs ++ [batch_accuracy arch params batch]) H1)
      as (w' & E & H' & T').
    exists w'. rewrite E, T', T1. cbn. rewrite <- !app_assoc.
    repeat split; auto.
Qed.

Lemma test_run (test_loader : DataLoader) (device : Device) (w : World) :
  holds w model arch params ->
  exists w',
    let batches := batches_at test_loader (w_rng w) in
    let result := Np.mean (map (batch_accuracy arch params) batches) in
    let loss := Np.mean (map (batch_loss arch params) batches) in
    test model test_loader device w = (inr result, w') /\
    w_trace w'
    = w_trace w
      ++ EvCallTest :: EvModelEval model
         :: List.repeat (EvForward model arch) (List.length batches)
      ++ [EvPrint (TestLine loss (Np.scale 100 result))].
Proof.
  intros (mo & Hm & Ha & Hp). unfold test.
  unfold emit at 1, model_eval, emit at 1, set_module.
  rewrite !bind_ret || cbn [bind].
  set (w2 := {| w_modules := list_update (w_modules w) model (mo_with_training false);
                w_optimizers := w_optimizers w; w_rng := w_rng w;
                w_trace := (w_trace w ++ [EvCallTest]) ++ [EvModelEval model] |}).
  assert (H2 : holds w2 model arch params).
  { exists (mo_with_training false mo). cbn.
    rewrite nth_error_list_update_eq, Hm. auto. }
  destruct (iterate_batches_at test_loader w2) as (w3 & E3 & Hmod & Hopt & T3).
  change (w_rng w2) with (w_rng w) in E3.
  assert (H3 : holds w3 model arch params).
  { unfold holds in *. now rewrite Hmod. }
  destruct (test_batches_run (batches_at test_loader (w_rng w)) w3 [] [] H3)
    as (w4 & E4 & H4 & T4).
  cbn [app] in E4.
  exists {| w_modules := w_modules w4; w_optimizers := w_optimizers w4;
            w_rng := w_rng w4;
            w_trace := w_trace w4
                       ++ [EvPrint (TestLine
                             (Np.mean (map (batch_loss arch params)
                                           (batches_at test_loader (w_rng w))))
                             (Np.scale 100
                                (Np.mean (map (batch_accuracy arch params)
                                              (batches_at test_loader (w_rng w))))))] |}.
  cbv zeta. split.
  - change (bind (emit EvCallTest)
              (fun _ => bind (bind (emit (EvModelEval model))
                                   (fun _ => set_module model (mo_with_training false)))
                             ?k) w)
      with (?k tt w2).
    cbv beta. rewrite (bind_inr _ _ _ _ _ E3), (bind_inr _ _ _ _ _ E4).
    reflexivity.
  - cbn [w_trace]. rewrite T4, T3. subst w2. cbn [w_trace].
    rewrite <- !app_assoc. reflexivity.
Qed.

End Test.

(** ** The whole notebook *)

Section Notebook.
Context {T : Torch}.
Variables cifar10_train cifar10_test : list (Image * Z).

Let n : Z := train_batches cifar10_train.
Let g : Globals := setup_globals cifar10_train cifar10_test.

Lemma training_run :
  exists w segments,
    training g (setup_world cifar10_train) = (inr tt, w) /\
    linked w 0 0 converted_resnet18
           (Nat.iter (20 * steps_per_epoch cifar10_train) pe_count_step
                     (notebook_engine cifar10_train)) /\
    Forall2 (fun epoch evs => epoch_trace 4 n 0 0 converted_resnet18 (epoch + 1) evs)
            (py_range 0 20) segments /\
    w_trace w = setup_trace ++ List.concat segments.
Proof.
  unfold training.
  destruct (epochs_run 4 0 (g_train_loader g) 0 (g_device g) converted_resnet18
                       ltac:(discriminate) ltac:(reflexivity) (py_range 0 20)
                       (setup_world cifar10_train) (notebook_engine cifar10_train)
                       (setup_world_linked cifar10_train))
    as (w & segments & E & L & F & Tr).
  exists w, segments. split; [exact E|]. split; [exact L|]. split; [exact F|exact Tr].
Qed.

Lemma notebook_run :
  exists acc w segments params,
    let batches := chunks (Z.to_nat BATCH_SIZE) cifar10_test in
    notebook cifar10_train cifar10_test empty_world = (inr acc, w) /\
    acc = Np.mean (map (batch_accuracy converted_resnet18 params) batches) /\
    Forall2 (fun epoch evs => epoch_trace 4 n 0 0 converted_resnet18 (epoch + 1) evs)
            (py_range 0 20) segments /\
    w_trace w
    = setup_trace ++ List.concat segments
      ++ EvCallTest :: EvModelEval 0
         :: List.repeat (EvForward 0 converted_resnet18) (List.length batches)
      ++ [EvPrint (TestLine (Np.mean (map (batch_loss converted_resnet18 params) batches))
                            (Np.scale 100 acc))].
Proof.
  destruct training_run as (w1 & segments & E1 & L1 & F & T1).
  destruct (linked_holds 0 converted_resnet18 w1 0 _ L1) as (params & H1).
  destruct (test_run 0 converted_resnet18 params (g_test_loader g) (g_device g) w1 H1)
    as (w & E & Tr).
  exists (Np.mean (map (batch_accuracy converted_resnet18 params)
                       (chunks (Z.to_nat BATCH_SIZE) cifar10_test))),
    w, segments, params.
  split; [|split; [|split]].
  - unfold notebook.
    rewrite (bind_inr _ _ _ _ _ (setup_run cifar10_train cifar10_test)).
    rewrite (bind_inr _ _ _ _ _ E1). exact E.
  - reflexivity.
  - exact F.
  - rewrite Tr, T1, <- app_assoc. reflexivity.
Qed.

End Notebook.

(** ** Reading the trace of the notebook *)

Lemma flat_map_concat_map {A B C : Type} (f : B -> list C) (g : A -> list B) (l : list A) :
  flat_map f (List.concat (map g l)) = List.concat (map (fun a => flat_map f (g a)) l).
Proof.
  induction l as [|a l IH]; simpl; [reflexivity|].
  now rewrite flat_map_app, IH.
Qed.

Lemma concat_map_nil {A B : Type} (l : list A) :
  List.concat (map (fun _ : A => @nil B) l) = [].
Proof. induction l; simpl; auto. Qed.

Lemma filter_repeat_false {A : Type} (p : A -> bool) (a : A) (k : nat) :
  p a = false -> filter p (List.repeat a k) = [].
Proof. intros H. induction k; simpl; [reflexivity|]. now rewrite H. Qed.

Lemma flat_map_repeat_nil {A B : Type} (f : A -> list B) (a : A) (k : nat) :
  f a = [] -> flat_map f (List.repeat a k) = [].
Proof. intros H. induction k; simpl; [reflexivity|]. now rewrite H. Qed.

Section Segments.
Context {T : Torch}.
Variables (rate n : Z) (model optimizer : nat) (arch : Nn.Module).

Lemma block_calls epoch pe losses accs i :
  calls (batch_block rate n model optimizer arch epoch pe losses accs i) = [].
Proof.
  unfold calls, batch_block. rewrite filter_app.
  destruct (Z.of_nat i mod 200 =? 0), (real_step rate n i); reflexivity.
Qed.

Lemma block_errors epoch pe losses accs i :
  errors (batch_block rate n model optimizer arch epoch pe losses accs i) = [].
Proof.
  unfold errors, batch_block. rewrite flat_map_app.
  destruct (Z.of_nat i mod 200 =? 0), (real_step rate n i); reflexivity.
Qed.

Lemma epoch_calls epoch evs :
  epoch_trace rate n model optimizer arch epoch evs -> calls evs = [EvCallTrain epoch].
Proof.
  intros (pe & losses & accs & _ & _ & ->). unfold calls. cbn [filter is_call].
  f_equal. rewrite filter_concat_map.
  rewrite (map_ext _ (fun _ => [])) by (intros; apply block_calls).
  apply concat_map_nil.
Qed.

Lemma epoch_errors epoch evs :
  epoch_trace rate n model optimizer arch epoch evs -> errors evs = [].
Proof.
  intros (pe & losses & accs & _ & _ & ->). unfold errors. cbn [flat_map app].
  rewrite flat_map_concat_map.
  rewrite (map_ext _ (fun _ => [])) by (intros; apply block_errors).
  apply concat_map_nil.
Qed.

Lemma segments_calls (epochs : list Z) (segments : list (list Event)) :
  Forall2 (fun epoch evs => epoch_trace rate n model optimizer arch (epoch + 1) evs)
          epochs segments ->
  calls (List.concat segments) = map (fun epoch => EvCallTrain (epoch + 1)) epochs.
Proof.
  induction 1 as [|e evs epochs segments H _ IH]; [reflexivity|].
  cbn [List.concat map]. unfold calls in *. rewrite filter_app, IH.
  apply epoch_calls in H. unfold calls in H. now rewrite H.
Qed.

Lemma segments_errors (epochs : list Z) (segments : list (list Event)) :
  Forall2 (fun epoch evs => epoch_trace rate n model optimizer arch (epoch + 1) evs)
          epochs segments ->
  errors (List.concat segments) = [].
Proof.
  induction 1 as [|e evs epochs segments H _ IH]; [reflexivity|].
  cbn [List.concat]. unfold errors in *. rewrite flat_map_app, IH.
  apply epoch_errors in H. unfold errors in H. now rewrite H.
Qed.

End Segments.

(** ** The virtual batch rate *)

(** C2.  The virtual batch size is an integer multiple of the physical
    batch size: with [VIRTUAL_BATCH_SIZE = 512] and [BATCH_SIZE = 128]
    the guard [VIRTUAL_BATCH_SIZE % BATCH_SIZE == 0] holds, the
    assertion of cell 30 does not fire, and [virtual_batch_rate] is 4,
    in the cell and in every run of the notebook. *)
Theorem virtual_batch_rate_is_4 :
  VIRTUAL_BATCH_SIZE = 512 /\ BATCH_SIZE = 128 /\
  VIRTUAL_BATCH_SIZE = 4 * BATCH_SIZE /\
  py_mod VIRTUAL_BATCH_SIZE BATCH_SIZE = inr 0 /\
  cell_30 VIRTUAL_BATCH_SIZE BATCH_SIZE = inr 4 /\
  forall (T : Torch) (cifar10_train cifar10_test : list (Image * Z)),
  exists g w,
    setup cifar10_train cifar10_test empty_world = (inr g, w) /\
    g_virtual_batch_rate g = 4 /\
    ~ In AssertionError (errors (w_trace w)).
Proof.
  repeat split; try reflexivity.
  intros T tr te. eexists _, _. split; [apply setup_run|]. split; [reflexivity|].
  cbn. intros [H|[]]. discriminate.
Qed.

(** ** The compatibility check *)

(** C3.  After the layer substitution applied to ResNet18 the
    compatibility check returns [True] and raises nothing: as a
    function of the rewritten graph, and in the notebook, where the
    check that follows [convert_batchnorm_modules] in cell 19 prints
    [Is the model valid? True]; checking the model again after the
    cells before training gives [True] as well. *)
Theorem validate_after_conversion :
  Nn.validate (Nn.replace_batchnorm Nn.resnet18) = inr true /\
  forall (T : Torch) (cifar10_train cifar10_test : list (Image * Z)),
  exists g w pre post,
    setup cifar10_train cifar10_test empty_world = (inr g, w) /\
    w_trace w = pre ++ [EvConvert (g_model g); EvValidate (g_model g);
                        EvPrint (ValidLine true)] ++ post /\
    errors post = [] /\
    fst (inspector_validate (g_model g) w) = inr true.
Proof.
  split; [vm_compute; reflexivity|].
  intros T tr te.
  exists (setup_globals tr te), (setup_world tr),
    [EvNewModel 0; EvValidate 0; EvError (IncompatibleModuleException recorded_message)],
    [EvToDevice 0 notebook_device; EvNewOptimizer 0;
     EvPrint (SigmaLine NOISE_MULTIPLIER MAX_GRAD_NORM);
     EvNewPrivacyEngine 0; EvAttach 0].
  split; [apply setup_run|]. split; [reflexivity|]. split; [reflexivity|].
  vm_compute. reflexivity.
Qed.

(** C4.  On the unmodified ResNet18 the compatibility check raises
    [IncompatibleModuleException]; its message is the recorded one and
    lists the offending modules, which are exactly the batch
    normalisation layers.  In a run of the notebook this is the only
    exception displayed, and the run ends without another. *)
Theorem validate_resnet18_raises :
  Nn.validate Nn.resnet18 = inl (IncompatibleModuleException recorded_message) /\
  recorded_message
  = ("Model contains incompatible modules." ++ Nn.newline
     ++ "Some modules are not valid.: " ++ Nn.repr_list (Nn.violators Nn.resnet18))%string /\
  Nn.violators Nn.resnet18
  = map fst (filter (fun nk => Nn.is_batchnorm (snd nk)) (Nn.named_modules "Main" Nn.resnet18)) /\
  List.length (Nn.violators Nn.resnet18) = 20%nat /\
  forall (T : Torch) (cifar10_train cifar10_test : list (Image * Z)),
  exists acc w,
    notebook cifar10_train cifar10_test empty_world = (inr acc, w) /\
    errors (w_trace w) = [IncompatibleModuleException recorded_message].
Proof.
  split; [vm_compute; reflexivity|]. split; [vm_compute; reflexivity|].
  split; [vm_compute; reflexivity|]. split; [vm_compute; reflexivity|].
  intros T tr te.
  destruct (notebook_run tr te) as (acc & w & segments & params & E & _ & F & Tr).
  exists acc, w. split; [exact E|].
  rewrite Tr. unfold errors. rewrite !flat_map_app.
  fold (errors (List.concat segments)).
  rewrite (segments_errors _ _ _ _ _ _ _ F).
  cbn [flat_map app]. rewrite flat_map_app, flat_map_repeat_nil by reflexivity.
  reflexivity.
Qed.

(** ** The layer rewriting *)

Lemma Module_nested_ind (P : Nn.Module -> Prop) :
  (forall k cs, Forall (fun nc => P (snd nc)) cs -> P (Nn.Node k cs)) ->
  forall m, P m.
Proof.
  intros H. fix IH 1. intros [k cs]. apply H.
  induction cs as [|[name c] cs IHcs]; constructor.
  - apply IH.
  - exact IHcs.
Qed.

Lemma named_modules_node (prefix : string) (k : Nn.LayerKind)
      (cs : list (string * Nn.Module)) :
  Nn.named_modules prefix (Nn.Node k cs)
  = (prefix, k)
    :: flat_map (fun nc => Nn.named_modules (prefix ++ "." ++ fst nc)%string (snd nc)) cs.
Proof.
  cbn [Nn.named_modules]. f_equal.
  induction cs as [|[name c] cs IH]; [reflexivity|].
  cbn [flat_map fst snd]. now rewrite IH.
Qed.

Lemma is_batchnorm_substituted (k : Nn.LayerKind) :
  Nn.is_batchnorm (substituted k) = false.
Proof. destruct k; reflexivity. Qed.

Lemma replace_batchnorm_named_modules (m : Nn.Module) :
  forall prefix,
    Nn.named_modules prefix (Nn.replace_batchnorm m)
    = map (fun nk => (fst nk, substituted (snd nk))) (Nn.named_modules prefix m).
Proof.
  induction m as [k cs IH] using Module_nested_ind. intros prefix.
  cbn [Nn.replace_batchnorm]. rewrite !named_modules_node. cbn [map fst snd].
  f_equal. clear k.
  induction IH as [|[name c] cs Hc _ IHcs]; [reflexivity|].
  cbn [map flat_map fst snd]. rewrite map_app, IHcs, Hc. reflexivity.
Qed.

Lemma replace_batchnorm_no_batchnorm (m : Nn.Module) :
  Nn.has_batchnorm (Nn.replace_batchnorm m) = false.
Proof.
  unfold Nn.has_batchnorm, Nn.kinds. rewrite replace_batchnorm_named_modules.
  rewrite map_map. cbn [snd].
  induction (Nn.named_modules "Main" m) as [|nk l IH]; [reflexivity|].
  cbn [map existsb]. now rewrite is_batchnorm_substituted, IH.
Qed.

Lemma Forall_repeat {A : Type} (P : A -> Prop) (a : A) (k : nat) :
  P a -> Forall P (List.repeat a k).
Proof. intros H. induction k; simpl; constructor; auto. Qed.

Lemma epoch_forward_on {T : Torch} rate n model optimizer arch epoch evs :
  epoch_trace rate n model optimizer arch epoch evs ->
  Forall (forward_on model arch) evs.
Proof.
  intros (pe & losses & accs & _ & _ & ->).
  do 2 (constructor; [exact I|]).
  apply Forall_concat, Forall_map, Forall_forall. intros i _.
  unfold batch_block. apply Forall_app. split.
  - repeat constructor. destruct (real_step rate n i); exact I.
  - destruct (Z.of_nat i mod 200 =? 0); repeat constructor.
Qed.

Lemma segments_forward_on {T : Torch} rate n model optimizer arch
      (epochs : list Z) (segments : list (list Event)) :
  Forall2 (fun epoch evs => epoch_trace rate n model optimizer arch (epoch + 1) evs)
          epochs segments ->
  Forall (forward_on model arch) (List.concat segments).
Proof.
  induction 1 as [|e evs epochs segments H _ IH]; [constructor|].
  cbn [List.concat]. apply Forall_app. split; [|exact IH].
  eapply epoch_forward_on; eassumption.
Qed.

(** C7.  The layer substitution rewrites the model object in place:
    the call returns the reference it was given, the object behind it
    holds the rewritten graph, and no other object changes.  The
    rewritten graph has a group normalisation layer wherever the
    original had a batch normalisation layer, every other layer is
    kept under its name, and no batch normalisation layer is left.  In
    the notebook the rewriting comes before the move to the device,
    before the optimizer and the privacy engine are made and before
    any training batch, and every forward pass of training and
    evaluation runs on the rewritten graph. *)
Theorem conversion_precedes_training :
  (forall (m : Nn.Module) (prefix : string),
      Nn.named_modules prefix (Nn.replace_batchnorm m)
      = map (fun nk => (fst nk, if Nn.is_batchnorm (snd nk) then Nn.GroupNorm else snd nk))
            (Nn.named_modules prefix m)) /\
  (forall m : Nn.Module, Nn.has_batchnorm (Nn.replace_batchnorm m) = false) /\
  (forall (T : Torch) (w : World) (model : nat),
      exists w',
        convert_batchnorm_modules model w = (inr model, w') /\
        nth_error (w_modules w') model
        = option_map (mo_with_arch Nn.replace_batchnorm) (nth_error (w_modules w) model) /\
        List.length (w_modules w') = List.length (w_modules w) /\
        w_optimizers w' = w_optimizers w /\
        w_trace w' = w_trace w ++ [EvConvert model] /\
        forall other, other <> model ->
                      nth_error (w_modules w') other = nth_error (w_modules w) other) /\
  forall (T : Torch) (cifar10_train cifar10_test : list (Image * Z)),
  exists acc w post,
    notebook cifar10_train cifar10_test empty_world = (inr acc, w) /\
    w_trace w
    = [EvNewModel 0; EvValidate 0; EvError (IncompatibleModuleException recorded_message)]
      ++ EvConvert 0 :: post /\
    In (EvToDevice 0 notebook_device) post /\
    In (EvNewOptimizer 0) post /\
    In (EvNewPrivacyEngine 0) post /\
    filter is_batch_event post = filter is_batch_event (w_trace w) /\
    Forall (forward_on 0 (Nn.replace_batchnorm Nn.resnet18)) (w_trace w).
Proof.
  split; [intros m prefix; apply replace_batchnorm_named_modules|].
  split; [apply replace_batchnorm_no_batchnorm|].
  split.
  { intros T w model. eexists. split; [reflexivity|]. cbn.
    split; [apply nth_error_list_update_eq|].
    split; [apply list_update_length|].
    split; [reflexivity|]. split; [reflexivity|].
    intros other H. now apply nth_error_list_update_neq. }
  intros T tr te.
  destruct (notebook_run tr te) as (acc & w & segments & params & E & _ & F & Tr).
  cbv zeta in Tr.
  set (rest := List.concat segments
               ++ EvCallTest :: EvModelEval 0
                  :: List.repeat (EvForward 0 converted_resnet18)
                       (List.length (chunks (Z.to_nat BATCH_SIZE) te))
               ++ [EvPrint (TestLine
                              (Np.mean (map (batch_loss converted_resnet18 params)
                                            (chunks (Z.to_nat BATCH_SIZE) te)))
                              (Np.scale 100 acc))]) in *.
  exists acc, w,
    ([EvValidate 0; EvPrint (ValidLine true); EvToDevice 0 notebook_device;
      EvNewOptimizer 0; EvPrint (SigmaLine NOISE_MULTIPLIER MAX_GRAD_NORM);
      EvNewPrivacyEngine 0; EvAttach 0] ++ rest).
  split; [exact E|]. split; [rewrite Tr; reflexivity|].
  split; [apply in_or_app; left; cbn; tauto|].
  split; [apply in_or_app; left; cbn; tauto|].
  split; [apply in_or_app; left; cbn; tauto|].
  split; [rewrite Tr; reflexivity|].
  rewrite Tr. subst rest. apply Forall_app. split; [repeat constructor|].
  apply Forall_app. split; [eapply segments_forward_on; exact F|].
  do 2 (constructor; [exact I|]).
  apply Forall_app. split; [apply Forall_repeat; split; reflexivity|].
  repeat constructor.
Qed.

(** ** The privacy engine *)

Lemma iter_count_step (k : nat) (pe : PrivacyEngine) :
  Nat.iter k pe_count_step pe
  = {| pe_module := pe_module pe;
       pe_batch_size := pe_batch_size pe;
       pe_sample_size := pe_sample_size pe;
       pe_alphas := pe_alphas pe;
       pe_noise_multiplier := pe_noise_multiplier pe;
       pe_max_grad_norm := pe_max_grad_norm pe;
       pe_steps := pe_steps pe + Z.of_nat k |}.
Proof.
  induction k as [|k IH].
  - destruct pe; cbn. now rewrite Z.add_0_r.
  - change (Nat.iter (S k) pe_count_step pe)
      with (pe_count_step (Nat.iter k pe_count_step pe)).
    rewrite IH. unfold pe_count_step. cbn [pe_module pe_batch_size pe_sample_size
      pe_alphas pe_noise_multiplier pe_max_grad_norm pe_steps]. f_equal. lia.
Qed.

Lemma count_real_before_last (n : Z) (k : nat) :
  Z.of_nat k < n -> Z.of_nat (count_real 4 n k) = Z.of_nat k / 4.
Proof.
  induction k as [|k IH]; intros Hk; [reflexivity|].
  rewrite count_real_S, Nat2Z.inj_add, IH by lia. unfold real_step.
  replace (Z.of_nat k + 1 =? n) with false by (symmetry; apply Z.eqb_neq; lia).
  rewrite orb_false_r, Nat2Z.inj_succ.
  destruct (Z.eqb_spec ((Z.of_nat k + 1) mod 4) 0) as [H|H]; cbn [Z.of_nat];
    Z.div_mod_to_equations; lia.
Qed.

Lemma count_real_epoch (n : Z) :
  0 <= n -> Z.of_nat (count_real 4 n (Z.to_nat n)) = (n + 3) / 4.
Proof.
  intros Hn. destruct (Z.eq_dec n 0) as [->|Hz]; [reflexivity|].
  replace (Z.to_nat n) with (S (Z.to_nat (n - 1))) by lia.
  rewrite count_real_S, Nat2Z.inj_add, count_real_before_last by lia.
  unfold real_step.
  replace (Z.of_nat (Z.to_nat (n - 1)) + 1 =? n) with true
    by (symmetry; apply Z.eqb_eq; lia).
  rewrite orb_true_r, Z2Nat.id by lia. cbn [Z.of_nat].
  Z.div_mod_to_equations; lia.
Qed.

Lemma loader_len_nonneg {T : Torch} (dl : DataLoader) :
  0 < dl_batch_size dl -> 0 <= loader_len dl.
Proof.
  intros H. unfold loader_len. apply Z.div_pos; lia.
Qed.

(** C10.  The privacy engine is made with [batch_size] equal to
    [VIRTUAL_BATCH_SIZE], 512, and [sample_size] equal to the size of the
    training set, while the training loader works in batches of
    [BATCH_SIZE], 128.  This engine is the one attached to the
    optimizer, and after the 20 epochs it has counted one step per
    real optimizer step, a quarter (rounded up) of the batches of each
    epoch. *)
Theorem privacy_engine_parameters (T : Torch)
    (cifar10_train cifar10_test : list (Image * Z)) :
  exists g w,
    setup cifar10_train cifar10_test empty_world = (inr g, w) /\
    pe_batch_size (g_privacy_engine g) = VIRTUAL_BATCH_SIZE /\
    VIRTUAL_BATCH_SIZE = 512 /\
    pe_sample_size (g_privacy_engine g) = Z.of_nat (List.length (g_train_dataset g)) /\
    g_train_dataset g = cifar10_train /\
    dl_batch_size (g_train_loader g) = BATCH_SIZE /\
    BATCH_SIZE = 128 /\
    pe_batch_size (g_privacy_engine g) <> dl_batch_size (g_train_loader g) /\
    engine_of w (g_optimizer g) = Some (g_privacy_engine g) /\
    exists w' pe',
      bind (setup cifar10_train cifar10_test) training empty_world = (inr tt, w') /\
      engine_of w' (g_optimizer g) = Some pe' /\
      pe_batch_size pe' = 512 /\
      pe_sample_size pe' = Z.of_nat (List.length cifar10_train) /\
      pe_steps pe' = 20 * ((loader_len (g_train_loader g) + 3) / 4).
Proof.
  exists (setup_globals cifar10_train cifar10_test), (setup_world cifar10_train).
  split; [apply setup_run|].
  do 6 (split; [reflexivity|]). split; [discriminate|]. split; [reflexivity|].
  destruct (training_run cifar10_train cifar10_test) as (w' & segments & E & L & _ & _).
  rewrite <- (bind_inr (setup cifar10_train cifar10_test) training _ _ _
                       (setup_run cifar10_train cifar10_test)) in E.
  destruct L as (mo & opt & _ & _ & Ho & _ & He).
  exists w', (Nat.iter (20 * steps_per_epoch cifar10_train) pe_count_step
                       (notebook_engine cifar10_train)).
  split; [exact E|]. split.
  { unfold engine_of. cbn [g_optimizer setup_globals]. now rewrite Ho. }
  rewrite iter_count_step. cbn [pe_batch_size pe_sample_size pe_steps notebook_engine].
  split; [reflexivity|]. split; [reflexivity|].
  unfold steps_per_epoch. rewrite Nat2Z.inj_mul, count_real_epoch.
  - reflexivity.
  - apply (loader_len_nonneg (g_train_loader (setup_globals cifar10_train cifar10_test))).
    reflexivity.
Qed.

(** ** The entries of [losses] and [top1_acc] *)

Section Entries.
Context {T : Torch}.
Variables (rate : Z) (model : nat) (train_loader : DataLoader)
          (optimizer : nat) (epoch : Z) (arch : Nn.Module).
Hypothesis rate_nonzero : rate <> 0.

Lemma linked_at_linked w pe p :
  linked_at w model optimizer arch pe p -> linked w model optimizer arch pe.
Proof. intros (mo & opt & H). exists mo, opt. tauto. Qed.

Lemma linked_linked_at w pe :
  linked w model optimizer arch pe -> exists p, linked_at w model optimizer arch pe p.
Proof.
  intros (mo & opt & Hm & Ha & Ho & Hom & He). exists (m_params mo), mo, opt. auto 10.
Qed.

Lemma linked_at_holds w pe p :
  linked_at w model optimizer arch pe p -> holds w model arch p.
Proof. intros (mo & opt & Hm & Ha & Hp & _). exists mo. auto. Qed.

Lemma holds_unique w p q :
  holds w model arch p -> holds w model arch q -> p = q.
Proof.
  intros (mo & Hm & _ & Hp) (mo' & Hm' & _ & Hq). congruence.
Qed.

Lemma at_zero_grad w pe p :
  linked_at w model optimizer arch pe p ->
  exists w', zero_grad optimizer w = (inr tt, w') /\
             linked_at w' model optimizer arch pe p.
Proof.
  intros (mo & opt & Hm & Ha & Hp & Ho & Hom & He).
  unfold zero_grad, bind, get_optimizer. rewrite Ho. cbn.
  eexists; split; [reflexivity|].
  exists (mo_with_grad None mo), opt. cbn.
  rewrite Hom, nth_error_list_update_eq, Hm. auto 10.
Qed.

Lemma at_model_call w pe p (images : list Image) :
  linked_at w model optimizer arch pe p ->
  exists w', model_call model images w = (inr (map (forward arch p) images), w') /\
             linked_at w' model optimizer arch pe p.
Proof.
  intros (mo & opt & Hm & Ha & Hp & Ho & Hom & He).
  unfold model_call, bind, get_module. rewrite Hm. cbn. rewrite Ha, Hp.
  eexists; split; [reflexivity|].
  exists mo, opt. cbn. auto 10.
Qed.

Lemma train_batch_entries (w : World) pe p (losses accs : list Np.float) (i : nat)
      (batch : list (Image * Z)) :
  linked_at w model optimizer arch pe p ->
  exists w' pe',
    train_batch rate model train_loader optimizer epoch
                (losses, accs) (Z.of_nat i, batch) w
    = (inr (losses ++ [batch_loss arch p batch],
            accs ++ [batch_accuracy arch p batch]), w') /\
    linked w' model optimizer arch pe'.
Proof.
  intros L0. unfold train_batch.
  destruct (at_zero_grad w pe p L0) as (w1 & E1 & L1).
  rewrite (bind_inr _ _ _ _ _ E1).
  destruct (at_model_call w1 pe p (map fst batch) L1) as (w2 & E2 & L2).
  rewrite (bind_inr _ _ _ _ _ E2).
  rewrite accuracy_same_length by (now rewrite !length_map).
  cbn [lift]. rewrite bind_ret.
  apply linked_at_linked in L2.
  destruct (loss_backward_run model optimizer arch w2 pe batch L2) as (w3 & E3 & L3 & _).
  rewrite (bind_inr _ _ _ _ _ E3).
  unfold py_mod. destruct (rate =? 0) eqn:Er; [apply Z.eqb_eq in Er; contradiction|].
  cbn [lift]. rewrite bind_ret.
  assert (exists w4 pe',
             (if ((Z.of_nat i + 1) mod rate =? 0)
                 || (Z.of_nat i + 1 =? loader_len train_loader)
              then step optimizer else virtual_step optimizer) w3
             = (inr tt, w4) /\
             linked w4 model optimizer arch pe') as (w4 & pe' & E4 & L4).
  { destruct (((Z.of_nat i + 1) mod rate =? 0)
              || (Z.of_nat i + 1 =? loader_len train_loader)).
    - destruct (step_run model optimizer arch w3 pe L3) as (w4 & E4 & L4 & _). eauto.
    - destruct (virtual_step_run model optimizer arch w3 pe L3) as (w4 & E4 & L4 & _). eauto. }
  rewrite (bind_inr _ _ _ _ _ E4).
  destruct (Z.of_nat i mod 200 =? 0).
  - rewrite (bind_inr _ _ _ _ _
               (bind_inr _ _ _ _ _ (privacy_spent_run model optimizer arch w4 pe' DELTA L4))).
    eexists _, pe'. split; [reflexivity|]. exact L4.
  - rewrite bind_ret. eexists _, pe'. split; [reflexivity|]. exact L4.
Qed.

Lemma length_enumerate_from {A : Type} (l : list A) (i : Z) :
  List.length (enumerate_from i l) = List.length l.
Proof. revert i; induction l as [|x l IH]; intros i; simpl; auto. Qed.

(** After a run over all the batches, entry [i] of either list is the
    value on batch [i] of the model as it stands when the first [i]
    batches have been processed. *)
Lemma train_batches_entries (w0 : World) (batches : list (list (Image * Z))) :
  forall pe0,
    linked w0 model optimizer arch pe0 ->
    exists losses accs w' pe',
      foldM (train_batch rate model train_loader optimizer epoch)
            ([], []) (enumerate batches) w0
      = (inr (losses, accs), w') /\
      linked w' model optimizer arch pe' /\
      List.length losses = List.length batches /\
      List.length accs = List.length batches /\
      forall (i : nat) (batch : list (Image * Z)),
        nth_error batches i = Some batch ->
        exists locals_i w_i p_i,
          foldM (train_batch rate model train_loader optimizer epoch)
                ([], []) (firstn i (enumerate batches)) w0
          = (inr locals_i, w_i) /\
          holds w_i model arch p_i /\
          nth_error losses i = Some (batch_loss arch p_i batch) /\
          nth_error accs i = Some (batch_accuracy arch p_i batch).
Proof.
  induction batches as [|b batches IH] using rev_ind; intros pe0 L0.
  - exists [], [], w0, pe0. cbn. repeat split; auto.
    intros i batch H. destruct i; discriminate.
  - destruct (IH pe0 L0) as (losses & accs & w1 & pe1 & E1 & L1 & Hl & Ha & Hent).
    destruct (linked_linked_at w1 pe1 L1) as (p1 & LA1).
    destruct (train_batch_entries w1 pe1 p1 losses accs (List.length batches) b LA1)
      as (w' & pe' & E & L').
    assert (Henum : enumerate (batches ++ [b])
                    = enumerate batches ++ [(Z.of_nat (List.length batches), b)]).
    { unfold enumerate. rewrite enumerate_from_app. reflexivity. }
    exists (losses ++ [batch_loss arch p1 b]), (accs ++ [batch_accuracy arch p1 b]), w', pe'.
    split; [|split; [exact L'|split; [|split]]].
    + rewrite Henum, foldM_app, (bind_inr _ _ _ _ _ E1). cbn [foldM].
      rewrite (bind_inr _ _ _ _ _ E). reflexivity.
    + rewrite !length_app. cbn. lia.
    + rewrite !length_app. cbn. lia.
    + intros i batch Hi.
      assert (Hlen : List.length (enumerate batches) = List.length batches)
        by apply length_enumerate_from.
      destruct (Nat.lt_ge_cases i (List.length batches)) as [Hlt|Hge].
      * rewrite nth_error_app1 in Hi by assumption.
        destruct (Hent i batch Hi) as (locals_i & w_i & p_i & Ei & Hh & Hli & Hai).
        exists locals_i, w_i, p_i. split; [|split; [exact Hh|split]].
        -- rewrite Henum, firstn_app, Hlen.
           replace (i - List.length batches)%nat with O by lia.
           cbn [firstn]. rewrite app_nil_r. exact Ei.
        -- rewrite nth_error_app1 by lia. exact Hli.
        -- rewrite nth_error_app1 by lia. exact Hai.
      * assert (Hie : i = List.length batches).
        { apply nth_error_Some_bound_index in Hi || idtac.
          assert (Hb : (i < List.length (batches ++ [b]))%nat)
            by (apply nth_error_Some; congruence).
          rewrite length_app in Hb. cbn in Hb. lia. }
        subst i. rewrite nth_error_app2, Nat.sub_diag in Hi by lia.
        cbn in Hi. injection Hi as <-.
        exists (losses, accs), w1, p1. split; [|split; [|split]].
        -- rewrite Henum, firstn_app, Hlen, Nat.sub_diag. cbn [firstn].
           rewrite app_nil_r, <- Hlen, firstn_all. exact E1.
        -- now apply linked_at_holds with (pe := pe1).
        -- rewrite nth_error_app2, Hl, Nat.sub_diag by lia. reflexivity.
        -- rewrite nth_error_app2, Ha, Nat.sub_diag by lia. reflexivity.
Qed.

Lemma train_enter_run (w : World) pe :
  linked w model optimizer arch pe ->
  exists w_start,
    train_enter model train_loader epoch w
    = (inr (batches_at train_loader (w_rng w)), w_start) /\
    linked w_start model optimizer arch pe.
Proof.
  intros L. unfold train_enter.
  destruct (emit_linked model optimizer arch (EvCallTrain epoch) w pe L)
    as (w1 & E1 & L1 & _).
  assert (Hr1 : w_rng w1 = w_rng w).
  { destruct (emit_run (EvCallTrain epoch) w) as (w1' & E1' & _ & _ & Hr & _).
    rewrite E1 in E1'. injection E1' as <-. exact Hr. }
  rewrite (bind_inr _ _ _ _ _ E1).
  destruct (model_train_run model optimizer arch w1 pe L1) as (w2 & E2 & L2 & Hr2 & _).
  rewrite (bind_inr _ _ _ _ _ E2).
  destruct (iterate_batches_at train_loader w2) as (w3 & E3 & Hm & Ho & _).
  rewrite Hr2, Hr1 in E3. exists w3. split; [exact E3|].
  unfold linked in *. rewrite Hm, Ho. exact L2.
Qed.

Lemma train_loop_enter (device : Device) (w : World) batches w_start :
  train_enter model train_loader epoch w = (inr batches, w_start) ->
  train_loop rate model train_loader optimizer epoch device w
  = foldM (train_batch rate model train_loader optimizer epoch)
          ([], []) (enumerate batches) w_start.
Proof.
  unfold train_enter, train_loop, bind.
  destruct (emit (EvCallTrain epoch) w) as [[e|u] w1]; [discriminate|].
  destruct (model_train model w1) as [[e|u'] w2]; [discriminate|].
  intros E. rewrite E. reflexivity.
Qed.

End Entries.

(** ** The calls of the driver, one after the other *)

Section Driver.
Context {T : Torch}.
Variables (rate : Z) (model : nat) (train_loader : DataLoader)
          (optimizer : nat) (device : Device) (arch : Nn.Module).
Hypothesis rate_nonzero : rate <> 0.
Hypothesis batch_size_positive : 0 < dl_batch_size train_loader.

Lemma epochs_from_run (epochs : list Z) :
  forall (w : World) (pe : PrivacyEngine),
    linked w model optimizer arch pe ->
    exists w' segments pe',
      foldM (fun (_ : unit) (epoch : Z) =>
               train rate model train_loader optimizer (epoch + 1) device)
            tt epochs w
      = (inr tt, w') /\
      linked w' model optimizer arch pe' /\
      epochs_from rate model train_loader optimizer device arch epochs w segments w' /\
      Forall2 (fun epoch evs =>
                 epoch_trace rate (loader_len train_loader) model optimizer arch
                             (epoch + 1) evs)
              epochs segments /\
      w_trace w' = w_trace w ++ List.concat segments.
Proof.
  induction epochs as [|e epochs IH]; intros w pe L.
  - exists w, [], pe. cbn. rewrite app_nil_r. auto.
  - cbn [foldM].
    destruct (train_run rate model train_loader optimizer (e + 1) arch rate_nonzero
                        device w pe batch_size_positive L)
      as (losses & accs & w1 & E1 & El & Hl & Ha & L1 & T1).
    rewrite (bind_inr _ _ _ _ _ E1).
    destruct (IH w1 _ L1) as (w' & segments & pe' & E & L' & C & F & T').
    exists w',
      ((EvCallTrain (e + 1) :: EvModelTrain model
          :: List.concat (map (batch_block rate (loader_len train_loader) model optimizer
                                           arch (e + 1) pe losses accs)
                              (seq 0 (Z.to_nat (loader_len train_loader))))) :: segments),
      pe'.
    split; [exact E|]. split; [exact L'|]. split; [|split].
    + cbn [epochs_from]. exists w1, pe, losses, accs.
      split; [now apply linked_ready with (arch := arch) (pe := pe)|].
      destruct L as (mo & opt & Hm & Harch & Ho & Hom & He).
      split; [unfold arch_of; now rewrite Hm, <- Harch|].
      split; [unfold engine_of; now rewrite Ho|].
      auto.
    + constructor; [|exact F]. exists pe, losses, accs. auto.
    + rewrite T', T1. cbn [List.concat]. rewrite <- app_assoc. reflexivity.
Qed.

(** In a chain of calls, every epoch of the list has its call. *)
Lemma epochs_from_each (epochs : list Z) :
  forall (w : World) (segments : list (list Event)) (w_end : World),
    epochs_from rate model train_loader optimizer device arch epochs w segments w_end ->
    forall epoch, In epoch epochs ->
      exists w_e w_e' pe losses accs,
        ready w_e model optimizer = true /\
        arch_of w_e model = Some arch /\
        engine_of w_e optimizer = Some pe /\
        train_loop rate model train_loader optimizer (epoch + 1) device w_e
        = (inr (losses, accs), w_e') /\
        train rate model train_loader optimizer (epoch + 1) device w_e = (inr tt, w_e') /\
        In (EvCallTrain (epoch + 1) :: EvModelTrain model
              :: List.concat
                   (map (batch_block rate (loader_len train_loader) model optimizer arch
                                     (epoch + 1) pe losses accs)
                        (seq 0 (Z.to_nat (loader_len train_loader)))))
           segments.
Proof.
  induction epochs as [|e epochs IH]; intros w segments w_end H epoch Hin; [destruct Hin|].
  destruct segments as [|evs segments]; [destruct H|].
  cbn [epochs_from] in H.
  destruct H as (w1 & pe & losses & accs & Hr & Ha & He & El & E & Hevs & _ & Hrest).
  destruct Hin as [<-|Hin].
  - exists w, w1, pe, losses, accs. repeat split; auto. left. now symmetry.
  - destruct (IH w1 segments w_end Hrest epoch Hin)
      as (w_e & w_e' & pe' & l' & a' & H1 & H2 & H3 & H4 & H5 & H6).
    exists w_e, w_e', pe', l', a'. repeat split; auto. now right.
Qed.

End Driver.

Section NotebookCalls.
Context {T : Torch}.
Variables cifar10_train cifar10_test : list (Image * Z).

Let g : Globals := setup_globals cifar10_train cifar10_test.

Lemma notebook_calls :
  exists acc w w20 segments params,
    let batches := chunks (Z.to_nat BATCH_SIZE) cifar10_test in
    epochs_from 4 0 (g_train_loader g) 0 (g_device g) converted_resnet18
                (py_range 0 20) (setup_world cifar10_train) segments w20 /\
    training g (setup_world cifar10_train) = (inr tt, w20) /\
    holds w20 0 converted_resnet18 params /\
    test 0 (g_test_loader g) (g_device g) w20 = (inr acc, w) /\
    notebook cifar10_train cifar10_test empty_world = (inr acc, w) /\
    acc = Np.mean (map (batch_accuracy converted_resnet18 params) batches) /\
    Forall2 (fun epoch evs =>
               epoch_trace 4 (train_batches cifar10_train) 0 0 converted_resnet18
                           (epoch + 1) evs)
            (py_range 0 20) segments /\
    w_trace w
    = setup_trace ++ List.concat segments
      ++ EvCallTest :: EvModelEval 0
         :: List.repeat (EvForward 0 converted_resnet18) (List.length batches)
      ++ [EvPrint (TestLine (Np.mean (map (batch_loss converted_resnet18 params) batches))
                            (Np.scale 100 acc))].
Proof.
  destruct (epochs_from_run 4 0 (g_train_loader g) 0 (g_device g) converted_resnet18
                            ltac:(discriminate) ltac:(reflexivity) (py_range 0 20)
                            (setup_world cifar10_train) (notebook_engine cifar10_train)
                            (setup_world_linked cifar10_train))
    as (w20 & segments & pe' & E1 & L1 & C & F & T1).
  destruct (linked_holds 0 converted_resnet18 w20 0 _ L1) as (params & H1).
  destruct (test_run 0 converted_resnet18 params (g_test_loader g) (g_device g) w20 H1)
    as (w & E & Tr).
  exists (Np.mean (map (batch_accuracy converted_resnet18 params)
                       (chunks (Z.to_nat BATCH_SIZE) cifar10_test))),
    w, w20, segments, params.
  split; [exact C|]. split; [exact E1|]. split; [exact H1|]. split; [exact E|].
  split; [|split; [reflexivity|split; [exact F|]]].
  - unfold notebook.
    rewrite (bind_inr _ _ _ _ _ (setup_run cifar10_train cifar10_test)).
    change (training (setup_globals cifar10_train cifar10_test)) with (training g).
    rewrite (bind_inr _ _ _ _ _ E1). exact E.
  - rewrite Tr, T1, <- app_assoc. reflexivity.
Qed.

End NotebookCalls.

(** ** Standard output *)

Section Lines.
Context {T : Torch}.
Variables (rate n : Z) (model optimizer : nat) (arch : Nn.Module).

Lemma block_lines epoch pe losses accs i :
  lines (batch_block rate n model optimizer arch epoch pe losses accs i)
  = if reports i then [report_line rate n epoch pe losses accs i] else [].
Proof.
  unfold lines, batch_block, reports. rewrite flat_map_app.
  destruct (Z.of_nat i mod 200 =? 0), (real_step rate n i); reflexivity.
Qed.

Lemma blocks_lines epoch pe losses accs (l : list nat) :
  lines (List.concat (map (batch_block rate n model optimizer arch epoch pe losses accs) l))
  = map (report_line rate n epoch pe losses accs) (filter reports l).
Proof.
  unfold lines. rewrite flat_map_concat_map.
  induction l as [|i l IH]; [reflexivity|].
  cbn [map List.concat filter]. rewrite IH.
  fold (lines (batch_block rate n model optimizer arch epoch pe losses accs i)).
  rewrite block_lines. destruct (reports i); reflexivity.
Qed.

Lemma epoch_lines epoch evs :
  epoch_trace rate n model optimizer arch epoch evs ->
  Forall (train_line_of epoch) (lines evs) /\
  (0 < n -> exists l, In l (lines evs)).
Proof.
  intros (pe & losses & accs & _ & _ & ->).
  change (lines (EvCallTrain epoch :: EvModelTrain model :: ?l)) with (lines l).
  rewrite blocks_lines. split.
  - apply Forall_map, Forall_forall. intros i _. unfold report_line, train_line_of.
    eauto.
  - intros Hn. replace (Z.to_nat n) with (S (Z.to_nat (n - 1))) by lia.
    cbn [seq filter]. change (reports 0) with true. cbn [map]. eexists. left. reflexivity.
Qed.

Lemma segments_lines (epochs : list Z) (segments : list (list Event)) :
  Forall2 (fun epoch evs => epoch_trace rate n model optimizer arch (epoch + 1) evs)
          epochs segments ->
  Forall (fun l => is_train_line l = true) (lines (List.concat segments)) /\
  (0 < n -> forall epoch, In epoch epochs ->
            exists l, train_line_of (epoch + 1) l /\ In l (lines (List.concat segments))).
Proof.
  induction 1 as [|e evs epochs segments H _ IH].
  - split; [constructor|]. intros _ epoch [].
  - cbn [List.concat]. unfold lines in *. rewrite flat_map_app.
    destruct (epoch_lines _ _ H) as [Hall Hex]. destruct IH as [IHall IHex].
    unfold lines in *. split.
    + apply Forall_app. split; [|exact IHall].
      eapply Forall_impl; [|exact Hall]. intros l (loss & acc & eps & ->). reflexivity.
    + intros Hn epoch [<-|Hin].
      * destruct (Hex Hn) as (l & Hl). exists l. split.
        -- rewrite Forall_forall in Hall. now apply Hall.
        -- apply in_or_app. now left.
      * destruct (IHex Hn epoch Hin) as (l & Hl & Hin'). exists l. split; [exact Hl|].
        apply in_or_app. now right.
Qed.

End Lines.

Lemma train_batches_positive {T : Torch} (cifar10_train : list (Image * Z)) :
  cifar10_train <> [] -> 0 < train_batches cifar10_train.
Proof.
  intros H. unfold train_batches, loader_len. cbn [dl_dataset dl_batch_size].
  destruct cifar10_train as [|x l]; [contradiction|]. cbn [List.length].
  unfold BATCH_SIZE. apply Z.div_str_pos. lia.
Qed.

Lemma in_py_range (lo hi x : Z) : lo <= x < hi -> In x (py_range lo hi).
Proof.
  intros H. unfold py_range. apply in_map_iff. exists (Z.to_nat (x - lo)).
  split; [lia|]. apply in_seq. lia.
Qed.

Lemma lines_of_segment (segments : list (list Event)) (evs : list Event) (l : Line) :
  In evs segments -> In l (lines evs) -> In l (lines (List.concat segments)).
Proof.
  intros Hs Hl. unfold lines in *. apply in_flat_map in Hl. destruct Hl as (e & He & Hl).
  apply in_flat_map. exists e. split; [|exact Hl].
  apply in_concat. exists evs. auto.
Qed.

(** C5.  Within [train] a report line is printed on exactly the batches
    of 0-based index [i] with [i % 200 == 0]: the events of an epoch
    are those of its batches in order, the events of batch [i] contain
    one printed line when [i % 200 == 0] and none otherwise.  Entry [i]
    of [losses] is the loss, and entry [i] of [top1_acc] the accuracy,
    on batch [i] of the model as it stands when the first [i] batches
    have been processed; the line of batch [i] carries the epoch
    number, the mean of the first [i + 1] losses, 100 times the mean
    of the first [i + 1] accuracies, and the budget (epsilon, DELTA)
    the engine reports at that moment.  In a run of the notebook on a
    training set that is not empty the calls of [train] follow one
    another from the world the first cells leave; every epoch from 1
    to 20 prints the line of its batch 0, with the values of its own
    call; and after the training lines one test line is printed, with
    the mean test loss and 100 times the accuracy that [test]
    returns. *)
Theorem report_lines (T : Torch) (virtual_batch_rate : Z)
    (model : nat) (train_loader : DataLoader) (optimizer : nat) (epoch : Z)
    (device : Device) (w : World)
    (cifar10_train cifar10_test : list (Image * Z)) :
  virtual_batch_rate <> 0 ->
  0 < dl_batch_size train_loader ->
  ready w model optimizer = true ->
  cifar10_train <> [] ->
  (exists losses accs w' pe0 arch batches w_start,
      let n := loader_len train_loader in
      let block :=
        batch_block virtual_batch_rate n model optimizer arch epoch pe0 losses accs in
      train_loop virtual_batch_rate model train_loader optimizer epoch device w
      = (inr (losses, accs), w') /\
      train virtual_batch_rate model train_loader optimizer epoch device w
      = (inr tt, w') /\
      List.length losses = Z.to_nat n /\ List.length accs = Z.to_nat n /\
      engine_of w optimizer = Some pe0 /\
      arch_of w model = Some arch /\
      (* the batches of the epoch and the entries of the two lists *)
      train_enter model train_loader epoch w = (inr batches, w_start) /\
      batches = batches_at train_loader (w_rng w) /\
      List.length batches = Z.to_nat n /\
      (forall (i : nat) (batch : list (Image * Z)),
          nth_error batches i = Some batch ->
          exists locals_i w_i params_i,
            foldM (train_batch virtual_batch_rate model train_loader optimizer epoch)
                  ([], []) (firstn i (enumerate batches)) w_start
            = (inr locals_i, w_i) /\
            holds w_i model arch params_i /\
            nth_error losses i = Some (batch_loss arch params_i batch) /\
            nth_error accs i = Some (batch_accuracy arch params_i batch)) /\
      (* the events and the lines *)
      new_events w w'
      = EvCallTrain epoch :: EvModelTrain model
        :: List.concat (map block (seq 0 (Z.to_nat n))) /\
      (forall i : nat,
          lines (block i)
          = if Z.of_nat i mod 200 =? 0
            then [ TrainLine epoch
                     (Np.mean (firstn (S i) losses))
                     (Np.scale 100 (Np.mean (firstn (S i) accs)))
                     (fst (get_privacy_spent
                             (Nat.iter (count_real virtual_batch_rate n (S i))
                                       pe_count_step pe0) DELTA))
                     DELTA ]
            else []) /\
      lines (new_events w w')
      = map (report_line virtual_batch_rate n epoch pe0 losses accs)
            (filter (fun i => Z.of_nat i mod 200 =? 0) (seq 0 (Z.to_nat n)))) /\
  (exists acc w' w20 segments params train_lines,
      let batches := chunks (Z.to_nat BATCH_SIZE) cifar10_test in
      let loader := {| dl_dataset := cifar10_train; dl_batch_size := BATCH_SIZE;
                       dl_shuffle := true |} in
      notebook cifar10_train cifar10_test empty_world = (inr acc, w') /\
      acc = Np.mean (map (batch_accuracy converted_resnet18 params) batches) /\
      epochs_from 4 0 loader 0 notebook_device converted_resnet18
                  [0; 1; 2; 3; 4; 5; 6; 7; 8; 9; 10; 11; 12; 13; 14; 15; 16; 17; 18; 19]
                  (setup_world cifar10_train) segments w20 /\
      train_lines = lines (List.concat segments) /\
      lines (w_trace w')
      = [ValidLine true; SigmaLine NOISE_MULTIPLIER MAX_GRAD_NORM]
        ++ train_lines
        ++ [TestLine (Np.mean (map (batch_loss converted_resnet18 params) batches))
                     (Np.scale 100 acc)] /\
      Forall (fun l => is_train_line l = true) train_lines /\
      forall e, 1 <= e <= 20 ->
        exists w_e w_e' pe_e losses_e accs_e,
          ready w_e 0 0 = true /\
          arch_of w_e 0 = Some converted_resnet18 /\
          engine_of w_e 0 = Some pe_e /\
          train_loop 4 0 loader 0 e notebook_device w_e = (inr (losses_e, accs_e), w_e') /\
          In (TrainLine e
                (Np.mean (firstn 1 losses_e))
                (Np.scale 100 (Np.mean (firstn 1 accs_e)))
                (fst (get_privacy_spent
                        (Nat.iter (count_real 4 (loader_len loader) 1) pe_count_step pe_e)
                        DELTA))
                DELTA)
             train_lines).
Proof.
  intros Hr Hb Hready Hne. split.
  - destruct (ready_linked w model optimizer Hready) as (arch & pe & L).
    destruct (train_run virtual_batch_rate model train_loader optimizer epoch arch Hr
                        device w pe Hb L)
      as (losses & accs & w' & E & El & Hl & Ha & _ & Tr).
    destruct (train_enter_run model train_loader optimizer epoch arch w pe L)
      as (w_start & Eenter & Lstart).
    destruct (train_batches_entries virtual_batch_rate model train_loader optimizer epoch
                                    arch Hr w_start (batches_at train_loader (w_rng w))
                                    pe Lstart)
      as (losses' & accs' & w'' & pe'' & Eloop & _ & Hl' & _ & Hent).
    rewrite (train_loop_enter virtual_batch_rate model train_loader optimizer epoch
                              device w _ _ Eenter) in El.
    rewrite Eloop in El. injection El as -> -> ->.
    exists losses, accs, w', pe, arch, (batches_at train_loader (w_rng w)), w_start.
    cbv zeta.
    split.
    { rewrite (train_loop_enter virtual_batch_rate model train_loader optimizer epoch
                                device w _ _ Eenter). exact Eloop. }
    split; [exact E|]. split; [exact Hl|]. split; [exact Ha|].
    split.
    { destruct L as (mo & opt & _ & _ & Ho & _ & He). unfold engine_of.
      now rewrite Ho. }
    split.
    { destruct L as (mo & opt & Hm & Harch & _). unfold arch_of.
      now rewrite Hm, <- Harch. }
    split; [exact Eenter|]. split; [reflexivity|].
    split; [now rewrite <- Hl', Hl|]. split; [exact Hent|].
    rewrite (new_events_app w w' _ Tr). split; [reflexivity|]. split.
    + intros i. apply block_lines.
    + change (lines (EvCallTrain epoch :: EvModelTrain model :: ?l)) with (lines l).
      apply blocks_lines.
  - destruct (notebook_calls cifar10_train cifar10_test)
      as (acc & w' & w20 & segments & params & C & _ & _ & _ & E & Hacc & F & Tr).
    cbv zeta in Tr.
    exists acc, w', w20, segments, params, (lines (List.concat segments)). cbv zeta.
    split; [exact E|]. split; [exact Hacc|]. split; [exact C|]. split; [reflexivity|].
    destruct (segments_lines _ _ _ _ _ _ _ F) as [Hall _].
    split; [|split; [exact Hall|]].
    + rewrite Tr. unfold lines. rewrite !flat_map_app.
      cbn [flat_map setup_trace app].
      rewrite flat_map_app, flat_map_repeat_nil by reflexivity.
      reflexivity.
    + intros e He.
      destruct (epochs_from_each 4 0 _ 0 _ converted_resnet18 _ _ _ _ C (e - 1))
        as (w_e & w_e' & pe_e & losses_e & accs_e & H1 & H2 & H3 & H4 & _ & Hseg).
      { apply (in_py_range 0 20). lia. }
      replace (e - 1 + 1) with e in * by lia.
      exists w_e, w_e', pe_e, losses_e, accs_e.
      split; [exact H1|]. split; [exact H2|]. split; [exact H3|]. split; [exact H4|].
      eapply lines_of_segment; [exact Hseg|].
      change (lines (EvCallTrain e :: EvModelTrain 0 :: ?l)) with (lines l).
      rewrite blocks_lines.
      pose proof (train_batches_positive cifar10_train Hne) as Hpos.
      apply (in_map (report_line 4 _ e pe_e losses_e accs_e) _ 0%nat).
      apply filter_In. split; [|reflexivity].
      apply in_seq. change (loader_len _) with (train_batches cifar10_train). lia.
Qed.

(** One epoch over five samples in batches of two from the world the
    first cells leave, and the whole notebook on the five samples. *)
Lemma report_lines_witness :
  (exists losses accs w' pe0 arch batches w_start,
      let n := loader_len toy_loader in
      let block := batch_block (T := toy_torch) 2 n 0 0 arch 1 pe0 losses accs in
      train_loop (T := toy_torch) 2 0%nat toy_loader 0%nat 1 Cpu toy_world
      = (inr (losses, accs), w') /\
      train (T := toy_torch) 2 0%nat toy_loader 0%nat 1 Cpu toy_world = (inr tt, w') /\
      List.length losses = Z.to_nat n /\ List.length accs = Z.to_nat n /\
      engine_of toy_world 0 = Some pe0 /\
      arch_of toy_world 0 = Some arch /\
      train_enter (T := toy_torch) 0 toy_loader 1 toy_world = (inr batches, w_start) /\
      batches = batches_at toy_loader (w_rng toy_world) /\
      List.length batches = Z.to_nat n /\
      (forall (i : nat) (batch : list (Z * Z)),
          nth_error batches i = Some batch ->
          exists locals_i w_i params_i,
            foldM (train_batch (T := toy_torch) 2 0%nat toy_loader 0%nat 1)
                  ([], []) (firstn i (enumerate batches)) w_start
            = (inr locals_i, w_i) /\
            holds w_i 0 arch params_i /\
            nth_error losses i = Some (batch_loss (T := toy_torch) arch params_i batch) /\
            nth_error accs i = Some (batch_accuracy (T := toy_torch) arch params_i batch)) /\
      new_events toy_world w'
      = EvCallTrain 1 :: EvModelTrain 0 :: List.concat (map block (seq 0 (Z.to_nat n))) /\
      (forall i : nat,
          lines (block i)
          = if Z.of_nat i mod 200 =? 0
            then [ TrainLine 1
                     (Np.mean (firstn (S i) losses))
                     (Np.scale 100 (Np.mean (firstn (S i) accs)))
                     (fst (get_privacy_spent
                             (Nat.iter (count_real 2 n (S i)) pe_count_step pe0) DELTA))
                     DELTA ]
            else []) /\
      lines (new_events toy_world w')
      = map (report_line (T := toy_torch) 2 n 1 pe0 losses accs)
            (filter (fun i => Z.of_nat i mod 200 =? 0) (seq 0 (Z.to_nat n)))) /\
  (exists acc w' w20 segments params train_lines,
      let batches := chunks (Z.to_nat BATCH_SIZE) toy_dataset in
      let loader := {| dl_dataset := toy_dataset; dl_batch_size := BATCH_SIZE;
                       dl_shuffle := true |} in
      notebook (T := toy_torch) toy_dataset toy_dataset empty_world = (inr acc, w') /\
      acc = Np.mean (map (batch_accuracy (T := toy_torch) converted_resnet18 params) batches) /\
      epochs_from (T := toy_torch) 4 0 loader 0 notebook_device converted_resnet18
                  [0; 1; 2; 3; 4; 5; 6; 7; 8; 9; 10; 11; 12; 13; 14; 15; 16; 17; 18; 19]
                  (setup_world toy_dataset) segments w20 /\
      train_lines = lines (List.concat segments) /\
      lines (w_trace w')
      = [ValidLine true; SigmaLine NOISE_MULTIPLIER MAX_GRAD_NORM]
        ++ train_lines
        ++ [TestLine (Np.mean (map (batch_loss (T := toy_torch) converted_resnet18 params)
                                   batches))
                     (Np.scale 100 acc)] /\
      Forall (fun l => is_train_line l = true) train_lines /\
      forall e, 1 <= e <= 20 ->
        exists w_e w_e' pe_e losses_e accs_e,
          ready w_e 0 0 = true /\
          arch_of w_e 0 = Some converted_resnet18 /\
          engine_of w_e 0 = Some pe_e /\
          train_loop (T := toy_torch) 4 0 loader 0 e notebook_device w_e
          = (inr (losses_e, accs_e), w_e') /\
          In (TrainLine e
                (Np.mean (firstn 1 losses_e))
                (Np.scale 100 (Np.mean (firstn 1 accs_e)))
                (fst (get_privacy_spent (Torch := toy_torch)
                        (Nat.iter (count_real 4 (loader_len loader) 1) pe_count_step pe_e)
                        DELTA))
                DELTA)
             train_lines).
Proof.
  apply (report_lines toy_torch 2 0%nat toy_loader 0%nat 1 Cpu toy_world
                      toy_dataset toy_dataset).
  - discriminate.
  - reflexivity.
  - vm_compute. reflexivity.
  - discriminate.
Defined.

(** ** The driver *)

(** C6.  The driver calls [train] exactly 20 times, with the epoch
    numbers 1 to 20 in increasing order: for [epoch] from 0 to 19 the
    call [train(model, train_loader, optimizer, epoch + 1, device)]
    starts in the world the previous call left (the first in the world
    the cells before it leave) and returns.  Then it calls [test]
    exactly once, as [test(model, test_loader, device)] in the world
    the last epoch leaves: the loader of that call is the one over the
    test dataset, the run of the notebook ends with what that call
    returns, which is the mean of the accuracies over the batches of
    the test dataset, and the events of that call are [model.eval()],
    one forward pass per test batch and the printed line. *)
Theorem driver_calls (T : Torch) (cifar10_train cifar10_test : list (Image * Z)) :
  exists g w0 segments w20 acc w params,
    setup cifar10_train cifar10_test empty_world = (inr g, w0) /\
    g_train_loader g = {| dl_dataset := cifar10_train; dl_batch_size := BATCH_SIZE;
                          dl_shuffle := true |} /\
    g_test_loader g = {| dl_dataset := cifar10_test; dl_batch_size := BATCH_SIZE;
                         dl_shuffle := false |} /\
    epochs_from (g_virtual_batch_rate g) (g_model g) (g_train_loader g) (g_optimizer g)
                (g_device g) converted_resnet18
                [0; 1; 2; 3; 4; 5; 6; 7; 8; 9; 10; 11; 12; 13; 14; 15; 16; 17; 18; 19]
                w0 segments w20 /\
    training g w0 = (inr tt, w20) /\
    test (g_model g) (g_test_loader g) (g_device g) w20 = (inr acc, w) /\
    notebook cifar10_train cifar10_test empty_world = (inr acc, w) /\
    holds w20 (g_model g) converted_resnet18 params /\
    acc = Np.mean (map (batch_accuracy converted_resnet18 params)
                       (batches_at (g_test_loader g) (w_rng w20))) /\
    batches_at (g_test_loader g) (w_rng w20) = chunks (Z.to_nat BATCH_SIZE) cifar10_test /\
    new_events w20 w
    = EvCallTest :: EvModelEval (g_model g)
      :: List.repeat (EvForward (g_model g) converted_resnet18)
                     (List.length (chunks (Z.to_nat BATCH_SIZE) cifar10_test))
      ++ [EvPrint (TestLine
                     (Np.mean (map (batch_loss converted_resnet18 params)
                                   (chunks (Z.to_nat BATCH_SIZE) cifar10_test)))
                     (Np.scale 100 acc))] /\
    calls (w_trace w)
    = map EvCallTrain [1; 2; 3; 4; 5; 6; 7; 8; 9; 10;
                       11; 12; 13; 14; 15; 16; 17; 18; 19; 20]
      ++ [EvCallTest].
Proof.
  destruct (notebook_calls cifar10_train cifar10_test)
    as (acc & w & w20 & segments & params & C & Etr & Hh & Etest & E & Hacc & F & Tr).
  cbv zeta in Tr.
  exists (setup_globals cifar10_train cifar10_test), (setup_world cifar10_train),
    segments, w20, acc, w, params.
  split; [apply setup_run|]. split; [reflexivity|]. split; [reflexivity|].
  split; [exact C|]. split; [exact Etr|]. split; [exact Etest|]. split; [exact E|].
  split; [exact Hh|]. split; [exact Hacc|]. split; [reflexivity|].
  split.
  - destruct (test_run 0 converted_resnet18 params
                       (g_test_loader (setup_globals cifar10_train cifar10_test))
                       (g_device (setup_globals cifar10_train cifar10_test)) w20 Hh)
      as (w' & E' & Tr').
    cbv zeta in E', Tr'. rewrite Etest in E'. injection E' as Ea Ew. subst w'.
    apply new_events_app. rewrite Tr', Hacc. reflexivity.
  - rewrite Tr. unfold calls. rewrite !filter_app.
    fold (calls (List.concat segments)).
    rewrite (segments_calls _ _ _ _ _ _ _ F).
    cbn [filter is_call setup_trace app].
    rewrite filter_app, filter_repeat_false by reflexivity.
    reflexivity.
Qed.

(** ** The accuracy helper *)

Lemma zip_eqb_length (a b : list Z) :
  List.length a = List.length b -> List.length (Np.zip_eqb a b) = List.length a.
Proof.
  revert b; induction a as [|x a IH]; intros [|y b] H; simpl in *; try discriminate; auto.
Qed.

Lemma count_true_zip_eqb (a b : list Z) :
  Np.count_true (Np.zip_eqb a b) = agreements a b.
Proof.
  revert b; induction a as [|x a IH]; intros [|y b]; try reflexivity.
  unfold Np.count_true in *. cbn [Np.zip_eqb filter agreements].
  rewrite <- IH. destruct (x =? y); reflexivity.
Qed.

Lemma count_true_le (l : list bool) : (Np.count_true l <= List.length l)%nat.
Proof. apply filter_length_le. Qed.

Lemma agreements_refl (x : list Z) : agreements x x = List.length x.
Proof.
  induction x as [|a x IH]; [reflexivity|].
  cbn [agreements List.length]. now rewrite Z.eqb_refl, IH.
Qed.

Lemma mean_bool_nonempty (l : list bool) :
  l <> [] ->
  Np.mean_bool l
  = Np.Fin (Qred (inject_Z (Z.of_nat (Np.count_true l))
                  / inject_Z (Z.of_nat (List.length l)))).
Proof.
  intros H. unfold Np.mean_bool, Np.div_count, Np.of_Q.
  destruct l; [contradiction|reflexivity].
Qed.

Lemma ratio_in_unit_interval (c n : nat) :
  (c <= n)%nat -> (0 < n)%nat ->
  Np.in_unit_interval (Np.Fin (Qred (inject_Z (Z.of_nat c) / inject_Z (Z.of_nat n)))).
Proof.
  intros Hc Hn. cbn [Np.in_unit_interval]. rewrite Qred_correct.
  assert (Hpos : (0 < inject_Z (Z.of_nat n))%Q).
  { change 0%Q with (inject_Z 0). rewrite <- Zlt_Qlt. lia. }
  split.
  - apply Qle_shift_div_l; [exact Hpos|]. rewrite Qmult_0_l.
    change 0%Q with (inject_Z 0). rewrite <- Zle_Qle. lia.
  - apply Qle_shift_div_r; [exact Hpos|]. rewrite Qmult_1_l.
    rewrite <- Zle_Qle. lia.
Qed.

(** C8, as the code has it.  On two arrays of one length that are not
    empty, [accuracy] returns the number of positions at which they
    agree divided by the length, a value in [0, 1], and
    [accuracy(preds, preds)] is 1.  (On two empty arrays it returns
    NaN: see [accuracy_of_empty_arrays].) *)
Theorem accuracy_nonempty (preds labels : list Z) :
  List.length preds = List.length labels ->
  preds <> [] ->
  accuracy preds labels
  = inr (Np.Fin (Qred (inject_Z (Z.of_nat (agreements preds labels))
                       / inject_Z (Z.of_nat (List.length preds))))) /\
  (exists a, accuracy preds labels = inr a /\ Np.in_unit_interval a) /\
  accuracy preds preds = inr (Np.Fin 1).
Proof.
  intros Hlen Hne.
  assert (Hz : forall b, List.length preds = List.length b -> Np.zip_eqb preds b <> []).
  { intros b Hb E. apply (f_equal (@List.length bool)) in E.
    rewrite zip_eqb_length in E by assumption.
    destruct preds; [contradiction|discriminate]. }
  assert (Hpos : (0 < List.length preds)%nat).
  { destruct preds; [contradiction|simpl; lia]. }
  assert (E : accuracy preds labels
              = inr (Np.Fin (Qred (inject_Z (Z.of_nat (agreements preds labels))
                                   / inject_Z (Z.of_nat (List.length preds)))))).
  { rewrite accuracy_same_length, mean_bool_nonempty by auto.
    now rewrite count_true_zip_eqb, zip_eqb_length. }
  split; [exact E|]. split.
  - eexists. split; [exact E|]. apply ratio_in_unit_interval; [|exact Hpos].
    rewrite <- count_true_zip_eqb, <- (zip_eqb_length preds labels Hlen).
    apply count_true_le.
  - rewrite accuracy_same_length, mean_bool_nonempty by auto.
    rewrite count_true_zip_eqb, zip_eqb_length, agreements_refl by reflexivity.
    do 2 f_equal. change 1%Q with (Qred 1). apply Qred_complete.
    apply Qmult_inv_r. intros H.
    apply (Qlt_irrefl 0). rewrite <- H at 2.
    change 0%Q with (inject_Z 0). rewrite <- Zlt_Qlt. lia.
Qed.

Lemma accuracy_nonempty_witness :
  accuracy [1; 2; 3] [1; 5; 3]
  = inr (Np.Fin (Qred (inject_Z (Z.of_nat (agreements [1; 2; 3] [1; 5; 3]))
                       / inject_Z (Z.of_nat (List.length [1; 2; 3]))))) /\
  (exists a, accuracy [1; 2; 3] [1; 5; 3] = inr a /\ Np.in_unit_interval a) /\
  accuracy [1; 2; 3] [1; 2; 3] = inr (Np.Fin 1).
Proof.
  apply (accuracy_nonempty [1; 2; 3] [1; 5; 3]).
  - reflexivity.
  - discriminate.
Defined.

(** C8 as stated fails on the empty arrays: they have one length, and
    the result is NaN, which is not in [0, 1]. *)
Lemma accuracy_of_empty_arrays :
  accuracy [] [] = inr Np.NaN /\
  ~ (forall preds labels : list Z,
        List.length preds = List.length labels ->
        exists a, accuracy preds labels = inr a /\ Np.in_unit_interval a).
Proof.
  split; [reflexivity|].
  intros H. destruct (H [] [] eq_refl) as (a & E & Hin).
  cbv in E. injection E as <-. exact Hin.
Qed.

(** ** Batches and their sizes *)

Section Chunks.
Context {A : Type}.
Variable size : nat.
Hypothesis size_positive : (0 < size)%nat.

Lemma chunks_fuel_irrelevant (fuel1 : nat) :
  forall (fuel2 : nat) (l : list A),
    (List.length l <= fuel1)%nat -> (List.length l <= fuel2)%nat ->
    chunks_fuel fuel1 size l = chunks_fuel fuel2 size l.
Proof.
  induction fuel1 as [|fuel1 IH]; intros fuel2 l H1 H2.
  - destruct l; [|simpl in H1; lia]. destruct fuel2; reflexivity.
  - destruct l as [|x l]; [destruct fuel2; reflexivity|].
    destruct fuel2 as [|fuel2]; [simpl in H2; lia|].
    cbn [chunks_fuel]. f_equal. cbn [List.length] in H1, H2.
    apply IH; rewrite length_skipn; cbn [List.length]; lia.
Qed.

Lemma chunks_fuel_enough (fuel : nat) (l : list A) :
  (List.length l <= fuel)%nat -> chunks_fuel fuel size l = chunks size l.
Proof.
  intros H. unfold chunks. apply chunks_fuel_irrelevant; lia.
Qed.

Lemma chunks_step (l : list A) :
  l <> [] -> chunks size l = firstn size l :: chunks size (skipn size l).
Proof.
  intros H. destruct l as [|x l]; [contradiction|].
  unfold chunks at 1. cbn [chunks_fuel List.length]. f_equal.
  apply chunks_fuel_enough. rewrite length_skipn. cbn [List.length]. lia.
Qed.

(** Induction over the batches of a list. *)
Lemma chunks_ind (P : list A -> list (list A) -> Prop) :
  P [] [] ->
  (forall l, l <> [] -> P (skipn size l) (chunks size (skipn size l)) ->
             P l (firstn size l :: chunks size (skipn size l))) ->
  forall l, P l (chunks size l).
Proof.
  intros Hnil Hstep l.
  remember (List.length l) as m eqn:Hm. revert l Hm.
  induction m as [m IH] using lt_wf_ind. intros l Hm.
  destruct l as [|x l]; [exact Hnil|].
  rewrite chunks_step by discriminate.
  apply Hstep; [discriminate|].
  apply (IH (List.length (skipn size (x :: l)))); [|reflexivity].
  subst m. rewrite length_skipn. cbn [List.length]. lia.
Qed.

Lemma chunks_concat (l : list A) : List.concat (chunks size l) = l.
Proof.
  apply (chunks_ind (fun l cs => List.concat cs = l)); [reflexivity|].
  intros l0 _ IH. cbn [List.concat]. rewrite IH. apply firstn_skipn.
Qed.

Lemma chunks_nonempty (l : list A) : Forall (fun b => b <> []) (chunks size l).
Proof.
  apply (chunks_ind (fun _ cs => Forall (fun b => b <> []) cs)); [constructor|].
  intros l0 Hl IH. constructor; [|exact IH].
  destruct l0; [contradiction|]. destruct size; [lia|discriminate].
Qed.

Lemma chunks_bounded (l : list A) :
  Forall (fun b => (List.length b <= Nat.min size (List.length l))%nat) (chunks size l).
Proof.
  apply (chunks_ind
           (fun l cs => Forall (fun b => (List.length b <= Nat.min size (List.length l))%nat) cs));
    [constructor|].
  intros l0 _ IH. constructor.
  - rewrite length_firstn. lia.
  - eapply Forall_impl; [|exact IH]. cbv beta. intros b Hb.
    rewrite length_skipn in Hb. lia.
Qed.

Lemma chunks_elements (P : A -> Prop) (l : list A) :
  Forall P l -> Forall (Forall P) (chunks size l).
Proof.
  apply (chunks_ind (fun l cs => Forall P l -> Forall (Forall P) cs)); [constructor|].
  intros l0 _ IH H. constructor.
  - rewrite <- (firstn_skipn size l0) in H. apply Forall_app in H. tauto.
  - apply IH. rewrite <- (firstn_skipn size l0) in H. apply Forall_app in H. tauto.
Qed.

Lemma skipn_repeat (B : Type) (b : B) (k j : nat) :
  skipn k (List.repeat b j) = List.repeat b (j - k).
Proof.
  revert j; induction k as [|k IH]; intros j.
  - now rewrite Nat.sub_0_r.
  - destruct j as [|j]; [reflexivity|]. cbn [List.repeat skipn]. apply IH.
Qed.

End Chunks.

Lemma chunks_lengths {A : Type} (size : nat) (l : list A) :
  (0 < size)%nat ->
  map (@List.length A) (chunks size l) = batch_sizes size (List.length l).
Proof.
  intros Hs. unfold batch_sizes.
  apply (chunks_ind size Hs
           (fun l cs => map (@List.length A) cs
                        = map (@List.length unit)
                              (chunks size (List.repeat tt (List.length l))))).
  - reflexivity.
  - intros l0 Hl IH.
    rewrite (chunks_step size Hs (List.repeat tt (List.length l0)))
      by (destruct l0; [contradiction|discriminate]).
    cbn [map]. f_equal.
    + now rewrite !length_firstn, repeat_length.
    + rewrite IH, skipn_repeat, length_skipn. reflexivity.
Qed.

(** ** Means of accuracies *)

Lemma QN_add (a b : nat) : (QN (a + b) == QN a + QN b)%Q.
Proof. unfold QN. now rewrite Nat2Z.inj_add, inject_Z_plus. Qed.

Lemma QN_mul (a b : nat) : (QN (a * b) == QN a * QN b)%Q.
Proof. unfold QN. now rewrite Nat2Z.inj_mul, inject_Z_mult. Qed.

Lemma QN_nonzero (a : nat) : (0 < a)%nat -> ~ (QN a == 0)%Q.
Proof.
  intros Ha H. unfold QN in H. change 0%Q with (inject_Z 0) in H.
  rewrite inject_Z_injective in H. lia.
Qed.

Lemma QN_inj (a b : nat) : (QN a == QN b)%Q -> a = b.
Proof. unfold QN. intros H. rewrite inject_Z_injective in H. lia. Qed.

Lemma Fin_Qred_inj (a b : Q) : Np.Fin (Qred a) = Np.Fin (Qred b) -> (a == b)%Q.
Proof.
  intros H. injection H as H.
  rewrite <- (Qred_correct a), <- (Qred_correct b), H. reflexivity.
Qed.

Lemma Fin_Qred_eq (a b : Q) : (a == b)%Q -> Np.Fin (Qred a) = Np.Fin (Qred b).
Proof. intros H. f_equal. now apply Qred_complete. Qed.

Lemma sum_from {B : Type} (f : B -> Q) (l : list B) :
  forall a : Q,
    fold_left Np.add (map (fun b => Np.Fin (Qred (f b))) l) (Np.Fin (Qred a))
    = Np.Fin (Qred (a + Qsum (map f l))).
Proof.
  induction l as [|b l IH]; intros a.
  - cbn [map fold_left Qsum]. apply Fin_Qred_eq. now rewrite Qplus_0_r.
  - cbn [map fold_left Qsum Np.add]. unfold Np.of_Q. rewrite IH.
    apply Fin_Qred_eq. rewrite !Qred_correct. ring.
Qed.

Lemma sum_fin {B : Type} (f : B -> Q) (l : list B) :
  Np.sum (map (fun b => Np.Fin (Qred (f b))) l) = Np.Fin (Qred (Qsum (map f l))).
Proof.
  unfold Np.sum. change (Np.Fin 0) with (Np.Fin (Qred 0)). rewrite sum_from.
  apply Fin_Qred_eq. ring.
Qed.

Lemma mean_fin {B : Type} (f : B -> Q) (l : list B) :
  l <> [] ->
  Np.mean (map (fun b => Np.Fin (Qred (f b))) l)
  = Np.Fin (Qred (Qsum (map f l) / QN (List.length l))).
Proof.
  intros H. unfold Np.mean. rewrite sum_fin, length_map.
  destruct l as [|b l]; [contradiction|].
  cbn [List.length Np.div_count Np.of_Q]. apply Fin_Qred_eq.
  now rewrite Qred_correct.
Qed.

Lemma Qsum_scaled {B : Type} (f : B -> Q) (k : Q) (l : list B) :
  ~ (k == 0)%Q ->
  (Qsum (map (fun b => f b / k) l) == Qsum (map f l) / k)%Q.
Proof.
  intros Hk. induction l as [|b l IH]; cbn [map Qsum].
  - field. exact Hk.
  - rewrite IH. field. exact Hk.
Qed.

Section Accuracy.
Context {T : Torch}.
Variables (arch : Nn.Module) (params : Params).

Lemma zip_eqb_hits (batch : list (Image * Z)) :
  Np.zip_eqb (map Np.argmax (map (forward arch params) (map fst batch))) (map snd batch)
  = map (hit arch params) batch.
Proof. induction batch as [|s batch IH]; [reflexivity|]. cbn. now rewrite IH. Qed.

Lemma count_true_map {B : Type} (p : B -> bool) (l : list B) :
  Np.count_true (map p l) = List.length (filter p l).
Proof.
  unfold Np.count_true. induction l as [|b l IH]; [reflexivity|].
  cbn [map filter]. unfold id at 1. destruct (p b); cbn [List.length]; now rewrite IH.
Qed.

Lemma batch_accuracy_ratio (batch : list (Image * Z)) :
  batch <> [] ->
  batch_accuracy arch params batch = Np.Fin (Qred (ratio arch params batch)).
Proof.
  intros H. unfold batch_accuracy. rewrite zip_eqb_hits, mean_bool_nonempty.
  - now rewrite count_true_map, length_map.
  - destruct batch; [contradiction|discriminate].
Qed.

Lemma correct_le (batch : list (Image * Z)) :
  (correct arch params batch <= List.length batch)%nat.
Proof. apply filter_length_le. Qed.

Lemma correct_app (b1 b2 : list (Image * Z)) :
  correct arch params (b1 ++ b2) = (correct arch params b1 + correct arch params b2)%nat.
Proof. unfold correct. now rewrite filter_app, length_app. Qed.

Lemma correct_concat (batches : list (list (Image * Z))) :
  correct arch params (List.concat batches)
  = list_sum (map (correct arch params) batches).
Proof.
  induction batches as [|b batches IH]; [reflexivity|].
  cbn [List.concat map list_sum]. now rewrite correct_app, IH.
Qed.

(** The mean of the batch accuracies gives each batch the weight one
    over the number of batches. *)
Lemma mean_of_batch_accuracies (batches : list (list (Image * Z))) :
  batches <> [] ->
  Forall (fun b => b <> []) batches ->
  Np.mean (map (batch_accuracy arch params) batches)
  = Np.Fin (Qred (Qsum (map (fun b => (ratio arch params b / QN (List.length batches))%Q)
                            batches))).
Proof.
  intros Hne Hall.
  rewrite (map_ext_in _ (fun b => Np.Fin (Qred (ratio arch params b)))).
  - rewrite mean_fin by assumption. apply Fin_Qred_eq.
    rewrite Qsum_scaled; [reflexivity|].
    apply QN_nonzero. destruct batches; [contradiction|simpl; lia].
  - intros b Hb. apply batch_accuracy_ratio.
    rewrite Forall_forall in Hall. now apply Hall.
Qed.

Lemma Qsum_ratios_uniform (s : nat) (batches : list (list (Image * Z))) :
  (0 < s)%nat ->
  Forall (fun b => List.length b = s) batches ->
  (Qsum (map (ratio arch params) batches)
   == QN (correct arch params (List.concat batches)) / QN s)%Q.
Proof.
  intros Hs Hall. pose proof (QN_nonzero s Hs) as Hz.
  induction Hall as [|b batches Hb _ IH]; cbn [map Qsum List.concat].
  - unfold correct, QN. cbn. field. exact Hz.
  - rewrite IH, correct_app, QN_add. unfold ratio. rewrite Hb. fold (QN s).
    fold (QN (correct arch params b)). field. exact Hz.
Qed.

Lemma length_concat_uniform {B : Type} (s : nat) (ls : list (list B)) :
  Forall (fun b => List.length b = s) ls ->
  List.length (List.concat ls) = (List.length ls * s)%nat.
Proof.
  induction 1 as [|b ls Hb _ IH]; [reflexivity|].
  cbn [List.concat List.length]. rewrite length_app, IH, Hb. lia.
Qed.

(** With batches of one size the mean of the batch accuracies is the
    accuracy over the samples. *)
Lemma mean_uniform (s : nat) (batches : list (list (Image * Z))) :
  (0 < s)%nat ->
  batches <> [] ->
  Forall (fun b => List.length b = s) batches ->
  Np.mean (map (batch_accuracy arch params) batches)
  = sample_accuracy arch params (List.concat batches).
Proof.
  intros Hs Hne Hall.
  assert (Hk : (0 < List.length batches)%nat).
  { destruct batches; [contradiction|simpl; lia]. }
  rewrite mean_of_batch_accuracies; [| assumption |].
  2:{ eapply Forall_impl; [|exact Hall]. cbv beta. intros b Hb ->. simpl in Hb. lia. }
  unfold sample_accuracy. rewrite batch_accuracy_ratio.
  2:{ intros E. apply (f_equal (@List.length _)) in E.
      rewrite (length_concat_uniform s) in E by assumption. simpl in E. nia. }
  apply Fin_Qred_eq.
  rewrite Qsum_scaled by (now apply QN_nonzero).
  rewrite (Qsum_ratios_uniform s) by assumption.
  unfold ratio. rewrite (length_concat_uniform s) by assumption.
  fold (QN (correct arch params (List.concat batches))).
  fold (QN (List.length batches * s)). rewrite QN_mul.
  field. split; now apply QN_nonzero.
Qed.

End Accuracy.

(** ** When the batch mean is the sample accuracy *)

Lemma all_at_bound (m : nat) (l : list nat) :
  Forall (fun x => (x <= m)%nat) l ->
  list_sum l = (List.length l * m)%nat ->
  Forall (eq m) l.
Proof.
  intros Hall. induction Hall as [|x l Hx Hl IH]; intros Hsum; [constructor|].
  change (list_sum (x :: l)) with (x + list_sum l)%nat in Hsum.
  cbn [List.length] in Hsum. rewrite Nat.mul_succ_l in Hsum.
  assert (Hb : (list_sum l <= List.length l * m)%nat).
  { clear -Hl. induction Hl as [|y l Hy _ IH]; [simpl; lia|].
    change (list_sum (y :: l)) with (y + list_sum l)%nat.
    cbn [List.length]. rewrite Nat.mul_succ_l. lia. }
  constructor; [lia|]. apply IH. lia.
Qed.

Lemma misses_correct (arch : Nn.Module) (params : Z) (l : list (Z * Z)) :
  Forall (fun s => hit (T := toy_torch) arch params s = false) l ->
  correct (T := toy_torch) arch params l = O.
Proof.
  unfold correct. induction 1 as [|s l Hs _ IH]; [reflexivity|].
  cbn [filter]. now rewrite Hs.
Qed.

Lemma misses_ratios (arch : Nn.Module) (params : Z) (batches : list (list (Z * Z))) :
  Forall (Forall (fun s => hit (T := toy_torch) arch params s = false)) batches ->
  Forall (fun b => b <> []) batches ->
  (Qsum (map (ratio (T := toy_torch) arch params) batches) == 0)%Q.
Proof.
  induction 1 as [|b batches Hb _ IH]; intros Hne; [reflexivity|].
  apply Forall_cons_iff in Hne. destruct Hne as [Hbne Hne].
  cbn [map Qsum]. rewrite (IH Hne). unfold ratio.
  rewrite (misses_correct arch params b Hb). fold (QN 0). fold (QN (List.length b)).
  unfold QN at 1. cbn [Z.of_nat]. field.
  apply QN_nonzero. destruct b; [contradiction|simpl; lia].
Qed.

Lemma repeat_misses (arch : Nn.Module) (params : Z) (k : nat) :
  Forall (fun s => hit (T := toy_torch) arch params s = false) (List.repeat (0, 1) k).
Proof. apply Forall_repeat. reflexivity. Qed.

Lemma Forall_firstn_of {B : Type} (P : B -> Prop) (k : nat) (l : list B) :
  Forall P l -> Forall P (firstn k l).
Proof.
  intros H. rewrite <- (firstn_skipn k l) in H. apply Forall_app in H. tauto.
Qed.

Lemma Forall_skipn_of {B : Type} (P : B -> Prop) (k : nat) (l : list B) :
  Forall P l -> Forall P (skipn k l).
Proof.
  intros H. rewrite <- (firstn_skipn k l) in H. apply Forall_app in H. tauto.
Qed.

(** On the spike the batch accuracies sum to one over the size of the
    first batch. *)
Lemma spike_ratios (arch : Nn.Module) (params : Z) (size count : nat) :
  (0 < size)%nat -> (0 < count)%nat ->
  (Qsum (map (ratio (T := toy_torch) arch params) (chunks size (spike_dataset count)))
   == 1 / QN (Nat.min size count))%Q.
Proof.
  intros Hs Hc. unfold spike_dataset.
  rewrite chunks_step by (assumption || discriminate).
  destruct size as [|size]; [lia|].
  cbn [firstn skipn map Qsum].
  rewrite misses_ratios.
  - unfold ratio, correct. cbn [filter]. change (hit (T := toy_torch) arch params (1, 1)) with true.
    cbn [List.length].
    fold (correct (T := toy_torch) arch params (firstn size (List.repeat (0, 1) (count - 1)))).
    rewrite misses_correct by (apply Forall_firstn_of, repeat_misses).
    rewrite length_firstn, repeat_length.
    replace (S (Nat.min size (count - 1))) with (Nat.min (S size) count) by lia.
    fold (QN (Nat.min (S size) count)).
    change (inject_Z (Z.of_nat 1)) with 1%Q. now rewrite Qplus_0_r.
  - apply chunks_elements; [lia|]. apply Forall_skipn_of, repeat_misses.
  - apply chunks_nonempty. lia.
Qed.

Lemma spike_sample_accuracy (arch : Nn.Module) (params : Z) (count : nat) :
  (0 < count)%nat ->
  sample_accuracy (T := toy_torch) arch params (spike_dataset count)
  = Np.Fin (Qred (1 / QN count)).
Proof.
  intros Hc. unfold sample_accuracy.
  rewrite batch_accuracy_ratio by discriminate.
  apply Fin_Qred_eq. unfold ratio, spike_dataset, correct. cbn [filter].
  change (hit (T := toy_torch) arch params (1, 1)) with true. cbn [List.length].
  fold (correct (T := toy_torch) arch params (List.repeat (0, 1) (count - 1))).
  rewrite misses_correct by apply repeat_misses.
  rewrite repeat_length. replace (S (count - 1)) with count by lia.
  reflexivity.
Qed.

Lemma spike_length (count : nat) :
  (0 < count)%nat -> List.length (spike_dataset count) = count.
Proof. intros H. unfold spike_dataset. cbn [List.length]. rewrite repeat_length. lia. Qed.

Lemma uniform_sizes_iff (size count : nat) :
  (0 < size)%nat -> (0 < count)%nat ->
  ((forall (T : Torch) (arch : Nn.Module) (params : Params) (ds : list (Image * Z)),
       List.length ds = count ->
       Np.mean (map (batch_accuracy arch params) (chunks size ds))
       = sample_accuracy arch params ds)
   <-> exists s, Forall (eq s) (batch_sizes size count)).
Proof.
  intros Hs Hc. split.
  - intros H.
    specialize (H toy_torch converted_resnet18 0 (spike_dataset count) (spike_length count Hc)).
    set (batches := chunks size (spike_dataset count)) in *.
    assert (Hne : batches <> []).
    { subst batches. rewrite chunks_step by (assumption || discriminate). discriminate. }
    assert (Hk : (0 < List.length batches)%nat).
    { destruct batches; [contradiction|simpl; lia]. }
    rewrite mean_of_batch_accuracies in H;
      [|exact Hne|subst batches; now apply chunks_nonempty].
    rewrite spike_sample_accuracy in H by assumption.
    apply Fin_Qred_inj in H.
    rewrite Qsum_scaled in H by (now apply QN_nonzero).
    subst batches. rewrite spike_ratios in H by assumption.
    set (m := Nat.min size count) in *.
    set (k := List.length (chunks size (spike_dataset count))) in *.
    assert (Hm : (0 < m)%nat) by (subst m; lia).
    assert (Hcount : count = (k * m)%nat).
    { apply QN_inj. rewrite QN_mul.
      pose proof (QN_nonzero m Hm) as Hm0. pose proof (QN_nonzero k Hk) as Hk0.
      pose proof (QN_nonzero count Hc) as Hc0.
      transitivity (QN count * (1 / QN m / QN k) * (QN k * QN m))%Q.
      - field. split; assumption.
      - transitivity (QN count * (1 / QN count) * (QN k * QN m))%Q.
        + apply Qmult_comp; [apply Qmult_comp; [reflexivity|exact H]|reflexivity].
        + field. exact Hc0. }
    exists m. rewrite <- (spike_length count Hc) at 1.
    rewrite <- chunks_lengths by assumption.
    apply all_at_bound.
    + apply Forall_map. eapply Forall_impl; [|apply chunks_bounded; assumption].
      cbv beta. intros b Hb. rewrite spike_length in Hb by assumption. exact Hb.
    + rewrite <- length_concat, chunks_concat, length_map by assumption.
      fold k. rewrite spike_length by assumption. exact Hcount.
  - intros (s & Hall) T arch params ds Hlen.
    rewrite <- Hlen, <- chunks_lengths in Hall by assumption.
    assert (Hne : chunks size ds <> []).
    { rewrite chunks_step; [discriminate|assumption|].
      intros ->. simpl in Hlen. lia. }
    assert (Hall' : Forall (fun b => List.length b = s) (chunks size ds)).
    { rewrite Forall_map in Hall. eapply Forall_impl; [|exact Hall].
      cbv beta. intros b Hb. now symmetry. }
    rewrite <- (chunks_concat size Hs ds) at 2.
    apply mean_uniform with (s := s); try assumption.
    pose proof (chunks_nonempty size Hs ds) as Hn.
    destruct (chunks size ds) as [|b bs]; [contradiction|].
    apply Forall_cons_iff in Hn. apply Forall_cons_iff in Hall'.
    destruct Hn as [Hb _], Hall' as [Hl _].
    destruct b; [contradiction|simpl in Hl; lia].
Qed.

(** C9.  [test] returns the plain mean of the accuracies of the batches
    its loader yields, so each batch weighs one over the number of
    batches whatever its size.  When the batches have one size this is
    the accuracy over the samples; and for a given batch size and
    number of samples, the two agree for every model and every dataset
    exactly when the batches have one size.  Ten thousand samples in
    batches of 128 make 78 batches of 128 and one of 16, each weighing
    1/79, and there the two differ on some dataset. *)
Theorem test_mean_of_batches (T : Torch) (model : nat) (test_loader : DataLoader)
    (device : Device) (w : World) (arch : Nn.Module) (params : Params) :
  holds w model arch params ->
  0 < dl_batch_size test_loader ->
  dl_dataset test_loader <> [] ->
  let batches := batches_at test_loader (w_rng w) in
  (exists w',
      test model test_loader device w
      = (inr (Np.mean (map (batch_accuracy arch params) batches)), w')) /\
  Np.mean (map (batch_accuracy arch params) batches)
  = Np.Fin (Qred (Qsum (map (fun b => (ratio arch params b / QN (List.length batches))%Q)
                            batches))) /\
  ((exists s, Forall (fun b => List.length b = s) batches) ->
   Np.mean (map (batch_accuracy arch params) batches)
   = sample_accuracy arch params (List.concat batches)) /\
  (forall size count : nat,
      (0 < size)%nat -> (0 < count)%nat ->
      ((forall (T' : Torch) (arch' : Nn.Module) (params' : Params)
               (ds : list (Image * Z)),
           List.length ds = count ->
           Np.mean (map (batch_accuracy arch' params') (chunks size ds))
           = sample_accuracy arch' params' ds)
       <-> exists s, Forall (eq s) (batch_sizes size count))) /\
  batch_sizes (Z.to_nat BATCH_SIZE) cifar10_test_size = List.repeat 128%nat 78 ++ [16%nat] /\
  List.length (batch_sizes (Z.to_nat BATCH_SIZE) cifar10_test_size) = 79%nat /\
  Np.mean (map (batch_accuracy (T := toy_torch) converted_resnet18 0)
               (chunks (Z.to_nat BATCH_SIZE) (spike_dataset cifar10_test_size)))
  <> sample_accuracy (T := toy_torch) converted_resnet18 0 (spike_dataset cifar10_test_size).
Proof.
  intros H Hb Hds batches.
  assert (Hsize : (0 < Z.to_nat (dl_batch_size test_loader))%nat) by lia.
  assert (Hne : batches <> []).
  { subst batches. unfold batches_at. rewrite chunks_step; [discriminate|assumption|].
    destruct (dl_shuffle test_loader); [|assumption].
    intros E. apply (f_equal (@List.length _)) in E.
    rewrite shuffled_length in E. destruct (dl_dataset test_loader); [contradiction|].
    discriminate. }
  assert (Hall : Forall (fun b => b <> []) batches)
    by (subst batches; now apply chunks_nonempty).
  split; [|split; [|split; [|split; [|split; [|split]]]]].
  - destruct (test_run model arch params test_loader device w H) as (w' & E & _).
    exists w'. exact E.
  - now apply mean_of_batch_accuracies.
  - intros (s & Hs). apply mean_uniform with (s := s); try assumption.
    destruct batches as [|b bs]; [contradiction|].
    apply Forall_cons_iff in Hall. apply Forall_cons_iff in Hs.
    destruct Hall as [Hbne _], Hs as [Hl _].
    destruct b; [contradiction|simpl in Hl; lia].
  - intros size count. apply uniform_sizes_iff.
  - vm_compute. reflexivity.
  - vm_compute. reflexivity.
  - intros E. vm_compute in E. discriminate.
Qed.

(** Evaluation over five samples in batches of two, from the world the
    first cells leave. *)
Lemma test_mean_of_batches_witness :
  let batches := batches_at toy_loader (w_rng toy_world) in
  (exists w',
      test (T := toy_torch) 0%nat toy_loader Cpu toy_world
      = (inr (Np.mean (map (batch_accuracy (T := toy_torch) converted_resnet18 0) batches)),
         w')) /\
  Np.mean (map (batch_accuracy (T := toy_torch) converted_resnet18 0) batches)
  = Np.Fin (Qred (Qsum (map (fun b => (ratio (T := toy_torch) converted_resnet18 0%Z b
                                       / QN (List.length batches))%Q)
                            batches))) /\
  ((exists s, Forall (fun b => List.length b = s) batches) ->
   Np.mean (map (batch_accuracy (T := toy_torch) converted_resnet18 0) batches)
   = sample_accuracy (T := toy_torch) converted_resnet18 0 (List.concat batches)) /\
  (forall size count : nat,
      (0 < size)%nat -> (0 < count)%nat ->
      ((forall (T' : Torch) (arch' : Nn.Module) (params' : Params)
               (ds : list (Image * Z)),
           List.length ds = count ->
           Np.mean (map (batch_accuracy arch' params') (chunks size ds))
           = sample_accuracy arch' params' ds)
       <-> exists s, Forall (eq s) (batch_sizes size count))) /\
  batch_sizes (Z.to_nat BATCH_SIZE) cifar10_test_size = List.repeat 128%nat 78 ++ [16%nat] /\
  List.length (batch_sizes (Z.to_nat BATCH_SIZE) cifar10_test_size) = 79%nat /\
  Np.mean (map (batch_accuracy (T := toy_torch) converted_resnet18 0)
               (chunks (Z.to_nat BATCH_SIZE) (spike_dataset cifar10_test_size)))
  <> sample_accuracy (T := toy_torch) converted_resnet18 0 (spike_dataset cifar10_test_size).
Proof.
  apply (test_mean_of_batches toy_torch 0%nat toy_loader Cpu toy_world
                              converted_resnet18 0).
  - eexists. split; [reflexivity|]. split; reflexivity.
  - reflexivity.
  - discriminate.
Defined.

(* ===================================================================== *)
(** * Further properties of the code *)

(** ** Cell 30 for any two batch sizes *)

Lemma py_int_of_integer (q : Q) (k : Z) : (q == inject_Z k)%Q -> py_int q = k.
Proof.
  intros H. unfold py_int. destruct (Qlt_le_dec q 0).
  - rewrite H. apply Qceiling_Z.
  - rewrite H. apply Qfloor_Z.
Qed.

Lemma Qred_inject_Z (k : Z) : Qred (inject_Z k) = inject_Z k.
Proof.
  unfold Qred, inject_Z.
  pose proof (Z.ggcd_gcd k 1) as Hg.
  pose proof (Z.ggcd_correct_divisors k 1) as Hd.
  destruct (Z.ggcd k 1) as (g & aa & bb). cbn [fst snd] in *.
  rewrite Z.gcd_1_r in Hg. subst g. destruct Hd as [Ha Hb].
  rewrite Z.mul_1_l in Ha, Hb. subst aa bb. reflexivity.
Qed.

Lemma div_half_even_1 (n : Z) : div_half_even n 1 = n.
Proof.
  unfold div_half_even. rewrite Z.div_1_r, Z.mod_1_r. reflexivity.
Qed.

Lemma to_double_integer (k : Z) :
  Z.abs k <= 2 ^ 53 ->
  exists x, to_double (inject_Z k) = Some x /\ (x == inject_Z k)%Q.
Proof.
  intros Hk. unfold to_double. cbn [Qnum Qden inject_Z].
  destruct (Z.eqb_spec (Z.abs k) 0) as [Hz|Hz].
  { exists 0%Q. split; [reflexivity|]. assert (k = 0) by lia. subst k. reflexivity. }
  set (n := Z.abs k) in *.
  assert (Hn : 0 < n) by lia.
  pose proof (Z.log2_spec n Hn) as [Hlo Hhi].
  pose proof (Z.log2_nonneg n) as HL0.
  assert (HL : Z.log2 n <= 53).
  { rewrite <- (Z.log2_pow2 53) by lia. now apply Z.log2_le_mono. }
  set (L := Z.log2 n) in *.
  assert (Hfl : floor_log2 n 1 = L).
  { unfold floor_log2. change (Z.log2 1) with 0. fold L. rewrite Z.sub_0_r.
    rewrite (Z.max_r 0 L), (Z.max_l 0 (- L)) by lia.
    change (2 ^ 0) with 1. rewrite Z.mul_1_l, Z.mul_1_r.
    destruct (Z.leb_spec (2 ^ L) n); [reflexivity|lia]. }
  rewrite Hfl. rewrite (Z.max_l (L - 52) (-1074)) by lia.
  destruct (Z_le_gt_dec L 52) as [Hs|Hs].
  - rewrite (Z.max_r 0 (- (L - 52))), (Z.max_l 0 (L - 52)) by lia.
    change (2 ^ 0) with 1. rewrite !Z.mul_1_r, div_half_even_1.
    replace (- (L - 52)) with (52 - L) by lia.
    set (P := 2 ^ (52 - L)).
    assert (HP : 0 < P) by (apply Z.pow_pos_nonneg; lia).
    assert (Hm : n * P < 2 ^ 53).
    { replace 53 with (Z.succ L + (52 - L)) by lia. rewrite Z.pow_add_r by lia.
      fold P. nia. }
    destruct (Z.leb_spec (2 ^ 1024) (n * P)) as [Hov|_].
    { exfalso. assert (2 ^ 53 < 2 ^ 1024) by (apply Z.pow_lt_mono_r; lia). lia. }
    eexists. split; [reflexivity|]. rewrite Qred_correct.
    unfold Qeq. cbn [Qnum Qden inject_Z]. rewrite Z2Pos.id by exact HP.
    subst n. destruct k; cbn [Z.sgn Z.abs]; lia.
  - assert (HLe : L = 53) by lia.
    assert (Hn53 : n = 2 ^ 53) by (rewrite HLe in Hlo; lia).
    assert (Hk53 : k = 2 ^ 53 \/ k = - 2 ^ 53) by lia.
    rewrite HLe, Hn53.
    destruct Hk53 as [-> | ->]; (eexists; split; [vm_compute; reflexivity|reflexivity]).
Qed.

Lemma py_truediv_multiple (r b : Z) :
  b <> 0 -> Z.abs r <= 2 ^ 53 ->
  exists x, py_truediv (r * b) b = inr x /\ (x == inject_Z r)%Q.
Proof.
  intros Hb Hr. unfold py_truediv.
  destruct (Z.eqb_spec b 0) as [|_]; [contradiction|].
  assert (E : Qred (inject_Z (r * b) / inject_Z b) = inject_Z r).
  { rewrite <- (Qred_inject_Z r). apply Qred_complete.
    rewrite inject_Z_mult. field.
    change 0%Q with (inject_Z 0). rewrite inject_Z_injective. exact Hb. }
  rewrite E. destruct (to_double_integer r Hr) as (x & -> & Hx).
  exists x. auto.
Qed.

(** X1.  Cell 30 with any two integers in place of
    [VIRTUAL_BATCH_SIZE] and [BATCH_SIZE]: a zero batch size raises
    [ZeroDivisionError]; a virtual batch size that is not a multiple
    of the batch size raises [AssertionError]; so when the cell binds
    [virtual_batch_rate] the batch size is not zero and divides the
    virtual batch size.  When the virtual batch size is [r] times a
    batch size that is not zero and [|r| <= 2^53], the cell binds
    exactly [r].  Beyond that bound the quotient goes through a double
    and need not be exact: for [2^53 + 1] and [1] the cell binds
    [2^53], and for [10^400] and [1] the division raises
    [OverflowError]. *)
Theorem cell_30_quotient (virtual_batch_size batch_size : Z) :
  (batch_size = 0 -> cell_30 virtual_batch_size batch_size = inl ZeroDivisionError) /\
  (batch_size <> 0 /\ virtual_batch_size mod batch_size <> 0 ->
   cell_30 virtual_batch_size batch_size = inl AssertionError) /\
  (forall r, cell_30 virtual_batch_size batch_size = inr r ->
             batch_size <> 0 /\ virtual_batch_size mod batch_size = 0) /\
  (forall r, batch_size <> 0 /\ virtual_batch_size = r * batch_size /\ Z.abs r <= 2 ^ 53 ->
             cell_30 virtual_batch_size batch_size = inr r) /\
  cell_30 (2 ^ 53 + 1) 1 = inr (2 ^ 53) /\
  cell_30 (10 ^ 400) 1 = inl OverflowError.
Proof.
  split; [|split; [|split; [|split; [|split]]]].
  - intros ->. reflexivity.
  - intros [Hb Hm]. unfold cell_30, py_mod.
    destruct (Z.eqb_spec batch_size 0) as [|_]; [contradiction|].
    destruct (Z.eqb_spec (virtual_batch_size mod batch_size) 0) as [|_];
      [contradiction|reflexivity].
  - intros r. unfold cell_30, py_mod.
    destruct (Z.eqb_spec batch_size 0) as [|Hb]; [discriminate|].
    destruct (Z.eqb_spec (virtual_batch_size mod batch_size) 0) as [Hm|_];
      [|discriminate].
    auto.
  - intros r (Hb & -> & Hr). unfold cell_30, py_mod.
    destruct (Z.eqb_spec batch_size 0) as [|_]; [contradiction|].
    rewrite Z.mod_mul by exact Hb. cbn [Z.eqb].
    destruct (py_truediv_multiple r batch_size Hb Hr) as (x & -> & Hx).
    f_equal. apply py_int_of_integer. exact Hx.
  - vm_compute. reflexivity.
  - vm_compute. reflexivity.
Qed.

(** ** How many real steps an epoch takes *)

Lemma div_succ_step (k rate : Z) :
  0 <= k -> 0 < rate ->
  (k + 1) / rate = k / rate + (if (k + 1) mod rate =? 0 then 1 else 0).
Proof.
  intros Hk Hr.
  pose proof (Z.div_mod k rate ltac:(lia)) as E1.
  pose proof (Z.mod_pos_bound k rate Hr) as B1.
  pose proof (Z.div_mod (k + 1) rate ltac:(lia)) as E2.
  pose proof (Z.mod_pos_bound (k + 1) rate Hr) as B2.
  destruct (Z.eqb_spec ((k + 1) mod rate) 0) as [H|H]; nia.
Qed.

Lemma count_real_prefix (rate n : Z) (k : nat) :
  0 < rate -> Z.of_nat k < n ->
  Z.of_nat (count_real rate n k) = Z.of_nat k / rate.
Proof.
  intros Hr. induction k as [|k IH]; intros Hk; [now rewrite Z.div_0_l by lia|].
  rewrite count_real_S, Nat2Z.inj_add, IH by lia. unfold real_step.
  replace (Z.of_nat k + 1 =? n) with false by (symmetry; apply Z.eqb_neq; lia).
  rewrite orb_false_r, Nat2Z.inj_succ, <- Z.add_1_r, div_succ_step by lia.
  destruct ((Z.of_nat k + 1) mod rate =? 0); reflexivity.
Qed.

Lemma count_real_whole (rate n : Z) :
  0 < rate -> 0 <= n ->
  Z.of_nat (count_real rate n (Z.to_nat n)) = (n + rate - 1) / rate.
Proof.
  intros Hr Hn. destruct (Z.eq_dec n 0) as [->|Hz].
  - cbn [Z.to_nat count_real seq filter List.length Z.of_nat].
    symmetry. apply Z.div_small. lia.
  - replace (Z.to_nat n) with (S (Z.to_nat (n - 1))) by lia.
    rewrite count_real_S, Nat2Z.inj_add, count_real_prefix by lia.
    unfold real_step.
    replace (Z.of_nat (Z.to_nat (n - 1)) + 1 =? n) with true
      by (symmetry; apply Z.eqb_eq; lia).
    rewrite orb_true_r, Z2Nat.id by lia. cbn [Z.of_nat].
    replace (n + rate - 1) with (n - 1 + 1 * rate) by lia.
    rewrite Z.div_add by lia. reflexivity.
Qed.

(** X2.  One call of [train] over [n] batches with a positive
    [virtual_batch_rate] makes the attached privacy engine count
    [ceil(n / virtual_batch_rate)] steps, one per real optimizer step
    and none per virtual step; its other settings are unchanged. *)
Theorem train_advances_engine {T : Torch} (virtual_batch_rate : Z)
    (model : nat) (train_loader : DataLoader) (optimizer : nat) (epoch : Z)
    (device : Device) (w : World) :
  0 < virtual_batch_rate ->
  0 < dl_batch_size train_loader ->
  ready w model optimizer = true ->
  exists w' pe pe',
    train virtual_batch_rate model train_loader optimizer epoch device w = (inr tt, w') /\
    engine_of w optimizer = Some pe /\
    engine_of w' optimizer = Some pe' /\
    let n := loader_len train_loader in
    pe_steps pe' = pe_steps pe + (n + virtual_batch_rate - 1) / virtual_batch_rate /\
    Z.of_nat (List.length (filter (fun e => match e with EvStep _ => true | _ => false end)
                                  (new_events w w')))
    = (n + virtual_batch_rate - 1) / virtual_batch_rate /\
    pe_batch_size pe' = pe_batch_size pe /\
    pe_sample_size pe' = pe_sample_size pe /\
    pe_alphas pe' = pe_alphas pe /\
    pe_noise_multiplier pe' = pe_noise_multiplier pe /\
    pe_max_grad_norm pe' = pe_max_grad_norm pe.
Proof.
  intros Hr Hb Hready.
  destruct (ready_linked w model optimizer Hready) as (arch & pe & L).
  destruct (train_run virtual_batch_rate model train_loader optimizer epoch arch
                      ltac:(lia) device w pe Hb L)
    as (losses & accs & w' & E & _ & _ & _ & L' & Tr).
  exists w', pe, (Nat.iter (count_real virtual_batch_rate (loader_len train_loader)
                                       (Z.to_nat (loader_len train_loader)))
                           pe_count_step pe).
  split; [exact E|]. split.
  { destruct L as (mo & opt & _ & _ & Ho & _ & He). unfold engine_of. now rewrite Ho. }
  split.
  { destruct L' as (mo & opt & _ & _ & Ho & _ & He). unfold engine_of. now rewrite Ho. }
  cbv zeta. rewrite iter_count_step.
  cbn [pe_steps pe_batch_size pe_sample_size pe_alphas pe_noise_multiplier pe_max_grad_norm].
  pose proof (loader_len_nonneg train_loader Hb) as Hn.
  rewrite count_real_whole by lia.
  split; [reflexivity|]. split; [|repeat split].
  rewrite (new_events_app w w' _ Tr). cbn [filter].
  rewrite filter_concat_map.
  rewrite <- count_real_whole by lia. f_equal. unfold count_real.
  generalize (seq 0 (Z.to_nat (loader_len train_loader))) as l.
  induction l as [|i l IH]; [reflexivity|].
  cbn [map List.concat filter]. rewrite length_app, IH. unfold batch_block.
  rewrite filter_app.
  destruct (real_step virtual_batch_rate (loader_len train_loader) i),
           (Z.of_nat i mod 200 =? 0); reflexivity.
Qed.

Lemma train_advances_engine_witness :
  exists w' pe pe',
    train (T := toy_torch) 2 0%nat toy_loader 0%nat 1 Cpu toy_world = (inr tt, w') /\
    engine_of toy_world 0 = Some pe /\
    engine_of w' 0 = Some pe' /\
    let n := loader_len toy_loader in
    pe_steps pe' = pe_steps pe + (n + 2 - 1) / 2 /\
    Z.of_nat (List.length (filter (fun e => match e with EvStep _ => true | _ => false end)
                                  (new_events toy_world w')))
    = (n + 2 - 1) / 2 /\
    pe_batch_size pe' = pe_batch_size pe /\
    pe_sample_size pe' = pe_sample_size pe /\
    pe_alphas pe' = pe_alphas pe /\
    pe_noise_multiplier pe' = pe_noise_multiplier pe /\
    pe_max_grad_norm pe' = pe_max_grad_norm pe.
Proof.
  apply (train_advances_engine (T := toy_torch) 2 0%nat toy_loader 0%nat 1 Cpu toy_world).
  - reflexivity.
  - reflexivity.
  - vm_compute. reflexivity.
Defined.

(** ** More on the accuracy helper *)

Lemma agreements_le (a b : list Z) : (agreements a b <= List.length a)%nat.
Proof.
  revert b; induction a as [|x a IH]; intros [|y b]; cbn [agreements List.length]; try lia.
  specialize (IH b). destruct (x =? y); lia.
Qed.

Lemma agreements_full (a b : list Z) :
  List.length a = List.length b ->
  agreements a b = List.length a -> a = b.
Proof.
  revert b; induction a as [|x a IH]; intros [|y b] Hlen H; try discriminate;
    [reflexivity|].
  cbn [agreements List.length] in *. pose proof (agreements_le a b) as Hle.
  destruct (Z.eqb_spec x y) as [->|Hxy]; [|lia].
  f_equal. apply IH; lia.
Qed.

Lemma agreements_sym (a b : list Z) : agreements a b = agreements b a.
Proof.
  revert b; induction a as [|x a IH]; intros [|y b]; try reflexivity.
  cbn [agreements]. now rewrite IH, Z.eqb_sym.
Qed.

Lemma agreements_none (a b : list Z) :
  List.length a = List.length b ->
  (agreements a b = O <-> Forall2 (fun x y => x <> y) a b).
Proof.
  revert b; induction a as [|x a IH]; intros [|y b] Hlen; try discriminate.
  - split; [constructor|reflexivity].
  - cbn [agreements List.length] in *. injection Hlen as Hlen. specialize (IH b Hlen).
    destruct (Z.eqb_spec x y) as [->|Hxy]; split.
    + discriminate.
    + intros H. inversion H; subst. contradiction.
    + intros H. constructor; [exact Hxy|]. now apply IH.
    + intros H. inversion H; subst. now apply IH.
Qed.

Lemma accuracy_value (preds labels : list Z) :
  List.length preds = List.length labels ->
  preds <> [] ->
  accuracy preds labels
  = inr (Np.Fin (Qred (inject_Z (Z.of_nat (agreements preds labels))
                       / inject_Z (Z.of_nat (List.length preds))))).
Proof.
  intros Hlen Hne. rewrite accuracy_same_length, mean_bool_nonempty.
  - now rewrite count_true_zip_eqb, zip_eqb_length.
  - intros E. apply (f_equal (@List.length bool)) in E.
    rewrite zip_eqb_length in E by assumption.
    destruct preds; [contradiction|discriminate].
  - exact Hlen.
Qed.

Lemma accuracy_self (x : list Z) : x <> [] -> accuracy x x = inr (Np.Fin 1).
Proof.
  intros Hne. rewrite accuracy_value, agreements_refl by auto.
  do 2 f_equal. change 1%Q with (Qred 1). apply Qred_complete.
  apply Qmult_inv_r. apply (QN_nonzero (List.length x)).
  destruct x; [contradiction|simpl; lia].
Qed.

(** X4.  On arrays of one length that are not empty, [accuracy] does
    not depend on the order of its two arguments, is 1 exactly when the
    two arrays are equal, and is 0 exactly when they differ at every
    position. *)
Theorem accuracy_extremes (preds labels : list Z) :
  List.length preds = List.length labels ->
  preds <> [] ->
  accuracy preds labels = accuracy labels preds /\
  (accuracy preds labels = inr (Np.Fin 1) <-> preds = labels) /\
  (accuracy preds labels = inr (Np.Fin 0)
   <-> Forall2 (fun p l => p <> l) preds labels).
Proof.
  intros Hlen Hne.
  assert (Hpos : (0 < List.length preds)%nat).
  { destruct preds; [contradiction|simpl; lia]. }
  assert (Hne' : labels <> []).
  { intros ->. simpl in Hlen. lia. }
  pose proof (accuracy_value preds labels Hlen Hne) as E.
  pose proof (accuracy_value labels preds (eq_sym Hlen) Hne') as E'.
  pose proof (QN_nonzero _ Hpos) as Hz. unfold QN in Hz.
  split; [|split].
  - rewrite E, E', agreements_sym, Hlen. reflexivity.
  - split.
    + intros H. rewrite E in H.
      apply agreements_full; [exact Hlen|]. apply QN_inj. unfold QN.
      assert (Hq : (inject_Z (Z.of_nat (agreements preds labels))
                    / inject_Z (Z.of_nat (List.length preds)) == 1)%Q).
      { apply Fin_Qred_inj. change (Np.Fin (Qred 1)) with (Np.Fin 1). congruence. }
      rewrite <- (Qmult_1_l (inject_Z (Z.of_nat (List.length preds)))), <- Hq.
      field. exact Hz.
    + intros <-. now apply accuracy_self.
  - rewrite <- (agreements_none preds labels Hlen). split.
    + intros H. rewrite E in H.
      apply QN_inj. unfold QN.
      assert (Hq : (inject_Z (Z.of_nat (agreements preds labels))
                    / inject_Z (Z.of_nat (List.length preds)) == 0)%Q).
      { apply Fin_Qred_inj. change (Np.Fin (Qred 0)) with (Np.Fin 0). congruence. }
      cbn [Z.of_nat].
      rewrite <- (Qmult_0_l (inject_Z (Z.of_nat (List.length preds)))), <- Hq.
      field. exact Hz.
    + intros H. rewrite E, H. do 2 f_equal.
Qed.

Lemma accuracy_extremes_witness :
  accuracy [1; 2; 3] [1; 5; 3] = accuracy [1; 5; 3] [1; 2; 3] /\
  (accuracy [1; 2; 3] [1; 5; 3] = inr (Np.Fin 1) <-> [1; 2; 3] = [1; 5; 3]) /\
  (accuracy [1; 2; 3] [1; 5; 3] = inr (Np.Fin 0)
   <-> Forall2 (fun p l => p <> l) [1; 2; 3] [1; 5; 3]).
Proof.
  apply (accuracy_extremes [1; 2; 3] [1; 5; 3]).
  - reflexivity.
  - discriminate.
Defined.

(** ** How many lines an epoch prints *)

Lemma reports_count (k : nat) :
  Z.of_nat (List.length (filter reports (seq 0 k))) = (Z.of_nat k + 199) / 200.
Proof.
  induction k as [|k IH]; [reflexivity|].
  rewrite seq_S, filter_app, length_app, Nat2Z.inj_add, IH. cbn [Nat.add filter].
  rewrite Nat2Z.inj_succ, <- Z.add_1_r.
  replace (Z.of_nat k + 1 + 199) with (Z.of_nat k + 199 + 1) by lia.
  rewrite div_succ_step by lia.
  replace (Z.of_nat k + 199 + 1) with (Z.of_nat k + 1 * 200) by lia.
  rewrite Z.mod_add by lia. unfold reports.
  destruct (Z.of_nat k mod 200 =? 0); reflexivity.
Qed.

Lemma epoch_line_epochs {T : Torch} rate n model optimizer arch epoch evs :
  0 <= n ->
  epoch_trace rate n model optimizer arch epoch evs ->
  map line_epoch (lines evs) = List.repeat epoch (Z.to_nat ((n + 199) / 200)).
Proof.
  intros Hn (pe & losses & accs & _ & _ & ->).
  change (lines (EvCallTrain epoch :: EvModelTrain model :: ?l)) with (lines l).
  rewrite blocks_lines, map_map. cbn [line_epoch report_line].
  rewrite <- (Z2Nat.id n Hn) at 2. rewrite <- reports_count, Nat2Z.id.
  induction (filter reports (seq 0 (Z.to_nat n))) as [|i l IH]; [reflexivity|].
  cbn [map List.length List.repeat]. now rewrite IH.
Qed.

Lemma segments_line_epochs {T : Torch} rate n model optimizer arch
      (epochs : list Z) (segments : list (list Event)) :
  0 <= n ->
  Forall2 (fun epoch evs => epoch_trace rate n model optimizer arch (epoch + 1) evs)
          epochs segments ->
  map line_epoch (lines (List.concat segments))
  = flat_map (fun epoch => List.repeat (epoch + 1) (Z.to_nat ((n + 199) / 200))) epochs.
Proof.
  intros Hn. induction 1 as [|e evs epochs segments H _ IH]; [reflexivity|].
  cbn [List.concat flat_map]. unfold lines in *. rewrite flat_map_app, map_app, IH.
  f_equal. now apply (epoch_line_epochs rate n model optimizer arch).
Qed.

(** X5.  The training lines a run of the notebook prints, in order:
    for each epoch from 1 to 20 in turn, [ceil(n / 200)] lines carrying
    that epoch number, [n] being the number of training batches; they
    come after the two lines of the first cells and before the single
    test line.  With the 50,000 training samples of CIFAR10 this is two
    lines per epoch, as in the recorded output. *)
Theorem train_lines_per_epoch (T : Torch) (cifar10_train cifar10_test : list (Image * Z)) :
  exists acc w train_lines test_line,
    notebook cifar10_train cifar10_test empty_world = (inr acc, w) /\
    lines (w_trace w)
    = [ValidLine true; SigmaLine NOISE_MULTIPLIER MAX_GRAD_NORM]
      ++ train_lines ++ [test_line] /\
    is_train_line test_line = false /\
    Forall (fun l => is_train_line l = true) train_lines /\
    map line_epoch train_lines
    = flat_map (fun epoch =>
                  List.repeat epoch (Z.to_nat ((train_batches cifar10_train + 199) / 200)))
               [1; 2; 3; 4; 5; 6; 7; 8; 9; 10; 11; 12; 13; 14; 15; 16; 17; 18; 19; 20] /\
    (List.length cifar10_train = cifar10_train_size ->
     train_batches cifar10_train = 391 /\
     map line_epoch train_lines
     = [1; 1; 2; 2; 3; 3; 4; 4; 5; 5; 6; 6; 7; 7; 8; 8; 9; 9; 10; 10;
        11; 11; 12; 12; 13; 13; 14; 14; 15; 15; 16; 16; 17; 17; 18; 18; 19; 19; 20; 20]).
Proof.
  destruct (notebook_run cifar10_train cifar10_test)
    as (acc & w & segments & params & E & Hacc & F & Tr).
  cbv zeta in Tr.
  eexists acc, w, (lines (List.concat segments)), _.
  split; [exact E|].
  assert (Hn : 0 <= train_batches cifar10_train).
  { apply (loader_len_nonneg
             {| dl_dataset := cifar10_train; dl_batch_size := BATCH_SIZE;
                dl_shuffle := true |}). reflexivity. }
  pose proof (segments_line_epochs _ _ _ _ _ _ _ Hn F) as Hl.
  destruct (segments_lines _ _ _ _ _ _ _ F) as [Hall _].
  split; [|split; [|split; [exact Hall|split]]].
  - rewrite Tr. unfold lines. rewrite !flat_map_app.
    cbn [flat_map setup_trace app].
    rewrite flat_map_app, flat_map_repeat_nil by reflexivity.
    reflexivity.
  - reflexivity.
  - rewrite Hl. reflexivity.
  - intros Hlen.
    assert (H391 : train_batches cifar10_train = 391).
    { unfold train_batches, loader_len. cbn [dl_dataset dl_batch_size].
      rewrite Hlen. reflexivity. }
    split; [exact H391|]. rewrite Hl, H391. reflexivity.
Qed.

(** ** A loader without samples *)

Lemma shuffled_nil {T : Torch} (seed : nat) : shuffled seed [] = [].
Proof. apply length_zero_iff_nil. now rewrite shuffled_length. Qed.

Lemma batches_at_empty {T : Torch} (dl : DataLoader) (seed : nat) :
  dl_dataset dl = [] -> batches_at dl seed = [].
Proof.
  intros H. unfold batches_at. rewrite H.
  destruct (dl_shuffle dl); [rewrite shuffled_nil|]; reflexivity.
Qed.

Lemma iterate_empty {T : Torch} (dl : DataLoader) (w : World) :
  dl_dataset dl = [] ->
  exists w', iterate dl w = (inr [], w') /\
             w_modules w' = w_modules w /\ w_optimizers w' = w_optimizers w /\
             w_trace w' = w_trace w.
Proof.
  intros H. destruct (iterate_batches_at dl w) as (w' & E & Hm & Ho & Ht).
  rewrite batches_at_empty in E by assumption. eauto.
Qed.

(** X6.  Over a loader that has no samples, [train] returns normally
    having called nothing but [model.train()]: no forward pass, no
    optimizer call, no printed line, whatever the rate and whether or
    not an engine is attached; and [test] prints and returns NaN, the
    mean of an empty list, after [model.eval()]. *)
Theorem empty_loader_runs {T : Torch} (virtual_batch_rate : Z)
    (model : nat) (loader : DataLoader) (optimizer : nat) (epoch : Z)
    (device : Device) (w : World) :
  dl_dataset loader = [] ->
  (exists w',
      train virtual_batch_rate model loader optimizer epoch device w = (inr tt, w') /\
      w_trace w' = w_trace w ++ [EvCallTrain epoch; EvModelTrain model] /\
      w_optimizers w' = w_optimizers w) /\
  (exists w',
      test model loader device w = (inr Np.NaN, w') /\
      w_trace w' = w_trace w ++ [EvCallTest; EvModelEval model;
                                 EvPrint (TestLine Np.NaN Np.NaN)] /\
      w_optimizers w' = w_optimizers w).
Proof.
  intros Hds. split.
  - set (w1 := {| w_modules := w_modules w; w_optimizers := w_optimizers w;
                  w_rng := w_rng w; w_trace := w_trace w ++ [EvCallTrain epoch] |}).
    set (w2 := {| w_modules := list_update (w_modules w) model (mo_with_training true);
                  w_optimizers := w_optimizers w; w_rng := w_rng w;
                  w_trace := (w_trace w ++ [EvCallTrain epoch]) ++ [EvModelTrain model] |}).
    assert (E1 : emit (EvCallTrain epoch) w = (inr tt, w1)) by reflexivity.
    assert (E2 : model_train model w1 = (inr tt, w2)) by reflexivity.
    destruct (iterate_empty loader w2 Hds) as (w3 & E3 & _ & Ho & Ht).
    assert (El : train_loop virtual_batch_rate model loader optimizer epoch device w
                 = (inr ([], []), w3)).
    { unfold train_loop.
      rewrite (bind_inr _ _ _ _ _ E1), (bind_inr _ _ _ _ _ E2), (bind_inr _ _ _ _ _ E3).
      reflexivity. }
    exists w3. split; [|split].
    + unfold train. rewrite (bind_inr _ _ _ _ _ El). reflexivity.
    + rewrite Ht. subst w2. cbn [w_trace]. now rewrite <- app_assoc.
    + rewrite Ho. reflexivity.
  - set (w1 := {| w_modules := w_modules w; w_optimizers := w_optimizers w;
                  w_rng := w_rng w; w_trace := w_trace w ++ [EvCallTest] |}).
    set (w2 := {| w_modules := list_update (w_modules w) model (mo_with_training false);
                  w_optimizers := w_optimizers w; w_rng := w_rng w;
                  w_trace := (w_trace w ++ [EvCallTest]) ++ [EvModelEval model] |}).
    assert (E1 : emit EvCallTest w = (inr tt, w1)) by reflexivity.
    assert (E2 : model_eval model w1 = (inr tt, w2)) by reflexivity.
    destruct (iterate_empty loader w2 Hds) as (w3 & E3 & _ & Ho & Ht).
    eexists. split; [|split].
    + unfold test.
      rewrite (bind_inr _ _ _ _ _ E1), (bind_inr _ _ _ _ _ E2), (bind_inr _ _ _ _ _ E3).
      reflexivity.
    + cbn [w_trace]. rewrite Ht. subst w2. cbn [w_trace]. now rewrite <- !app_assoc.
    + cbn [w_optimizers]. rewrite Ho. reflexivity.
Qed.

Lemma empty_loader_runs_witness :
  (exists w',
      train (T := toy_torch) 0 0%nat
            {| dl_dataset := []; dl_batch_size := 2; dl_shuffle := true |}
            0%nat 1 Cpu empty_world = (inr tt, w') /\
      w_trace w' = w_trace (T := toy_torch) empty_world
                   ++ [EvCallTrain 1; EvModelTrain 0] /\
      w_optimizers w' = w_optimizers (T := toy_torch) empty_world) /\
  (exists w',
      test (T := toy_torch) 0%nat
           {| dl_dataset := []; dl_batch_size := 2; dl_shuffle := true |}
           Cpu empty_world = (inr Np.NaN, w') /\
      w_trace w' = w_trace (T := toy_torch) empty_world
                   ++ [EvCallTest; EvModelEval 0; EvPrint (TestLine Np.NaN Np.NaN)] /\
      w_optimizers w' = w_optimizers (T := toy_torch) empty_world).
Proof.
  apply (empty_loader_runs (T := toy_torch) 0 0%nat
           {| dl_dataset := []; dl_batch_size := 2; dl_shuffle := true |}
           0%nat 1 Cpu empty_world).
  reflexivity.
Defined.

(** ** Evaluation changes nothing but the mode *)

Lemma test_batch_frame {T : Torch} (model : nat) (locals : Locals)
      (batch : list (Image * Z)) (w : World) r w' :
  test_batch model locals batch w = (r, w') ->
  w_modules w' = w_modules w /\ w_optimizers w' = w_optimizers w.
Proof.
  destruct locals as [losses accs].
  unfold test_batch, model_call, bind, get_module.
  destruct (nth_error (w_modules w) model) as [mo|].
  - cbn. destruct (accuracy _ _) as [e|acc]; cbn; intros H; injection H as _ <-; auto.
  - intros H. injection H as _ <-. auto.
Qed.

Lemma test_batches_frame {T : Torch} (model : nat) (batches : list (list (Image * Z))) :
  forall (locals : Locals) (w : World) r w',
    foldM (test_batch model) locals batches w = (r, w') ->
    w_modules w' = w_modules w /\ w_optimizers w' = w_optimizers w.
Proof.
  induction batches as [|batch batches IH]; intros locals w r w' H.
  - cbn in H. injection H as _ <-. auto.
  - cbn [foldM] in H. unfold bind in H.
    destruct (test_batch model locals batch w) as [[e|locals1] w1] eqn:E1.
    + injection H as _ <-. eapply test_batch_frame; eassumption.
    + apply IH in H. apply test_batch_frame in E1.
      destruct H as [-> ->]. exact E1.
Qed.

Lemma test_frame {T : Torch} (model : nat) (test_loader : DataLoader)
      (device : Device) (w : World) r w' :
  test model test_loader device w = (r, w') ->
  w_modules w' = list_update (w_modules w) model (mo_with_training false) /\
  w_optimizers w' = w_optimizers w.
Proof.
  set (w1 := {| w_modules := w_modules w; w_optimizers := w_optimizers w;
                w_rng := w_rng w; w_trace := w_trace w ++ [EvCallTest] |}).
  set (w2 := {| w_modules := list_update (w_modules w) model (mo_with_training false);
                w_optimizers := w_optimizers w; w_rng := w_rng w;
                w_trace := (w_trace w ++ [EvCallTest]) ++ [EvModelEval model] |}).
  assert (E1 : emit EvCallTest w = (inr tt, w1)) by reflexivity.
  assert (E2 : model_eval model w1 = (inr tt, w2)) by reflexivity.
  destruct (iterate_batches_at test_loader w2) as (w3 & E3 & Hm3 & Ho3 & _).
  unfold test.
  rewrite (bind_inr _ _ _ _ _ E1), (bind_inr _ _ _ _ _ E2), (bind_inr _ _ _ _ _ E3).
  unfold bind.
  destruct (foldM (test_batch model) ([], []) (batches_at test_loader (w_rng w2)) w3)
    as [[e|[losses accs]] w4] eqn:Ef.
  - intros H. injection H as _ <-. apply test_batches_frame in Ef.
    destruct Ef as [-> ->]. rewrite Hm3, Ho3. auto.
  - cbn. intros H. injection H as _ <-. cbn. apply test_batches_frame in Ef.
    destruct Ef as [-> ->]. rewrite Hm3, Ho3. auto.
Qed.

(** X7.  [test] only reads the model: whatever it returns, it leaves
    every optimizer, with its accumulated gradients and its privacy
    engine, as it was, and changes no module except for putting the
    model in evaluation mode, parameters and stored gradients
    included.  On a live model it succeeds and its events are the
    call, [model.eval()], one forward pass per batch and the printed
    line: it calls no optimizer method and runs no backward pass. *)
Theorem test_reads_only {T : Torch} (model : nat) (test_loader : DataLoader)
    (device : Device) (w : World) (arch : Nn.Module) (params : Params) :
  holds w model arch params ->
  exists r w',
    test model test_loader device w = (inr r, w') /\
    w_optimizers w' = w_optimizers w /\
    w_modules w' = list_update (w_modules w) model (mo_with_training false) /\
    holds w' model arch params /\
    option_map m_grad (nth_error (w_modules w') model)
    = option_map m_grad (nth_error (w_modules w) model) /\
    (forall optimizer, engine_of w' optimizer = engine_of w optimizer) /\
    (forall optimizer, accum_len w' optimizer = accum_len w optimizer) /\
    filter is_optimizer_call (new_events w w') = [] /\
    filter (fun e => match e with
                     | EvBackward _ | EvZeroGrad _ => true
                     | _ => false
                     end) (new_events w w') = [] /\
    List.length (filter (fun e => match e with EvForward _ _ => true | _ => false end)
                        (new_events w w'))
    = List.length (batches_at test_loader (w_rng w)).
Proof.
  intros H.
  destruct (test_run model arch params test_loader device w H) as (w' & E & Tr).
  cbv zeta in E, Tr.
  destruct (test_frame model test_loader device w _ w' E) as [Hm Ho].
  destruct H as (mo & Hmo & Ha & Hp).
  eexists _, w'. split; [exact E|]. split; [exact Ho|]. split; [exact Hm|].
  split.
  { exists (mo_with_training false mo). rewrite Hm, nth_error_list_update_eq, Hmo. auto. }
  split.
  { rewrite Hm, nth_error_list_update_eq, Hmo. reflexivity. }
  split; [intros o; unfold engine_of; now rewrite Ho|].
  split; [intros o; unfold accum_len; now rewrite Ho|].
  rewrite (new_events_app w w' _ Tr).
  cbn [filter is_optimizer_call]. rewrite !filter_app.
  rewrite !filter_repeat_false by reflexivity. cbn [filter is_optimizer_call app].
  split; [reflexivity|]. split; [reflexivity|].
  rewrite length_app. cbn [List.length]. rewrite Nat.add_0_r.
  generalize (List.length (batches_at test_loader (w_rng w))) as k.
  induction k as [|k IH]; [reflexivity|]. cbn [List.repeat filter List.length]. now rewrite IH.
Qed.

Lemma test_reads_only_witness :
  exists r w',
    test (T := toy_torch) 0%nat toy_loader Cpu toy_world = (inr r, w') /\
    w_optimizers w' = w_optimizers toy_world /\
    w_modules w' = list_update (w_modules toy_world) 0 (mo_with_training false) /\
    holds w' 0 converted_resnet18 0 /\
    option_map m_grad (nth_error (w_modules w') 0)
    = option_map m_grad (nth_error (w_modules toy_world) 0) /\
    (forall optimizer, engine_of w' optimizer = engine_of toy_world optimizer) /\
    (forall optimizer, accum_len w' optimizer = accum_len toy_world optimizer) /\
    filter is_optimizer_call (new_events toy_world w') = [] /\
    filter (fun e => match e with
                     | EvBackward _ | EvZeroGrad _ => true
                     | _ => false
                     end) (new_events toy_world w') = [] /\
    List.length (filter (fun e => match e with EvForward _ _ => true | _ => false end)
                        (new_events toy_world w'))
    = List.length (batches_at toy_loader (w_rng toy_world)).
Proof.
  apply (test_reads_only (T := toy_torch) 0%nat toy_loader Cpu toy_world
                         converted_resnet18 0).
  eexists. split; [reflexivity|]. split; reflexivity.
Defined.

(** ** Calls of [train] that raise *)

Lemma loader_len_positive {T : Torch} (dl : DataLoader) :
  0 < dl_batch_size dl -> dl_dataset dl <> [] -> 0 < loader_len dl.
Proof.
  intros Hb Hd. unfold loader_len. destruct (dl_dataset dl); [contradiction|].
  cbn [List.length]. apply Z.div_str_pos. lia.
Qed.

Lemma iterate_nonempty {T : Torch} (dl : DataLoader) (w : World) :
  0 < dl_batch_size dl -> dl_dataset dl <> [] ->
  exists batch batches w',
    iterate dl w = (inr (batch :: batches), w') /\
    w_modules w' = w_modules w /\ w_optimizers w' = w_optimizers w /\
    w_trace w' = w_trace w.
Proof.
  intros Hb Hd.
  destruct (iterate_run dl w Hb) as (batches & w' & E & Hn & Hm & Ho & Ht).
  pose proof (loader_len_positive dl Hb Hd) as Hp.
  destruct batches as [|batch batches]; [simpl in Hn; lia|]. eauto 10.
Qed.

(** X8.  With [virtual_batch_rate] equal to 0, [train] over a loader
    that has samples raises [ZeroDivisionError] on its first batch,
    after the forward and backward passes and before any optimizer
    step or printed line; the privacy engine has counted nothing. *)
Theorem train_zero_rate_raises {T : Torch} (model : nat) (train_loader : DataLoader)
    (optimizer : nat) (epoch : Z) (device : Device) (w : World) :
  0 < dl_batch_size train_loader ->
  dl_dataset train_loader <> [] ->
  ready w model optimizer = true ->
  exists w' arch,
    train 0 model train_loader optimizer epoch device w = (inl ZeroDivisionError, w') /\
    new_events w w'
    = [EvCallTrain epoch; EvModelTrain model; EvZeroGrad optimizer;
       EvForward model arch; EvBackward model] /\
    engine_of w' optimizer = engine_of w optimizer.
Proof.
  intros Hb Hd Hready.
  destruct (ready_linked w model optimizer Hready) as (arch & pe & L).
  destruct (emit_linked model optimizer arch (EvCallTrain epoch) w pe L)
    as (w1 & E1 & L1 & T1).
  destruct (model_train_run model optimizer arch w1 pe L1) as (w2 & E2 & L2 & _ & T2).
  destruct (iterate_nonempty train_loader w2 Hb Hd)
    as (batch & batches & w3 & E3 & Hm & Ho & T3).
  assert (L3 : linked w3 model optimizer arch pe).
  { unfold linked in *. rewrite Hm, Ho. exact L2. }
  destruct (zero_grad_run model optimizer arch w3 pe L3) as (w4 & E4 & L4 & T4).
  destruct (model_call_run model optimizer arch w4 pe (map fst batch) L4)
    as (w5 & out & E5 & Hout & L5 & T5).
  destruct (loss_backward_run model optimizer arch w5 pe batch L5) as (w6 & E6 & L6 & T6).
  exists w6, arch. split; [|split].
  - unfold train, train_loop.
    apply bind_inl.
    rewrite (bind_inr _ _ _ _ _ E1), (bind_inr _ _ _ _ _ E2), (bind_inr _ _ _ _ _ E3).
    unfold enumerate. cbn [enumerate_from foldM]. apply bind_inl.
    unfold train_batch.
    rewrite (bind_inr _ _ _ _ _ E4), (bind_inr _ _ _ _ _ E5).
    rewrite accuracy_same_length by (now rewrite !length_map in * ).
    cbn [lift]. rewrite bind_ret. rewrite (bind_inr _ _ _ _ _ E6).
    reflexivity.
  - apply new_events_app. rewrite T6, T5, T4, T3, T2, T1, <- !app_assoc. reflexivity.
  - destruct L as (mo & opt & _ & _ & Ho0 & _ & He0).
    destruct L6 as (mo6 & opt6 & _ & _ & Ho6 & _ & He6).
    unfold engine_of. now rewrite Ho0, Ho6, He0, He6.
Qed.

Lemma train_zero_rate_raises_witness :
  exists w' arch,
    train (T := toy_torch) 0 0%nat toy_loader 0%nat 1 Cpu toy_world
    = (inl ZeroDivisionError, w') /\
    new_events toy_world w'
    = [EvCallTrain 1; EvModelTrain 0; EvZeroGrad 0; EvForward 0 arch; EvBackward 0] /\
    engine_of w' 0 = engine_of toy_world 0.
Proof.
  apply (train_zero_rate_raises (T := toy_torch) 0%nat toy_loader 0%nat 1 Cpu toy_world).
  - reflexivity.
  - discriminate.
  - vm_compute. reflexivity.
Defined.

Section Bare.
Context {T : Torch}.
Variables (model optimizer : nat) (arch : Nn.Module).

Lemma unattached_bare (w : World) :
  unattached w model optimizer = true -> exists a, bare w model optimizer a.
Proof.
  unfold unattached, bare.
  destruct (nth_error (w_modules w) model) as [mo|] eqn:Em; [|discriminate].
  destruct (nth_error (w_optimizers w) optimizer) as [opt|] eqn:Eo; [|discriminate].
  destruct (o_engine opt) as [pe|] eqn:Ee; rewrite ?andb_false_r; [discriminate|].
  rewrite andb_true_r, Nat.eqb_eq. intros Hm.
  exists (m_arch mo), mo, opt. auto.
Qed.

Lemma bare_zero_grad (w : World) :
  bare w model optimizer arch ->
  exists w', zero_grad optimizer w = (inr tt, w') /\ bare w' model optimizer arch /\
             w_trace w' = w_trace w ++ [EvZeroGrad optimizer].
Proof.
  intros (mo & opt & Hm & Ha & Ho & Hom & He).
  unfold zero_grad, bind, get_optimizer. rewrite Ho. cbn.
  eexists; split; [reflexivity|]. split; [|reflexivity].
  exists (mo_with_grad None mo), opt. cbn.
  rewrite Hom, nth_error_list_update_eq, Hm. auto.
Qed.

Lemma bare_model_call (w : World) (images : list Image) :
  bare w model optimizer arch ->
  exists w' out, model_call model images w = (inr out, w') /\
                 List.length out = List.length images /\
                 bare w' model optimizer arch /\
                 w_trace w' = w_trace w ++ [EvForward model arch].
Proof.
  intros (mo & opt & Hm & Ha & Ho & Hom & He).
  unfold model_call, bind, get_module. rewrite Hm. cbn.
  do 2 eexists; split; [reflexivity|]. split; [apply length_map|].
  split; [|now rewrite Ha].
  exists mo, opt. cbn. auto.
Qed.

Lemma bare_loss_backward (w : World) (batch : list (Image * Z)) :
  bare w model optimizer arch ->
  exists w', loss_backward model batch w = (inr tt, w') /\
             bare w' model optimizer arch /\
             w_trace w' = w_trace w ++ [EvBackward model].
Proof.
  intros (mo & opt & Hm & Ha & Ho & Hom & He).
  unfold loss_backward, bind, get_module. rewrite Hm. cbn.
  eexists; split; [reflexivity|]. split; [|reflexivity].
  eexists _, opt. cbn. rewrite nth_error_list_update_eq, Hm. cbn. auto.
Qed.

Lemma bare_step (w : World) :
  bare w model optimizer arch ->
  exists w', step optimizer w = (inr tt, w') /\ bare w' model optimizer arch /\
             w_trace w' = w_trace w ++ [EvStep optimizer].
Proof.
  intros (mo & opt & Hm & Ha & Ho & Hom & He).
  unfold step, bind, get_optimizer, get_module. rewrite Ho. cbn.
  rewrite Hom, Hm. cbn.
  eexists; split; [reflexivity|]. split; [|reflexivity].
  exists (mo_with_params (apply_update (o_engine opt) (o_lr opt) (m_params mo) (pending opt mo)) mo),
         (o_with_accum [] (o_with_engine (option_map pe_count_step (o_engine opt)) opt)).
  cbn. rewrite !nth_error_list_update_eq, Hm, Ho. cbn. rewrite He. cbn. auto.
Qed.

Lemma bare_virtual_step (w : World) :
  bare w model optimizer arch ->
  virtual_step optimizer w = (inl (AttributeError "virtual_step"), w).
Proof.
  intros (mo & opt & Hm & Ha & Ho & Hom & He).
  unfold virtual_step, bind, get_optimizer. rewrite Ho, He. reflexivity.
Qed.

Lemma bare_privacy_spent (w : World) (delta : Q) :
  bare w model optimizer arch ->
  privacy_spent optimizer delta w = (inl (AttributeError "privacy_engine"), w).
Proof.
  intros (mo & opt & Hm & Ha & Ho & Hom & He).
  unfold privacy_spent, bind, get_optimizer. rewrite Ho, He. reflexivity.
Qed.

End Bare.

(** X9.  [train] needs the privacy engine attached.  On an optimizer
    without one, over a loader that has samples and with a rate that is
    not zero, it raises [AttributeError] on the first batch: at
    [optimizer.virtual_step()] when that batch takes a virtual step,
    and otherwise, after the plain [optimizer.step()], at
    [optimizer.privacy_engine] in the report of batch 0.  No line is
    printed. *)
Theorem train_unattached_raises {T : Torch} (virtual_batch_rate : Z)
    (model : nat) (train_loader : DataLoader) (optimizer : nat) (epoch : Z)
    (device : Device) (w : World) :
  virtual_batch_rate <> 0 ->
  0 < dl_batch_size train_loader ->
  dl_dataset train_loader <> [] ->
  unattached w model optimizer = true ->
  exists w',
    train virtual_batch_rate model train_loader optimizer epoch device w
    = (inl (AttributeError
              (if real_step virtual_batch_rate (loader_len train_loader) 0
               then "privacy_engine" else "virtual_step")), w') /\
    optimizer_calls (new_events w w')
    = (if real_step virtual_batch_rate (loader_len train_loader) 0
       then [EvStep optimizer] else []) /\
    lines (new_events w w') = [].
Proof.
  intros Hr Hb Hd Hun.
  destruct (unattached_bare model optimizer w Hun) as (arch & B).
  set (w1 := {| w_modules := w_modules w; w_optimizers := w_optimizers w;
                w_rng := w_rng w; w_trace := w_trace w ++ [EvCallTrain epoch] |}).
  set (w2 := {| w_modules := list_update (w_modules w) model (mo_with_training true);
                w_optimizers := w_optimizers w; w_rng := w_rng w;
                w_trace := (w_trace w ++ [EvCallTrain epoch]) ++ [EvModelTrain model] |}).
  assert (E1 : emit (EvCallTrain epoch) w = (inr tt, w1)) by reflexivity.
  assert (E2 : model_train model w1 = (inr tt, w2)) by reflexivity.
  assert (B2 : bare w2 model optimizer arch).
  { destruct B as (mo & opt & Hm & Ha & Ho & Hom & He).
    exists (mo_with_training true mo), opt. cbn.
    rewrite nth_error_list_update_eq, Hm. auto. }
  destruct (iterate_nonempty train_loader w2 Hb Hd)
    as (batch & batches & w3 & E3 & Hm & Ho & T3).
  assert (B3 : bare w3 model optimizer arch).
  { unfold bare in *. rewrite Hm, Ho. exact B2. }
  destruct (bare_zero_grad model optimizer arch w3 B3) as (w4 & E4 & B4 & T4).
  destruct (bare_model_call model optimizer arch w4 (map fst batch) B4)
    as (w5 & out & E5 & Hout & B5 & T5).
  destruct (bare_loss_backward model optimizer arch w5 batch B5) as (w6 & E6 & B6 & T6).
  assert (Hrun : forall e w',
             bind (if real_step virtual_batch_rate (loader_len train_loader) 0
                   then step optimizer else virtual_step optimizer)
                  (fun _ =>
                     bind (if 0 mod 200 =? 0
                           then bind (privacy_spent optimizer DELTA)
                                     (fun spent =>
                                        emit (EvPrint
                                                (TrainLine epoch
                                                   (Np.mean ([] ++ [cross_entropy out (map snd batch)]))
                                                   (Np.scale 100
                                                      (Np.mean
                                                         ([] ++ [Np.mean_bool
                                                                   (Np.zip_eqb (map Np.argmax out)
                                                                               (map snd batch))])))
                                                   (fst spent) DELTA)))
                           else ret tt)
                          (fun _ => ret ([] ++ [cross_entropy out (map snd batch)],
                                         [] ++ [Np.mean_bool
                                                  (Np.zip_eqb (map Np.argmax out)
                                                              (map snd batch))])))
                  w6 = (inl e, w') ->
             train virtual_batch_rate model train_loader optimizer epoch device w
             = (inl e, w')).
  { intros e w' H. unfold train, train_loop. apply bind_inl.
    rewrite (bind_inr _ _ _ _ _ E1), (bind_inr _ _ _ _ _ E2), (bind_inr _ _ _ _ _ E3).
    unfold enumerate. cbn [enumerate_from foldM]. apply bind_inl.
    unfold train_batch.
    rewrite (bind_inr _ _ _ _ _ E4), (bind_inr _ _ _ _ _ E5).
    rewrite accuracy_same_length by (now rewrite !length_map in * ).
    cbn [lift]. rewrite bind_ret, (bind_inr _ _ _ _ _ E6).
    unfold py_mod. destruct (virtual_batch_rate =? 0) eqn:Er;
      [apply Z.eqb_eq in Er; contradiction|].
    cbn [lift]. rewrite bind_ret. exact H. }
  assert (Tr6 : w_trace w6
                = w_trace w ++ [EvCallTrain epoch; EvModelTrain model; EvZeroGrad optimizer;
                                EvForward model arch; EvBackward model]).
  { rewrite T6, T5, T4, T3. subst w2. cbn [w_trace]. rewrite <- !app_assoc. reflexivity. }
  change (real_step virtual_batch_rate (loader_len train_loader) 0)
    with (real_step virtual_batch_rate (loader_len train_loader) O) in *.
  destruct (real_step virtual_batch_rate (loader_len train_loader) 0) eqn:Ers.
  - destruct (bare_step model optimizer arch w6 B6) as (w7 & E7 & B7 & T7).
    assert (Tr7 : w_trace w7
                  = w_trace w ++ [EvCallTrain epoch; EvModelTrain model;
                                  EvZeroGrad optimizer; EvForward model arch;
                                  EvBackward model; EvStep optimizer]).
    { rewrite T7, Tr6, <- app_assoc. reflexivity. }
    exists w7. split; [|split].
    + apply Hrun. rewrite (bind_inr _ _ _ _ _ E7). apply bind_inl.
      change (0 mod 200 =? 0) with true. cbv iota. apply bind_inl.
      now apply (bare_privacy_spent model optimizer arch).
    + rewrite (new_events_app w w7 _ Tr7). reflexivity.
    + rewrite (new_events_app w w7 _ Tr7). reflexivity.
  - exists w6. split; [|split].
    + apply Hrun. apply bind_inl. now apply (bare_virtual_step model optimizer arch).
    + rewrite (new_events_app w w6 _ Tr6). reflexivity.
    + rewrite (new_events_app w w6 _ Tr6). reflexivity.
Qed.

Lemma train_unattached_raises_witness :
  exists w',
    train (T := toy_torch) 2 0%nat toy_loader 0%nat 1 Cpu
          (snd (optim_RMSprop (T := toy_torch) 0 LR
                  (snd (models_resnet18 (T := toy_torch) empty_world))))
    = (inl (AttributeError
              (if real_step 2 (loader_len toy_loader) 0
               then "privacy_engine" else "virtual_step")), w') /\
    optimizer_calls
      (new_events (snd (optim_RMSprop (T := toy_torch) 0 LR
                          (snd (models_resnet18 (T := toy_torch) empty_world)))) w')
    = (if real_step 2 (loader_len toy_loader) 0 then [EvStep 0%nat] else []) /\
    lines
      (new_events (snd (optim_RMSprop (T := toy_torch) 0 LR
                          (snd (models_resnet18 (T := toy_torch) empty_world)))) w')
    = [].
Proof.
  apply (train_unattached_raises (T := toy_torch) 2 0%nat toy_loader 0%nat 1 Cpu).
  - discriminate.
  - reflexivity.
  - discriminate.
  - vm_compute. reflexivity.
Defined.
